(** * carla::nav::Navigation — a shallow embedding of Navigation.cpp

    The file follows [LibCarla/source/carla/nav/Navigation.cpp]: the binary
    navmesh loader ([Load]), the path query ([GetPath]), the walker façade
    ([AddWalker], [SetWalkerTarget], [GetWalkerTransform], [GetWalkerSpeed]),
    the crowd tick ([UpdateCrowd]) and the random sampler
    ([GetRandomLocationWithoutLock]).

    Recast/Detour (dtNavMesh, dtNavMeshQuery, dtCrowd) is a vendored engine
    that Navigation.cpp only calls; it enters as an interface
    ([MeshEngine], [CrowdEngine]) whose operations are parameters. *)

From Stdlib Require Import ZArith NArith List Bool Lia.
From Stdlib Require Import Floats.SpecFloat.
From Stdlib Require Import Init.Byte.
From Stdlib Require Strings.String.
From stdpp Require Import base option list gmap.

Local Open Scope Z_scope.

(** ** Single and double precision numbers

    [float] is IEEE-754 binary32 and [double] binary64, both taken from the
    standard library's [spec_float] with round-to-nearest-even. *)

Module F32.
Definition prec : Z := 24.
Definition emax : Z := 128.
Definition t : Type := spec_float.

Definition of_Z (z : Z) : t := binary_normalize prec emax z 0 false.
Definition zero : t := S754_zero false.
Definition nan : t := S754_nan.

Definition add : t -> t -> t := SFadd prec emax.
Definition sub : t -> t -> t := SFsub prec emax.
Definition mul : t -> t -> t := SFmul prec emax.
Definition div : t -> t -> t := SFdiv prec emax.
Definition sqrt : t -> t := SFsqrt prec emax.
Definition eqb : t -> t -> bool := SFeqb.
Definition leb : t -> t -> bool := SFleb.

(** A decimal literal [n/d] with a float suffix: the nearest binary32. *)
Definition lit (n d : Z) : t := div (of_Z n) (of_Z d).

(** [static_cast<float>(M_PI)]: 13176795 * 2^-22. *)
Definition pi : t := S754_finite false 13176795 (-22).

(** [fmod x y]: the remainder of the truncated division, with the sign of
    [x]; it is exactly representable, so no rounding takes place. *)
Definition fmod (x y : t) : t :=
  match x, y with
  | S754_nan, _ | _, S754_nan => S754_nan
  | S754_infinity _, _ => S754_nan
  | _, S754_zero _ => S754_nan
  | S754_zero _, _ => x
  | S754_finite _ _ _, S754_infinity _ => x
  | S754_finite sx mx ex, S754_finite _ my ey =>
      let e := Z.min ex ey in
      let X := Z.pos mx * 2 ^ (ex - e) in
      let Y := Z.pos my * 2 ^ (ey - e) in
      binary_normalize prec emax (cond_Zopp sx (X mod Y)) e sx
  end.

(** [false] converted to [float], as in [return false;] from a function
    whose return type is [float]. *)
Definition of_bool (b : bool) : t := if b then of_Z 1 else zero.
End F32.

Module F64.
Definition prec : Z := 53.
Definition emax : Z := 1024.
Definition t : Type := spec_float.
Definition zero : t := S754_zero false.

(** [static_cast<float>(d)] *)
Definition to_float (d : t) : F32.t :=
  match d with
  | S754_finite s m e =>
      binary_normalize F32.prec F32.emax (cond_Zopp s (Z.pos m)) e s
  | _ => d
  end.
End F64.

Abbreviation float := F32.t.
Abbreviation double := F64.t.

Declare Scope f32_scope.
Delimit Scope f32_scope with f32.
Infix "+" := F32.add : f32_scope.
Infix "-" := F32.sub : f32_scope.
Infix "*" := F32.mul : f32_scope.
Infix "/" := F32.div : f32_scope.
Infix "==" := F32.eqb (at level 70, no associativity) : f32_scope.
Infix "<=?" := F32.leb : f32_scope.

(** The libm function whose results the C standard leaves to the
    implementation. *)
Class Libm := { atan2f : float -> float -> float }.

(** What the C++ semantics leaves indeterminate and the calls read all the
    same. *)
Class Indeterminate := {
  (** what a [memcpy] finds in memory behind the last byte of [content]:
      the loader reads before it compares [pos] with [content.size()] *)
  beyond : nat -> byte;
  (** the value the uninitialised local [targetRef] of
      [SetWalkerTargetIndex] holds *)
  indeterminate_ref : N;
}.

(** ** carla::geom

    Modelled from the spec: [Location], [Rotation] and [Transform] are
    declared in carla/geom, outside Navigation.cpp; the spec speaks of 3D
    points [(x, y, z)] and of a transform as "position + yaw".  The source
    reads and writes the members named here. *)

Module geom.
Record Location := { x : float; y : float; z : float }.
Record Rotation := { pitch : float; yaw : float; roll : float }.
Record Transform := { location : Location; rotation : Rotation }.

(** Modelled from the spec: [Vector3D::SquaredLength] lives in
    carla/geom/Vector3D.h; the spec's arrival policy calls it "the squared
    length of that vector". *)
Definition SquaredLength (v : Location) : float :=
  (x v * x v + y v * y v + z v * z v)%f32.
End geom.

(** [float p[3]] as the engine takes it. *)
Definition float3 : Type := float * float * float.
Definition at0 (p : float3) : float := fst (fst p).
Definition at1 (p : float3) : float := snd (fst p).
Definition at2 (p : float3) : float := snd p.

(** The host-to-engine and engine-to-host axis conventions, as every
    boundary of Navigation.cpp writes them:
    [{ from.x, from.z, from.y }] and [Location(p[0], p[2], p[1])]. *)
Definition to_engine (l : geom.Location) : float3 :=
  (geom.x l, geom.z l, geom.y l).
Definition to_host (p : float3) : geom.Location :=
  {| geom.x := at0 p; geom.y := at2 p; geom.z := at1 p |}.

(** ** Constants of Navigation.cpp *)

Definition MAX_POLYS : Z := 256.
Definition MAX_AGENTS : Z := 500.
Definition AGENT_RADIUS : float := F32.lit 3 10.

(** ** Bytes and fixed-width integers

    The file format is "native-endian, packed"; the layout here is the one
    of the x86-64 targets of the project: little-endian, 32-bit [int],
    64-bit [unsigned long] and [size_t]. *)

Definition le_unsigned (bs : list byte) : Z :=
  fold_right (fun b acc => Z.of_N (Byte.to_N b) + 256 * acc) 0 bs.

(** A 32-bit pattern read as [int]. *)
Definition to_int (u : Z) : Z :=
  let w := u mod 2 ^ 32 in if w <? 2 ^ 31 then w else w - 2 ^ 32.

(** [static_cast<size_t>(i)] and [unsigned long] arithmetic: 64 bits. *)
Definition to_size_t (i : Z) : Z := i mod 2 ^ 64.

(** ** Detour's interface *)

Abbreviation dtStatus := N (only parsing).
Abbreviation dtPolyRef := N (only parsing).
Abbreviation dtTileRef := N (only parsing).
Abbreviation ActorId := N (only parsing).

Record dtQueryFilter := { includeFlags : N; excludeFlags : N }.
Definition setIncludeFlags (f : dtQueryFilter) (flags : N) : dtQueryFilter :=
  {| includeFlags := flags; excludeFlags := excludeFlags f |}.
Definition setExcludeFlags (f : dtQueryFilter) (flags : N) : dtQueryFilter :=
  {| includeFlags := includeFlags f; excludeFlags := flags |}.

(** Modelled from the spec: [dtQueryFilter::passFilter] is Detour's and
    not part of the source at hand; the spec has the filter as "a mutable
    pair of flag bitsets (include-flags, exclude-flags) controlling which
    polygons a query may traverse".  A polygon with the flag word [flags]
    passes when it shares a flag with the include-flags and none with the
    exclude-flags. *)
Definition passFilter (f : dtQueryFilter) (flags : N) : bool :=
  negb (N.land flags (includeFlags f) =? 0)%N
  && (N.land flags (excludeFlags f) =? 0)%N.

Record dtObstacleAvoidanceParams {Rest : Type} := {
  velBias : float;
  adaptiveDivs : Z;
  adaptiveRings : Z;
  adaptiveDepth : Z;
  oa_rest : Rest;
}.
Arguments dtObstacleAvoidanceParams : clear implicits.

Record dtCrowdAgentParams := {
  radius : float;
  height : float;
  maxAcceleration : float;
  maxSpeed : float;
  collisionQueryRange : float;
  pathOptimizationRange : float;
  separationWeight : float;
  updateFlags : Z;
  obstacleAvoidanceType : Z;
}.

(** What Navigation.cpp reads of a [dtCrowdAgent].  [cornerVerts] is indexed
    without a bounds check, so it is a function of the index. *)
Record dtCrowdAgent := {
  active : bool;
  npos : float3;
  vel : float3;
  dvel : float3;
  ncorners : Z;
  cornerVerts : Z -> float;
}.

(** Detour's constants, the navigation mesh and its query object.
    Out-parameters are results; where Detour may leave one unwritten, its
    previous contents are an argument.  A C array filled by the engine is a
    function of the index. *)
Class MeshEngine := {
  dtNavMesh : Type;
  dtNavMeshQuery : Type;
  (** the state behind [rand()], which [frand] advances *)
  RandState : Type;
  (** [sizeof(dtNavMeshParams)] and [sizeof(dtTileRef)] *)
  sizeof_dtNavMeshParams : Z;
  sizeof_dtTileRef : Z;
  DT_SUCCESS : dtStatus;
  dtStatusFailed : dtStatus -> bool;
  DT_TILE_FREE_DATA : Z;
  SAMPLE_POLYFLAGS_ALL : N;
  SAMPLE_POLYFLAGS_DISABLED : N;
  DT_CROWD_ANTICIPATE_TURNS : Z;
  DT_CROWD_OBSTACLE_AVOIDANCE : Z;
  DT_CROWD_SEPARATION : Z;
  DT_CROWD_OPTIMIZE_VIS : Z;
  DT_CROWD_OPTIMIZE_TOPO : Z;
  (** the members of [dtObstacleAvoidanceParams] that CreateCrowd copies
      and never writes *)
  OARest : Type;
  (** a default-constructed [dtQueryFilter] *)
  dtQueryFilter_new : dtQueryFilter;
  (** [dtAlloc(size, DT_ALLOC_PERM) != nullptr] *)
  dtAlloc : Z -> bool;
  (** [dtAllocNavMesh()] followed by [mesh->init(&params)] *)
  navmesh_init : list byte -> dtStatus * dtNavMesh;
  addTile : dtNavMesh -> list byte -> Z -> Z -> dtTileRef -> dtNavMesh;
  (** [dtAllocNavMeshQuery()] followed by [query->init(mesh, maxNodes)] *)
  navquery_init : dtNavMesh -> Z -> dtNavMeshQuery;
  findNearestPoly :
    dtNavMeshQuery -> float3 -> float3 -> dtQueryFilter -> dtPolyRef ->
    dtPolyRef * float3;
  (** fills [m_polys] and [m_npolys] *)
  findPath :
    dtNavMeshQuery -> dtPolyRef -> dtPolyRef -> float3 -> float3 ->
    dtQueryFilter -> Z -> (Z -> dtPolyRef) * Z;
  closestPointOnPoly :
    dtNavMeshQuery -> dtPolyRef -> float3 -> float3 -> float3;
  (** fills [m_straightPath] and [m_nstraightPath] *)
  findStraightPath :
    dtNavMeshQuery -> float3 -> float3 -> (Z -> dtPolyRef) -> Z -> Z -> Z ->
    (Z -> float) * Z;
  findRandomPoint :
    dtNavMeshQuery -> dtQueryFilter -> RandState -> dtPolyRef -> float3 ->
    dtStatus * dtPolyRef * float3 * RandState;
}.

(** The crowd manager. *)
Class CrowdEngine `{MeshEngine} := {
  dtCrowd : Type;
  (** [dtAllocCrowd()] followed by [crowd->init(maxAgents, radius, nav)] *)
  crowd_init : Z -> float -> option dtNavMesh -> dtCrowd;
  getFilter : dtCrowd -> Z -> dtQueryFilter;
  (** writing through [getEditableFilter(i)] *)
  setFilter : dtCrowd -> Z -> dtQueryFilter -> dtCrowd;
  getQueryHalfExtents : dtCrowd -> float3;
  getObstacleAvoidanceParams : dtCrowd -> Z -> dtObstacleAvoidanceParams OARest;
  setObstacleAvoidanceParams :
    dtCrowd -> Z -> dtObstacleAvoidanceParams OARest -> dtCrowd;
  addAgent : dtCrowd -> float3 -> dtCrowdAgentParams -> Z * dtCrowd;
  getAgent : dtCrowd -> Z -> dtCrowdAgent;
  getAgentCount : dtCrowd -> Z;
  requestMoveTarget : dtCrowd -> Z -> dtPolyRef -> float3 -> bool * dtCrowd;
  crowd_update : dtCrowd -> float -> dtCrowd;
}.

(** ** Outcomes

    A call either returns, dereferences a null pointer, or (for the
    unbounded [do ... while (1)] of the sampler) is still looping when the
    fuel of the model runs out. *)
Inductive run (A : Type) : Type :=
| Done (a : A)
| NullDeref
| OutOfFuel.
Arguments Done {A} a.
Arguments NullDeref {A}.
Arguments OutOfFuel {A}.

#[global] Instance run_bind : MBind run := fun A B k m =>
  match m with
  | Done a => k a
  | NullDeref => NullDeref
  | OutOfFuel => OutOfFuel
  end.

#[global] Instance run_fmap : FMap run := fun A B f m =>
  match m with
  | Done a => Done (f a)
  | NullDeref => NullDeref
  | OutOfFuel => OutOfFuel
  end.

Definition is_done {A} (r : run A) : bool :=
  match r with Done _ => true | _ => false end.

(** [p->...] on a pointer member. *)
Definition deref {A} (p : option A) : run A :=
  match p with Some a => Done a | None => NullDeref end.

Section Navigation.
Context {ME : MeshEngine} {CE : CrowdEngine} {LM : Libm} {IM : Indeterminate}.

Record Navigation := {
  _binaryMesh : list byte;
  _delta_seconds : double;
  _navMesh : option dtNavMesh;
  _navQuery : option dtNavMeshQuery;
  _crowd : option dtCrowd;
  _mappedId : gmap N Z;
  _baseHeight : gmap N float;
  yaw_walkers : gmap N float;
}.

(** Modelled from the spec: Navigation.h, with the members and their
    initialisers, is not part of the source at hand.  A new object has no
    surface, no query object, no crowd and no walker (the destructor frees
    the three pointers, so they start as null; the spec has the crowd
    "built once" and walkers "created by AddWalker").  The initial
    [_delta_seconds] is left open. *)
Definition Navigation_new (delta0 : double) : Navigation :=
  {| _binaryMesh := []; _delta_seconds := delta0;
     _navMesh := None; _navQuery := None; _crowd := None;
     _mappedId := ∅; _baseHeight := ∅; yaw_walkers := ∅ |}.

(** What the calls release and where they read outside [content]. *)
Inductive Event :=
| out_of_range (pos len : Z)
| dtFree (data : list byte)
| dtFreeNavMesh (mesh : option dtNavMesh)
| dtFreeNavMeshQuery (query : option dtNavMeshQuery).

(** *** memcpy(dst, &content[pos], len)

    [Load] copies from [content] before it compares the offset with
    [content.size()].  A copy that ends behind the last byte of [content]
    is undefined behaviour in the program (for an empty vector the source
    pointer is null).  The model records every such copy as an
    [out_of_range] event and follows the run in which the copy returns the
    bytes [beyond]: what [Load] returns after an [out_of_range] event is
    one outcome the program may have, not the only one, and a statement
    about the program's result holds only where the log has no such
    event ([over_reads] below). *)

Definition byte_at (content : list byte) (i : nat) : byte :=
  match content !! i with
  | Some b => b
  | None => beyond i
  end.

Definition memcpy (content : list byte) (pos len : Z) : list byte :=
  map (byte_at content) (seq (Z.to_nat pos) (Z.to_nat len)).

Definition reads_outside (content : list byte) (pos len : Z) : bool :=
  (0 <? len) && (Z.of_nat (length content) <? pos + len).

Definition memcpy_log (content : list byte) (pos len : Z) : list Event :=
  if reads_outside content pos len then [out_of_range pos len] else [].

(** *** Load *)

Definition NAVMESHSET_MAGIC : Z :=
  Z.lor (Z.lor (Z.lor (Z.shiftl 77 24) (Z.shiftl 83 16)) (Z.shiftl 69 8)) 84.
Definition NAVMESHSET_VERSION : Z := 1.

(** [#pragma pack(push, 1)]: no padding. *)
Definition sizeof_NavMeshSetHeader : Z := 4 + 4 + 4 + sizeof_dtNavMeshParams.
Definition sizeof_NavMeshTileHeader : Z := sizeof_dtTileRef + 4.

Record NavMeshSetHeader := {
  magic : Z;
  version : Z;
  numTiles : Z;
  params : list byte;
}.

Definition read_NavMeshSetHeader (content : list byte) (pos : Z)
  : NavMeshSetHeader :=
  let raw := memcpy content pos sizeof_NavMeshSetHeader in
  {| magic := to_int (le_unsigned (take 4 raw));
     version := to_int (le_unsigned (take 4 (drop 4 raw)));
     numTiles := to_int (le_unsigned (take 4 (drop 8 raw)));
     params := drop 12 raw |}.

Record NavMeshTileHeader := {
  tileRef : dtTileRef;
  dataSize : Z;
}.

Definition read_NavMeshTileHeader (content : list byte) (pos : Z)
  : NavMeshTileHeader :=
  let raw := memcpy content pos sizeof_NavMeshTileHeader in
  let w := Z.to_nat sizeof_dtTileRef in
  {| tileRef := Z.to_N (le_unsigned (take w raw));
     dataSize := to_int (le_unsigned (take 4 (drop w raw))) |}.

(** The [for (int i = 0; i < header.numTiles; ++i)] loop with [n]
    iterations left.  [None] is [return false]; [Some mesh] leaves the
    loop, at its end or by [break]. *)
Fixpoint read_tiles (content : list byte) (n : nat) (pos : Z)
    (mesh : dtNavMesh) (log : list Event)
  : option dtNavMesh * list Event :=
  match n with
  | O => (Some mesh, log)
  | S n' =>
      let tileHeader := read_NavMeshTileHeader content pos in
      let log := log ++ memcpy_log content pos sizeof_NavMeshTileHeader in
      let pos := to_size_t (pos + sizeof_NavMeshTileHeader) in
      if Z.of_nat (length content) <=? pos then
        (None, log ++ [dtFreeNavMesh (Some mesh)])
      else if (tileRef tileHeader =? 0)%N || (dataSize tileHeader =? 0) then
        (Some mesh, log)
      else
        let size := to_size_t (dataSize tileHeader) in
        if negb (dtAlloc size) then (Some mesh, log)
        else
          let data := memcpy content pos size in
          let log := log ++ memcpy_log content pos size in
          let pos := to_size_t (pos + size) in
          if Z.of_nat (length content) <? pos then
            (None, log ++ [dtFree data; dtFreeNavMesh (Some mesh)])
          else
            read_tiles content n' pos
              (addTile mesh data (dataSize tileHeader) DT_TILE_FREE_DATA
                 (tileRef tileHeader))
              log
  end.

Definition oa_set (p : dtObstacleAvoidanceParams OARest)
    (bias : float) (divs rings depth : Z)
  : dtObstacleAvoidanceParams OARest :=
  {| velBias := bias; adaptiveDivs := divs; adaptiveRings := rings;
     adaptiveDepth := depth; oa_rest := oa_rest p |}.

Definition CreateCrowd (nav : Navigation) : Navigation :=
  match _crowd nav with
  | Some _ => nav
  | None =>
      let crowd := crowd_init MAX_AGENTS AGENT_RADIUS (_navMesh nav) in
      let crowd :=
        setFilter crowd 0
          (setExcludeFlags (getFilter crowd 0) SAMPLE_POLYFLAGS_DISABLED) in
      let params := getObstacleAvoidanceParams crowd 0 in
      (* Low (11) *)
      let params := oa_set params (F32.lit 5 10) 5 2 1 in
      let crowd := setObstacleAvoidanceParams crowd 0 params in
      (* Medium (22) *)
      let params := oa_set params (F32.lit 5 10) 5 2 2 in
      let crowd := setObstacleAvoidanceParams crowd 1 params in
      (* Good (45) *)
      let params := oa_set params (F32.lit 5 10) 7 2 3 in
      let crowd := setObstacleAvoidanceParams crowd 2 params in
      (* High (66) *)
      let params := oa_set params (F32.lit 5 10) 7 3 3 in
      let crowd := setObstacleAvoidanceParams crowd 3 params in
      {| _binaryMesh := _binaryMesh nav; _delta_seconds := _delta_seconds nav;
         _navMesh := _navMesh nav; _navQuery := _navQuery nav;
         _crowd := Some crowd;
         _mappedId := _mappedId nav; _baseHeight := _baseHeight nav;
         yaw_walkers := yaw_walkers nav |}
  end.

Record LoadResult := {
  load_ok : bool;
  load_nav : Navigation;
  load_log : list Event;
}.

(** The tail of [Load], from [// exchange] to [// copy]: the new mesh
    replaces the old one, the query object is rebuilt, the crowd is created
    if there is none, and the buffer is kept. *)
Definition Load_exchange (content : list byte) (mesh : dtNavMesh)
    (nav : Navigation) : Navigation :=
  (* exchange, prepare the query object *)
  let nav :=
    {| _binaryMesh := _binaryMesh nav;
       _delta_seconds := _delta_seconds nav;
       _navMesh := Some mesh;
       _navQuery := Some (navquery_init mesh 2048);
       _crowd := _crowd nav;
       _mappedId := _mappedId nav; _baseHeight := _baseHeight nav;
       yaw_walkers := yaw_walkers nav |} in
  (* create and init the crowd manager *)
  let nav := CreateCrowd nav in
  (* copy *)
  {| _binaryMesh := content;
     _delta_seconds := _delta_seconds nav;
     _navMesh := _navMesh nav; _navQuery := _navQuery nav;
     _crowd := _crowd nav;
     _mappedId := _mappedId nav; _baseHeight := _baseHeight nav;
     yaw_walkers := yaw_walkers nav |}.

(** [bool Navigation::Load(const std::vector<uint8_t> content)] *)
Definition Load (content : list byte) (nav : Navigation) : LoadResult :=
  (* read the file header *)
  let header := read_NavMeshSetHeader content 0 in
  let log := memcpy_log content 0 sizeof_NavMeshSetHeader in
  let pos := to_size_t (0 + sizeof_NavMeshSetHeader) in
  (* check file magic and version *)
  if negb (magic header =? NAVMESHSET_MAGIC)
     || negb (version header =? NAVMESHSET_VERSION) then
    {| load_ok := false; load_nav := nav; load_log := log |}
  else
    (* allocate object, set number of tiles and origin *)
    let '(status, mesh) := navmesh_init (params header) in
    if dtStatusFailed status then
      {| load_ok := false; load_nav := nav; load_log := log |}
    else
      (* read the tiles data *)
      match read_tiles content (Z.to_nat (numTiles header)) pos mesh log with
      | (None, log) =>
          {| load_ok := false; load_nav := nav; load_log := log |}
      | (Some mesh, log) =>
          {| load_ok := true;
             load_nav := Load_exchange content mesh nav;
             load_log :=
               log ++ [dtFreeNavMesh (_navMesh nav);
                       dtFreeNavMeshQuery (_navQuery nav)] |}
      end.

(** *** Member updates *)

Definition set_crowd (nav : Navigation) (crowd : dtCrowd) : Navigation :=
  {| _binaryMesh := _binaryMesh nav; _delta_seconds := _delta_seconds nav;
     _navMesh := _navMesh nav; _navQuery := _navQuery nav;
     _crowd := Some crowd;
     _mappedId := _mappedId nav; _baseHeight := _baseHeight nav;
     yaw_walkers := yaw_walkers nav |}.

Definition set_delta_seconds (nav : Navigation) (d : double) : Navigation :=
  {| _binaryMesh := _binaryMesh nav; _delta_seconds := d;
     _navMesh := _navMesh nav; _navQuery := _navQuery nav;
     _crowd := _crowd nav;
     _mappedId := _mappedId nav; _baseHeight := _baseHeight nav;
     yaw_walkers := yaw_walkers nav |}.

Definition set_yaw_walkers (nav : Navigation) (m : gmap N float)
  : Navigation :=
  {| _binaryMesh := _binaryMesh nav; _delta_seconds := _delta_seconds nav;
     _navMesh := _navMesh nav; _navQuery := _navQuery nav;
     _crowd := _crowd nav;
     _mappedId := _mappedId nav; _baseHeight := _baseHeight nav;
     yaw_walkers := m |}.

(** *** GetPath *)

(** [filter2] after [setIncludeFlags] and [setExcludeFlags]. *)
Definition default_filter : dtQueryFilter :=
  setExcludeFlags
    (setIncludeFlags dtQueryFilter_new
       (N.lxor SAMPLE_POLYFLAGS_ALL SAMPLE_POLYFLAGS_DISABLED))
    0.

(** [for (int i=0; i<m_nstraightPath*3; i+=3) path.emplace_back(...)],
    with [steps] iterations left. *)
Fixpoint copy_path (m_straightPath : Z -> float) (steps : nat) (i : Z)
    (path : list geom.Location) : list geom.Location :=
  match steps with
  | O => path
  | S steps' =>
      copy_path m_straightPath steps' (i + 3)
        (path ++ [ {| geom.x := m_straightPath i;
                      geom.y := m_straightPath (i + 2);
                      geom.z := m_straightPath (i + 1) |} ])
  end.

(** [bool Navigation::GetPath(from, to, filter, path)]; the second
    component is [path] after the call. *)
Definition GetPath (nav : Navigation) (from to : geom.Location)
    (filter : option dtQueryFilter) (path : list geom.Location)
  : run (bool * list geom.Location) :=
  (* check to load the binary _navMesh from server *)
  if (length (_binaryMesh nav) =? 0)%nat then Done (false, path)
  else
    (* point extension *)
    let m_polyPickExt : float3 := (F32.of_Z 2, F32.of_Z 4, F32.of_Z 2) in
    (* filter *)
    let filter :=
      match filter with None => default_filter | Some f => f end in
    (* set the points *)
    let m_spos : float3 := (geom.x from, geom.z from, geom.y from) in
    let m_epos : float3 := (geom.x to, geom.z to, geom.y to) in
    query ← deref (_navQuery nav);
    let m_startRef :=
      fst (findNearestPoly query m_spos m_polyPickExt filter 0%N) in
    let m_endRef :=
      fst (findNearestPoly query m_epos m_polyPickExt filter 0%N) in
    if (m_startRef =? 0)%N || (m_endRef =? 0)%N then Done (false, path)
    else
      (* get the path of nodes *)
      let '(m_polys, m_npolys) :=
        findPath query m_startRef m_endRef m_spos m_epos filter MAX_POLYS in
      if m_npolys =? 0 then Done (false, path)
      else
        (* in case of partial path, clamp the end point to the last polygon *)
        let epos := m_epos in
        let epos :=
          if negb (N.eqb (m_polys (m_npolys - 1)) m_endRef)
          then closestPointOnPoly query (m_polys (m_npolys - 1)) m_epos epos
          else epos in
        (* get the points *)
        let '(m_straightPath, m_nstraightPath) :=
          findStraightPath query m_spos epos m_polys m_npolys MAX_POLYS 0 in
        (* copy the path to the output buffer *)
        Done (true, copy_path m_straightPath (Z.to_nat m_nstraightPath) 0 []).

(** *** AddWalker *)

Definition walker_params (base_offset : float) : dtCrowdAgentParams :=
  {| radius := AGENT_RADIUS;
     height := (base_offset * F32.of_Z 2)%f32;
     maxAcceleration := F32.of_Z 8;
     maxSpeed := F32.lit 147 100;
     collisionQueryRange := (AGENT_RADIUS * F32.of_Z 12)%f32;
     pathOptimizationRange := (AGENT_RADIUS * F32.of_Z 30)%f32;
     updateFlags :=
       Z.lor (Z.lor (Z.lor (Z.lor (Z.lor 0 DT_CROWD_ANTICIPATE_TURNS)
                               DT_CROWD_OPTIMIZE_VIS)
                        DT_CROWD_OPTIMIZE_TOPO)
                 DT_CROWD_OBSTACLE_AVOIDANCE)
         DT_CROWD_SEPARATION;
     obstacleAvoidanceType := 3;
     separationWeight := F32.lit 5 10 |}.

(** [bool Navigation::AddWalker(id, from, base_offset)] *)
Definition AddWalker (nav : Navigation) (id : ActorId)
    (from : geom.Location) (base_offset : float) : bool * Navigation :=
  match _crowd nav with
  | None => (false, nav)
  | Some crowd =>
      let params := walker_params base_offset in
      (* set from Unreal coordinates *)
      let PointFrom : float3 := (geom.x from, geom.z from, geom.y from) in
      (* add walker *)
      let '(index, crowd) := addAgent crowd PointFrom params in
      if index =? -1 then (false, set_crowd nav crowd)
      else
        (true,
         {| _binaryMesh := _binaryMesh nav;
            _delta_seconds := _delta_seconds nav;
            _navMesh := _navMesh nav; _navQuery := _navQuery nav;
            _crowd := Some crowd;
            _mappedId := <[id := index]> (_mappedId nav);
            _baseHeight := <[id := base_offset]> (_baseHeight nav);
            yaw_walkers := <[id := F32.zero]> (yaw_walkers nav) |})
  end.

(** *** SetWalkerTarget *)

Definition SetWalkerTargetIndex (nav : Navigation) (index : Z)
    (to : geom.Location) : run (bool * Navigation) :=
  if index =? -1 then Done (false, nav)
  else
    (* set target position *)
    let pointTo : float3 := (geom.x to, geom.z to, geom.y to) in
    crowd ← deref (_crowd nav);
    let filter := getFilter crowd 0 in
    query ← deref (_navQuery nav);
    let '(targetRef, nearest) :=
      findNearestPoly query pointTo (getQueryHalfExtents crowd) filter
        indeterminate_ref in
    if (targetRef =? 0)%N then Done (false, nav)
    else
      let '(ok, crowd) := requestMoveTarget crowd index targetRef pointTo in
      Done (ok, set_crowd nav crowd).

Definition SetWalkerTarget (nav : Navigation) (id : ActorId)
    (to : geom.Location) : run (bool * Navigation) :=
  (* get the internal index *)
  match _mappedId nav !! id with
  | None => Done (false, nav)
  | Some index => SetWalkerTargetIndex nav index to
  end.

(** *** GetRandomLocation *)

(** [maxHeight == -1.0f || (maxHeight >= 0.0f && location.z <= maxHeight)] *)
Definition height_ok (maxHeight : float) (location : geom.Location) : bool :=
  (maxHeight == F32.of_Z (-1))%f32
  || ((F32.zero <=? maxHeight)%f32 && (geom.z location <=? maxHeight)%f32).

(** The [do { ... } while (1)] of the sampler: [fuel] bounds the number of
    calls to [findRandomPoint] the model follows. *)
Fixpoint sample_loop (fuel : nat) (query : dtNavMeshQuery)
    (filter : dtQueryFilter) (maxHeight : float)
    (randomRef : dtPolyRef) (point : float3) (location : geom.Location)
    (rand : RandState) : run (bool * geom.Location * RandState) :=
  match fuel with
  | O => OutOfFuel
  | S fuel' =>
      let '(status, randomRef, point, rand) :=
        findRandomPoint query filter rand randomRef point in
      if (status =? DT_SUCCESS)%N then
        (* set the location in Unreal coords *)
        let location :=
          {| geom.x := at0 point; geom.y := at2 point;
             geom.z := at1 point |} in
        if height_ok maxHeight location then Done (true, location, rand)
        else
          sample_loop fuel' query filter maxHeight randomRef point location
            rand
      else
        sample_loop fuel' query filter maxHeight randomRef point location rand
  end.

(** [bool Navigation::GetRandomLocationWithoutLock(location, maxHeight,
    filter)]; [rand] is the state of [rand()] that [frand] draws from. *)
Definition GetRandomLocationWithoutLock (fuel : nat) (nav : Navigation)
    (location : geom.Location) (maxHeight : float)
    (filter : option dtQueryFilter) (rand : RandState)
  : run (bool * geom.Location * RandState) :=
  query ← deref (_navQuery nav);
  (* filter *)
  let filter := match filter with None => default_filter | Some f => f end in
  (* search *)
  sample_loop fuel query filter maxHeight 0%N
    (F32.zero, F32.zero, F32.zero) location rand.

(** [GetRandomLocation] takes [_mutex] and calls the function above. *)
Definition GetRandomLocation := GetRandomLocationWithoutLock.

(** *** UpdateCrowd *)

(** [for (int i = 0; i<_crowd->getAgentCount(); ++i)] from index [i] on;
    [fuel] bounds the iterations and each sampler run. *)
Fixpoint arrival_scan (fuel : nat) (i : Z) (nav : Navigation)
    (rand : RandState) : run (Navigation * RandState) :=
  match fuel with
  | O => OutOfFuel
  | S fuel' =>
      crowd ← deref (_crowd nav);
      if i <? getAgentCount crowd then
        let ag := getAgent crowd i in
        if negb (active ag) then arrival_scan fuel' (i + 1) nav rand
        else
          (* check distance to the target point *)
          let e := (ncorners ag - 1) * 3 in
          let dist :=
            {| geom.x := (cornerVerts ag e - at0 (npos ag))%f32;
               geom.y := (cornerVerts ag (e + 1) - at1 (npos ag))%f32;
               geom.z := (cornerVerts ag (e + 2) - at2 (npos ag))%f32 |} in
          if (geom.SquaredLength dist <=? F32.of_Z 2)%f32 then
            (* set a new random target *)
            let location :=
              {| geom.x := F32.zero; geom.y := F32.zero;
                 geom.z := F32.zero |} in
            '(_, location, rand) ←
              GetRandomLocationWithoutLock fuel' nav location (F32.of_Z 1)
                None rand;
            '(_, nav) ← SetWalkerTargetIndex nav i location;
            arrival_scan fuel' (i + 1) nav rand
          else arrival_scan fuel' (i + 1) nav rand
      else Done (nav, rand)
  end.

(** [void Navigation::UpdateCrowd(state)], where [delta_seconds] is
    [state.GetTimestamp().delta_seconds]. *)
Definition UpdateCrowd (fuel : nat) (nav : Navigation)
    (delta_seconds : double) (rand : RandState)
  : run (Navigation * RandState) :=
  match _navMesh nav, _crowd nav with
  | Some _, Some crowd =>
      (* update all *)
      let nav := set_delta_seconds nav delta_seconds in
      let crowd := crowd_update crowd (F64.to_float (_delta_seconds nav)) in
      (* check if walker has finished *)
      arrival_scan fuel 0 (set_crowd nav crowd) rand
  | _, _ => Done (nav, rand)
  end.

(** *** GetWalkerTransform *)

(** [yaw_walkers[id]] as a value: [operator[]] gives a missing key the
    value [0.0f]. *)
Definition yaw_of (nav : Navigation) (id : ActorId) : float :=
  default F32.zero (yaw_walkers nav !! id).

(** The yaw [GetWalkerTransform] returns for a stored heading [stored], a
    desired velocity [dv] and the last tick's [delta]. *)
Definition smoothed_yaw (dv : float3) (stored : float) (delta : double)
  : float :=
  let yaw := (atan2f (at2 dv) (at0 dv) * (F32.of_Z 180 / F32.pi))%f32 in
  let shortest_angle :=
    (F32.fmod (yaw - stored + F32.of_Z 540) (F32.of_Z 360)
     - F32.of_Z 180)%f32 in
  let rotation_speed := F32.of_Z 4 in
  (stored + shortest_angle * rotation_speed * F64.to_float delta)%f32.

(** [bool Navigation::GetWalkerTransform(id, trans)]; the result carries
    [trans] and the object after the call. *)
Definition GetWalkerTransform (nav : Navigation) (id : ActorId)
    (trans : geom.Transform) : run (bool * geom.Transform * Navigation) :=
  (* get the internal index *)
  match _mappedId nav !! id with
  | None => Done (false, trans, nav)
  | Some index =>
      if index =? -1 then Done (false, trans, nav)
      else
        (* get the walker *)
        crowd ← deref (_crowd nav);
        let agent := getAgent crowd index in
        if negb (active agent) then Done (false, trans, nav)
        else
          let baseOffset :=
            match _baseHeight nav !! id with
            | Some b => b
            | None => F32.zero
            end in
          (* set its position in Unreal coordinates *)
          let location :=
            {| geom.x := at0 (npos agent);
               geom.y := at2 (npos agent);
               geom.z :=
                 (at1 (npos agent) + baseOffset - F32.lit 8 100)%f32 |} in
          (* set its rotation *)
          let yaw :=
            smoothed_yaw (dvel agent) (yaw_of nav id) (_delta_seconds nav) in
          let trans :=
            {| geom.location := location;
               geom.rotation :=
                 {| geom.pitch := geom.pitch (geom.rotation trans);
                    geom.yaw := yaw;
                    geom.roll := geom.roll (geom.rotation trans) |} |} in
          Done (true, trans,
                set_yaw_walkers nav (<[id := yaw]> (yaw_walkers nav)))
  end.

(** *** GetWalkerSpeed *)

(** [float Navigation::GetWalkerSpeed(id)] *)
Definition GetWalkerSpeed (nav : Navigation) (id : ActorId) : run float :=
  (* get the internal index *)
  match _mappedId nav !! id with
  | None => Done (F32.of_bool false)
  | Some index =>
      if index =? -1 then Done (F32.of_bool false)
      else
        (* get the walker *)
        crowd ← deref (_crowd nav);
        let agent := getAgent crowd index in
        Done (F32.sqrt (at0 (vel agent) * at0 (vel agent)
                        + at1 (vel agent) * at1 (vel agent)
                        + at2 (vel agent) * at2 (vel agent))%f32)
  end.

(** ** Vocabulary of the statements *)

(** *** Buffers *)

(** The file header lies inside [content] and passes the magic and
    version check. *)
Definition header_ok (content : list byte) : bool :=
  (sizeof_NavMeshSetHeader <=? Z.of_nat (length content))
  && (magic (read_NavMeshSetHeader content 0) =? NAVMESHSET_MAGIC)
  && (version (read_NavMeshSetHeader content 0) =? NAVMESHSET_VERSION).

(** The record at [pos] is a whole tile: non-zero handle, positive length,
    header and data inside [content]. *)
Definition tile_ok (content : list byte) (pos : Z) : bool :=
  let h := read_NavMeshTileHeader content pos in
  (0 <=? pos)
  && negb (tileRef h =? 0)%N && (0 <? dataSize h)
  && (pos + sizeof_NavMeshTileHeader + dataSize h
      <=? Z.of_nat (length content)).

(** The record at [pos] is a terminator: [tileRef == 0 || dataSize == 0],
    its header inside [content]. *)
Definition zero_record (content : list byte) (pos : Z) : bool :=
  let h := read_NavMeshTileHeader content pos in
  (0 <=? pos)
  && ((tileRef h =? 0)%N || (dataSize h =? 0))
  && (pos + sizeof_NavMeshTileHeader <=? Z.of_nat (length content)).

(** The offset at which [k] whole tiles starting at [pos] end. *)
Fixpoint declared_end (content : list byte) (k : nat) (pos : Z) : option Z :=
  match k with
  | O => Some pos
  | S k' =>
      if tile_ok content pos then
        declared_end content k'
          (pos + sizeof_NavMeshTileHeader
           + dataSize (read_NavMeshTileHeader content pos))
      else None
  end.

(** The mesh after [addTile] of [k] whole tiles starting at [pos]. *)
Fixpoint add_tiles (content : list byte) (k : nat) (pos : Z)
    (mesh : dtNavMesh) : dtNavMesh :=
  match k with
  | O => mesh
  | S k' =>
      let h := read_NavMeshTileHeader content pos in
      let data_pos := pos + sizeof_NavMeshTileHeader in
      add_tiles content k' (data_pos + dataSize h)
        (addTile mesh (memcpy content data_pos (dataSize h)) (dataSize h)
           DT_TILE_FREE_DATA (tileRef h))
  end.

(** The mesh [Load] builds on, whether its initialisation succeeded, and
    the tile count the header declares. *)
Definition fresh_mesh (content : list byte) : dtNavMesh :=
  snd (navmesh_init (params (read_NavMeshSetHeader content 0))).
Definition init_ok (content : list byte) : bool :=
  negb (dtStatusFailed
          (fst (navmesh_init (params (read_NavMeshSetHeader content 0))))).
Definition declared_tiles (content : list byte) : Z :=
  numTiles (read_NavMeshSetHeader content 0).

(** [content] ends before the file header does. *)
Definition shorter_than_header (content : list byte) : bool :=
  Z.of_nat (length content) <? sizeof_NavMeshSetHeader.

(** [content] holds an accepted header and [j] whole tiles, fewer than
    declared, and ends inside (or at the start of) the next record's
    header. *)
Definition ends_inside_tile_header (content : list byte) (j : nat) : bool :=
  header_ok content && init_ok content
  && (Z.of_nat j <? declared_tiles content)
  && match declared_end content j sizeof_NavMeshSetHeader with
     | Some p =>
         (p <=? Z.of_nat (length content))
         && (Z.of_nat (length content) <? p + sizeof_NavMeshTileHeader)
     | None => false
     end.

(** The objects a log hands back to Detour, in order. *)
Definition is_release (e : Event) : bool :=
  match e with
  | dtFreeNavMesh _ | dtFreeNavMeshQuery _ => true
  | _ => false
  end.
Definition releases (log : list Event) : list Event :=
  List.filter is_release log.

(** The copies of a log that left the buffer: the run is defined in the
    program only if there is none. *)
Definition is_over_read (e : Event) : bool :=
  match e with
  | out_of_range _ _ => true
  | _ => false
  end.
Definition over_reads (log : list Event) : list Event :=
  List.filter is_over_read log.

(** *** The path query in the spec's words

    Section 4.2 of the spec: translate the endpoints, pick the filter,
    locate the nearest polygons, search the corridor, clamp the end of a
    partial corridor, simplify, translate the waypoints back. *)

Definition pick_extent : float3 := (F32.of_Z 2, F32.of_Z 4, F32.of_Z 2).

Definition effective_filter (filter : option dtQueryFilter) : dtQueryFilter :=
  match filter with None => default_filter | Some f => f end.

(** The engine-side steps, on endpoints [s] and [e] in engine
    coordinates. *)
Definition nearest_ref (query : dtNavMeshQuery) (filter : dtQueryFilter)
    (p : float3) : dtPolyRef :=
  fst (findNearestPoly query p pick_extent filter 0%N).

Definition corridor (query : dtNavMeshQuery) (filter : dtQueryFilter)
    (s e : float3) : (Z -> dtPolyRef) * Z :=
  findPath query (nearest_ref query filter s) (nearest_ref query filter e)
    s e filter MAX_POLYS.

Definition clamped_end (query : dtNavMeshQuery) (filter : dtQueryFilter)
    (s e : float3) : float3 :=
  let '(polys, npolys) := corridor query filter s e in
  if N.eqb (polys (npolys - 1)) (nearest_ref query filter e) then e
  else closestPointOnPoly query (polys (npolys - 1)) e e.

Definition straight_path (query : dtNavMeshQuery) (filter : dtQueryFilter)
    (s e : float3) : (Z -> float) * Z :=
  let '(polys, npolys) := corridor query filter s e in
  findStraightPath query s (clamped_end query filter s e) polys npolys
    MAX_POLYS 0.

(** The [k]-th point of a straight-path buffer, in engine coordinates. *)
Definition straight_point (buf : Z -> float) (k : nat) : float3 :=
  (buf (3 * Z.of_nat k), buf (3 * Z.of_nat k + 1), buf (3 * Z.of_nat k + 2)).

(** The points of a straight path, in engine coordinates. *)
Definition straight_points (sp : (Z -> float) * Z) : list float3 :=
  map (straight_point (fst sp)) (seq 0 (Z.to_nat (snd sp))).

(** *** The sampler's draws *)

(** The result of the [n]-th call (from 0) to [findRandomPoint] in one run
    of the sampler. *)
Fixpoint sample_at (n : nat) (query : dtNavMeshQuery)
    (filter : dtQueryFilter) (rand : RandState) (randomRef : dtPolyRef)
    (point : float3) : dtStatus * dtPolyRef * float3 * RandState :=
  match n with
  | O => findRandomPoint query filter rand randomRef point
  | S n' =>
      let '(_, randomRef, point, rand) :=
        findRandomPoint query filter rand randomRef point in
      sample_at n' query filter rand randomRef point
  end.

(** The draw ends the loop. *)
Definition accepted (maxHeight : float)
    (r : dtStatus * dtPolyRef * float3 * RandState) : bool :=
  let '(status, _, point, _) := r in
  (status =? DT_SUCCESS)%N && height_ok maxHeight (to_host point).

(** What a successful [GetWalkerTransform] returns and stores. *)
Definition reported (nav : Navigation) (id : ActorId) (agent : dtCrowdAgent)
    (trans : geom.Transform) : geom.Transform :=
  {| geom.location :=
       {| geom.x := at0 (npos agent);
          geom.y := at2 (npos agent);
          geom.z :=
            (at1 (npos agent) + default F32.zero (_baseHeight nav !! id)
             - F32.lit 8 100)%f32 |};
     geom.rotation :=
       {| geom.pitch := geom.pitch (geom.rotation trans);
          geom.yaw :=
            smoothed_yaw (dvel agent) (yaw_of nav id) (_delta_seconds nav);
          geom.roll := geom.roll (geom.rotation trans) |} |}.

(** The parts of a draw. *)
Definition sample_status (r : dtStatus * dtPolyRef * float3 * RandState)
  : dtStatus := fst (fst (fst r)).
Definition sample_ref (r : dtStatus * dtPolyRef * float3 * RandState)
  : dtPolyRef := snd (fst (fst r)).
Definition sample_point (r : dtStatus * dtPolyRef * float3 * RandState)
  : float3 := snd (fst r).
Definition sample_rand (r : dtStatus * dtPolyRef * float3 * RandState)
  : RandState := snd r.

(** *** Histories of calls *)

(** The calls that can change the object. *)
Inductive Call :=
| call_Load (content : list byte)
| call_AddWalker (id : ActorId) (from : geom.Location) (base_offset : float)
| call_SetWalkerTarget (id : ActorId) (to : geom.Location)
| call_UpdateCrowd (fuel : nat) (delta_seconds : double) (rand : RandState)
| call_GetWalkerTransform (id : ActorId) (trans : geom.Transform).

(** One call.  A [Load] step is the run the model follows; where [Load]
    copies from behind its buffer the program's run is undefined, and
    [reads_inside] below singles out the histories in which it does
    not. *)
Definition step (nav : Navigation) (c : Call) : run Navigation :=
  match c with
  | call_Load content => Done (load_nav (Load content nav))
  | call_AddWalker id from base_offset =>
      Done (snd (AddWalker nav id from base_offset))
  | call_SetWalkerTarget id to => snd <$> SetWalkerTarget nav id to
  | call_UpdateCrowd fuel delta_seconds rand =>
      fst <$> UpdateCrowd fuel nav delta_seconds rand
  | call_GetWalkerTransform id trans =>
      snd <$> GetWalkerTransform nav id trans
  end.

Fixpoint exec (nav : Navigation) (cs : list Call) : run Navigation :=
  match cs with
  | [] => Done nav
  | c :: cs' => nav' ← step nav c; exec nav' cs'
  end.

(** The identities passed to [AddWalker] in a history. *)
Fixpoint added (cs : list Call) : gset N :=
  match cs with
  | [] => ∅
  | call_AddWalker id _ _ :: cs' => {[ id ]} ∪ added cs'
  | _ :: cs' => added cs'
  end.

(** Every [Load] of the history reads inside its buffer, so that the run
    of the history is defined in the program. *)
Fixpoint reads_inside (nav : Navigation) (cs : list Call) : bool :=
  match cs with
  | [] => true
  | c :: cs' =>
      match c with
      | call_Load content =>
          match over_reads (load_log (Load content nav)) with
          | [] => true
          | _ :: _ => false
          end
      | _ => true
      end
      && match step nav c with
         | Done nav' => reads_inside nav' cs'
         | _ => true
         end
  end.

(** The identities of a list of walkers to add. *)
Definition ids (ws : list (ActorId * geom.Location * float)) : list ActorId :=
  map (fun w => fst (fst w)) ws.

(** [AddWalker] for each entry in turn: the results in order and the final
    object. *)
Fixpoint add_walkers (nav : Navigation)
    (ws : list (ActorId * geom.Location * float)) : list bool * Navigation :=
  match ws with
  | [] => ([], nav)
  | (id, from, base_offset) :: ws' =>
      let '(ok, nav) := AddWalker nav id from base_offset in
      let '(oks, nav) := add_walkers nav ws' in
      (ok :: oks, nav)
  end.

End Navigation.

Arguments Navigation {_ _}.
Arguments LoadResult {_ _}.
Arguments Event {_}.
Arguments Call {_}.

(** ** frand

    [static float frand() { return static_cast<float>(rand()) /
    static_cast<float>(RAND_MAX); }], as a function of the value [r] that
    [rand()] returns and of the implementation's [RAND_MAX]. *)
Definition frand (RAND_MAX r : Z) : float :=
  (F32.of_Z r / F32.of_Z RAND_MAX)%f32.

(** ** Load from a file, and further vocabulary *)

(** The file system and the locale behind [std::ifstream]. *)
Class FileSystem := {
  (** the bytes of the file that [f.open(filename, std::ios::binary)]
      opens, or [None] when it opens none *)
  open_binary : String.string -> option (list byte);
  (** the whitespace of the stream's locale *)
  isspace : byte -> bool;
}.

Section NavigationFile.
Context {ME : MeshEngine} {CE : CrowdEngine} {LM : Libm} {IM : Indeterminate}
  {FS : FileSystem}.

(** [std::ifstream]: the bytes of the open file that are still unread
    ([None] while no file is open), and whether [failbit] is set. *)
Record ifstream := { unread : option (list byte); failbit : bool }.

(** [std::ifstream f;] *)
Definition ifstream_new : ifstream := {| unread := None; failbit := false |}.

(** The leading whitespace that a formatted read skips: [skipws] is set in
    every new stream and [std::ios::binary] does not clear it. *)
Fixpoint skipws (bytes : list byte) : list byte :=
  match bytes with
  | b :: rest => if isspace b then skipws rest else bytes
  | [] => []
  end.

(** [f >> c] for an [unsigned char c]: nothing is read from a stream whose
    state is not good; a stream without a file, or with no byte left
    behind the whitespace, fails and sets [failbit]. *)
Definition extract (f : ifstream) : option byte * ifstream :=
  if failbit f then (None, f)
  else
    match unread f with
    | None => (None, {| unread := None; failbit := true |})
    | Some bytes =>
        match skipws bytes with
        | b :: rest => (Some b, {| unread := Some rest; failbit := false |})
        | [] => (None, {| unread := Some []; failbit := true |})
        end
    end.

(** [std::istream_iterator<uint8_t>]: the end-of-stream iterator, or an
    iterator that holds the value read last. *)
Inductive istream_iterator :=
| end_of_stream
| holding (value : byte).

(** The constructor [istream_iterator(f)] and [operator++]: "after it is
    constructed, and every time ++ is used, the iterator reads and stores
    a value"; when the read fails the iterator becomes equal to the
    end-of-stream iterator.  (libstdc++ and libc++ read in the
    constructor.) *)
Definition istream_iterator_read (f : ifstream)
  : istream_iterator * ifstream :=
  match extract f with
  | (Some b, f') => (holding b, f')
  | (None, f') => (end_of_stream, f')
  end.

(** [f.open(filename, std::ios::binary)]: a file that opens clears the
    state of the stream, one that does not sets [failbit]. *)
Definition ifstream_open (f : ifstream) (filename : String.string)
  : ifstream :=
  match open_binary filename with
  | Some bytes => {| unread := Some bytes; failbit := false |}
  | None => {| unread := None; failbit := true |}
  end.

(** [f.is_open()] *)
Definition is_open (f : ifstream) : bool :=
  match unread f with Some _ => true | None => false end.

(** [std::vector<uint8_t> content(start, end)]: [*start] is appended and
    [++start] evaluated until [start == end]; [fuel] bounds the values
    still to come. *)
Fixpoint vector_of (fuel : nat) (start : istream_iterator) (f : ifstream)
  : list byte :=
  match start, fuel with
  | end_of_stream, _ => []
  | holding b, O => [b]
  | holding b, S fuel' =>
      let '(next, f') := istream_iterator_read f in
      b :: vector_of fuel' next f'
  end.

(** [bool Navigation::Load(const std::string filename)] *)
Definition Load_file (filename : String.string) (nav : Navigation)
  : LoadResult :=
  let f := ifstream_new in
  (* std::istream_iterator<uint8_t> start(f), end; *)
  let '(start, f) := istream_iterator_read f in
  (* read the whole file *)
  let f := ifstream_open f filename in
  if negb (is_open f) then
    {| load_ok := false; load_nav := nav; load_log := [] |}
  else
    let content :=
      vector_of (length (default [] (unread f))) start f in
    (* parse the content *)
    Load content nav.

(** [dtAlloc] hands out the data buffer of each of [k] whole tiles
    starting at [pos]. *)
Fixpoint allocated (content : list byte) (k : nat) (pos : Z) : bool :=
  match k with
  | O => true
  | S k' =>
      let h := read_NavMeshTileHeader content pos in
      dtAlloc (to_size_t (dataSize h))
      && allocated content k'
           (pos + sizeof_NavMeshTileHeader + dataSize h)
  end.

(** The record at [pos] is a tile that [Load] goes on to allocate: its
    header lies inside [content] with at least one byte behind it, and
    neither field is zero. *)
Definition tile_announced (content : list byte) (pos : Z) : bool :=
  let h := read_NavMeshTileHeader content pos in
  (0 <=? pos)
  && negb (tileRef h =? 0)%N && negb (dataSize h =? 0)
  && (pos + sizeof_NavMeshTileHeader <? Z.of_nat (length content)).

(** What holds of an object between calls: the three pointers are null
    together, and then there is no buffer and no walker; the three walker
    maps have the same keys; no identity is mapped to the slot -1. *)
Definition consistent (nav : Navigation) : Prop :=
  (_navMesh nav = None ->
     _navQuery nav = None /\ _crowd nav = None /\ _binaryMesh nav = []
     /\ _mappedId nav = ∅)
  /\ (is_Some (_navMesh nav) ->
        is_Some (_navQuery nav) /\ is_Some (_crowd nav))
  /\ dom (_baseHeight nav) = dom (_mappedId nav)
  /\ dom (yaw_walkers nav) = dom (_mappedId nav)
  /\ (forall id, _mappedId nav !! id <> Some (-1)).

(** [dist.SquaredLength() <= 2] for the agent [ag], as the scan of
    [UpdateCrowd] computes it. *)
Definition arrived (ag : dtCrowdAgent) : bool :=
  let e := (ncorners ag - 1) * 3 in
  (geom.SquaredLength
     {| geom.x := (cornerVerts ag e - at0 (npos ag))%f32;
        geom.y := (cornerVerts ag (e + 1) - at1 (npos ag))%f32;
        geom.z := (cornerVerts ag (e + 2) - at2 (npos ag))%f32 |}
   <=? F32.of_Z 2)%f32.

(** [nav'] is [nav] but for the crowd behind [_crowd]: every other member
    is the same, and [_crowd] is null in both or in neither. *)
Definition same_but_crowd (nav nav' : Navigation) : Prop :=
  _binaryMesh nav' = _binaryMesh nav
  /\ _delta_seconds nav' = _delta_seconds nav
  /\ _navMesh nav' = _navMesh nav
  /\ _navQuery nav' = _navQuery nav
  /\ (is_Some (_crowd nav') <-> is_Some (_crowd nav))
  /\ _mappedId nav' = _mappedId nav
  /\ _baseHeight nav' = _baseHeight nav
  /\ yaw_walkers nav' = yaw_walkers nav.

End NavigationFile.

(** ** The agent pool of the crowd simulator *)

Section SpecCrowd.
Context {ME : MeshEngine}.

(** What the spec leaves to the engine: the solver's step over the agent
    records, the commit of a new target, the per-tier defaults and the
    query extents derived from the radius. *)
Variable solver_step : list dtCrowdAgent -> float -> list dtCrowdAgent.
Variable commit_target : dtCrowdAgent -> dtPolyRef -> float3 -> dtCrowdAgent.
Variable tier_defaults : dtObstacleAvoidanceParams OARest.
Variable half_extents : float -> float3.

Record Pool := {
  slots : list dtCrowdAgent;
  pool_filters : Z -> dtQueryFilter;
  pool_tiers : Z -> dtObstacleAvoidanceParams OARest;
  pool_radius : float;
}.

Definition free_slot : dtCrowdAgent :=
  {| active := false;
     npos := (F32.zero, F32.zero, F32.zero);
     vel := (F32.zero, F32.zero, F32.zero);
     dvel := (F32.zero, F32.zero, F32.zero);
     ncorners := 0; cornerVerts := fun _ => F32.zero |}.

Definition new_agent (pos : float3) : dtCrowdAgent :=
  {| active := true; npos := pos;
     vel := (F32.zero, F32.zero, F32.zero);
     dvel := (F32.zero, F32.zero, F32.zero);
     ncorners := 0; cornerVerts := fun _ => F32.zero |}.

(** Modelled from the spec: Detour's [dtCrowd::init] is not in the
    repository; the spec has it "allocate a fixed-capacity agent pool"
    and "install a base filter". *)
Definition pool_init (maxAgents : Z) (r : float) (nav : option dtNavMesh)
  : Pool :=
  {| slots := replicate (Z.to_nat maxAgents) free_slot;
     pool_filters := fun _ => dtQueryFilter_new;
     pool_tiers := fun _ => tier_defaults;
     pool_radius := r |}.

Fixpoint first_free (l : list dtCrowdAgent) : option nat :=
  match l with
  | [] => None
  | a :: l' => if active a then S <$> first_free l' else Some O
  end.

Definition set_slots (c : Pool) (l : list dtCrowdAgent) : Pool :=
  {| slots := l; pool_filters := pool_filters c;
     pool_tiers := pool_tiers c; pool_radius := pool_radius c |}.

(** Modelled from the spec: Detour's [dtCrowd::addAgent] is not in the
    repository; the spec has "AddAgent(position, params) -> slot index:
    fails (returns an invalid-slot sentinel) if the pool is at capacity",
    and each walker "occupies exactly one agent slot". *)
Definition pool_addAgent (c : Pool) (pos : float3)
    (params : dtCrowdAgentParams) : Z * Pool :=
  match first_free (slots c) with
  | None => (-1, c)
  | Some i => (Z.of_nat i, set_slots c (<[i := new_agent pos]> (slots c)))
  end.

(** Modelled from the spec: [dtCrowd::getAgent]; an index outside the pool
    has no record and reads as a free slot. *)
Definition pool_getAgent (c : Pool) (i : Z) : dtCrowdAgent :=
  if i <? 0 then free_slot
  else default free_slot (slots c !! Z.to_nat i).

(** Modelled from the spec: [dtCrowd::requestMoveTarget] "commits the new
    target" of an agent of the pool. *)
Definition pool_requestMoveTarget (c : Pool) (i : Z) (ref : dtPolyRef)
    (pos : float3) : bool * Pool :=
  if (0 <=? i) && (i <? Z.of_nat (length (slots c))) && negb (ref =? 0)%N
  then
    (true,
     set_slots c
       (<[Z.to_nat i := commit_target (pool_getAgent c i) ref pos]>
          (slots c)))
  else (false, c).

(** The first [j] slots are taken and all others are free. *)
Fixpoint occupied (j : nat) (l : list dtCrowdAgent) : bool :=
  match j, l with
  | O, _ => forallb (fun a => negb (active a)) l
  | S j', a :: l' => active a && occupied j' l'
  | S _, [] => false
  end.

#[local] Instance pool_engine : CrowdEngine := {|
  dtCrowd := Pool;
  crowd_init := pool_init;
  getFilter c i := pool_filters c i;
  setFilter c i f :=
    {| slots := slots c;
       pool_filters := fun j => if j =? i then f else pool_filters c j;
       pool_tiers := pool_tiers c; pool_radius := pool_radius c |};
  getQueryHalfExtents c := half_extents (pool_radius c);
  getObstacleAvoidanceParams c i := pool_tiers c i;
  setObstacleAvoidanceParams c i p :=
    {| slots := slots c; pool_filters := pool_filters c;
       pool_tiers := fun j => if j =? i then p else pool_tiers c j;
       pool_radius := pool_radius c |};
  addAgent := pool_addAgent;
  getAgent := pool_getAgent;
  getAgentCount c := Z.of_nat (length (slots c));
  requestMoveTarget := pool_requestMoveTarget;
  crowd_update c dt := set_slots c (solver_step (slots c) dt);
|}.
End SpecCrowd.


(** ** A small engine to run the model on

    The mesh is the list of tiles added so far and the query object sees
    that list.  A polygon is a tile; a tile whose payload starts with the
    byte 0 is degenerate, and the straight-path step fails on it. *)

Module Example.

Definition DT_FAILURE : N := 2 ^ 31.

Definition nearest (mesh : list (N * list byte)) : N :=
  match mesh with
  | [] => 0
  | (ref, _) :: _ => ref
  end.

Definition degenerate (mesh : list (N * list byte)) (ref : N) : bool :=
  match filter (fun t => N.eqb (fst t) ref) mesh with
  | (_, Byte.x00 :: _) :: _ => true
  | _ => false
  end.

(** The start and the end point, in the layout of [m_straightPath]. *)
Definition two_points (a b : float3) (i : Z) : float :=
  if i =? 0 then at0 a else if i =? 1 then at1 a else if i =? 2 then at2 a
  else if i =? 3 then at0 b else if i =? 4 then at1 b
  else if i =? 5 then at2 b else F32.zero.

#[export] Instance mesh : MeshEngine := {|
  dtNavMesh := list (N * list byte);
  dtNavMeshQuery := list (N * list byte);
  RandState := nat;
  sizeof_dtNavMeshParams := 28;
  sizeof_dtTileRef := 8;
  DT_SUCCESS := 2 ^ 30;
  dtStatusFailed s := N.testbit s 31;
  DT_TILE_FREE_DATA := 1;
  SAMPLE_POLYFLAGS_ALL := 65535;
  SAMPLE_POLYFLAGS_DISABLED := 16;
  DT_CROWD_ANTICIPATE_TURNS := 1;
  DT_CROWD_OBSTACLE_AVOIDANCE := 2;
  DT_CROWD_SEPARATION := 4;
  DT_CROWD_OPTIMIZE_VIS := 8;
  DT_CROWD_OPTIMIZE_TOPO := 16;
  OARest := unit;
  dtQueryFilter_new := {| includeFlags := 65535; excludeFlags := 0 |};
  (* a request of 2^63 bytes or more is refused *)
  dtAlloc size := negb (Z.testbit size 63);
  navmesh_init _ := ((2 ^ 30)%N, []);
  addTile m data _ _ ref := m ++ [(ref, data)];
  navquery_init m _ := m;
  findNearestPoly q center _ _ _ := (nearest q, center);
  findPath _ startRef _ _ _ _ _ := (fun _ => startRef, 1);
  closestPointOnPoly _ _ pos _ := pos;
  findStraightPath q spos epos polys _ _ _ :=
    if degenerate q (polys 0) then (fun _ => F32.zero, 0)
    else (two_points spos epos, 2);
  (* the first draw fails, the second lies at height 2, the third at
     height 1 and all later ones on the ground *)
  findRandomPoint _ _ n ref pt :=
    match n with
    | O => (DT_FAILURE, ref, pt, S n)
    | 1%nat => ((2 ^ 30)%N, 1%N, (F32.zero, F32.of_Z 2, F32.zero), S n)
    | 2%nat => ((2 ^ 30)%N, 1%N, (F32.zero, F32.of_Z 1, F32.zero), S n)
    | _ => ((2 ^ 30)%N, 1%N, (F32.zero, F32.zero, F32.zero), S n)
    end;
|}.

(** A crowd that stands still. *)
Definition stand_still (l : list dtCrowdAgent) (dt : float)
  : list dtCrowdAgent := l.
Definition keep_course (a : dtCrowdAgent) (ref : N) (pos : float3)
  : dtCrowdAgent := a.
Definition tiers : dtObstacleAvoidanceParams OARest :=
  {| velBias := F32.zero; adaptiveDivs := 0; adaptiveRings := 0;
     adaptiveDepth := 0; oa_rest := tt |}.
Definition extents (r : float) : float3 := (r, r, r).

#[export] Instance crowd : CrowdEngine :=
  pool_engine stand_still keep_course tiers extents.

(** [atan2f] on the axes, where C11 F.10.1.4 fixes its value:
    [atan2(±0, x) = ±0] for [x > 0] or [x = +0], and [atan2(y, ±0) = π/2]
    for [y > 0]. *)
Definition atan2f_axes (y x : float) : float :=
  match y, x with
  | S754_zero sy, S754_zero false => S754_zero sy
  | S754_zero sy, S754_finite false _ _ => S754_zero sy
  | S754_finite false _ _, S754_zero _ => F32.div F32.pi (F32.of_Z 2)
  | _, _ => S754_nan
  end.

#[export] Instance libm : Libm := {| atan2f := atan2f_axes |}.

#[export] Instance indeterminate : Indeterminate :=
  {| beyond := fun _ => Byte.xaa; indeterminate_ref := 7 |}.

(** *** Buffers *)

Definition zeros (n : nat) : list byte := replicate n Byte.x00.

(** magic 'MSET', version 1, [numTiles], 28 bytes of parameters *)
Definition header (numTiles : byte) : list byte :=
  [Byte.x54; Byte.x45; Byte.x53; Byte.x4d] ++ [Byte.x01] ++ zeros 3
  ++ [numTiles] ++ zeros 3 ++ zeros 28.

(** tileRef, dataSize, data *)
Definition record (ref size : byte) (data : list byte) : list byte :=
  [ref] ++ zeros 7 ++ [size] ++ zeros 3 ++ data.

(** one tile of two bytes *)
Definition one_tile : list byte :=
  header Byte.x01 ++ record Byte.x01 Byte.x02 [Byte.x01; Byte.x02].

(** one tile whose polygon is degenerate *)
Definition degenerate_tile : list byte :=
  header Byte.x01 ++ record Byte.x01 Byte.x01 [Byte.x00].

(** a declared tile count of 1 and a terminator as the last bytes *)
Definition zero_record_last : list byte :=
  header Byte.x01 ++ record Byte.x00 Byte.x00 [].

(** a declared tile count of 2, one tile, a terminator and one more byte *)
Definition zero_record_then_byte : list byte :=
  header Byte.x02 ++ record Byte.x01 Byte.x01 [Byte.x01]
  ++ record Byte.x00 Byte.x00 [] ++ [Byte.xff].

(** *** Objects *)

Definition fresh : Navigation := Navigation_new F64.zero.

(** 1/20 s *)
Definition tick : double :=
  SFdiv F64.prec F64.emax (binary_normalize F64.prec F64.emax 1 0 false)
    (binary_normalize F64.prec F64.emax 20 0 false).

Definition origin : geom.Location :=
  {| geom.x := F32.zero; geom.y := F32.zero; geom.z := F32.zero |}.
Definition point (a b c : Z) : geom.Location :=
  {| geom.x := F32.of_Z a; geom.y := F32.of_Z b; geom.z := F32.of_Z c |}.
Definition transform0 : geom.Transform :=
  {| geom.location := origin;
     geom.rotation :=
       {| geom.pitch := F32.zero; geom.yaw := F32.zero;
          geom.roll := F32.zero |} |}.

(** after loading [one_tile] *)
Definition loaded : Navigation := load_nav (Load one_tile fresh).

(** after loading [degenerate_tile] *)
Definition loaded_degenerate : Navigation :=
  load_nav (Load degenerate_tile fresh).

(** [loaded] with walker 7 added at the origin *)
Definition with_walker : Navigation :=
  snd (AddWalker loaded 7 origin (F32.of_Z 1)).

(** [with_walker] one tick of 1/20 s later, the walker at rest *)
Definition standing : Navigation := set_delta_seconds with_walker tick.

(** the same with walker 7 heading along the engine's third axis *)
Definition walking : Navigation :=
  match _crowd standing with
  | Some c =>
      set_crowd standing
        (set_slots c
           (<[O := {| active := true;
                      npos := (F32.zero, F32.zero, F32.zero);
                      vel := (F32.zero, F32.zero, F32.of_Z 1);
                      dvel := (F32.zero, F32.zero, F32.of_Z 1);
                      ncorners := 0; cornerVerts := fun _ => F32.zero |}]>
              (slots c)))
  | None => standing
  end.

(** the object and the yaw that a [GetWalkerTransform] hands back *)
Definition object_after (r : run (bool * geom.Transform * Navigation))
  : Navigation :=
  match r with Done (_, _, nav) => nav | _ => fresh end.
Definition returned_yaw (r : run (bool * geom.Transform * Navigation))
  : option float :=
  match r with
  | Done (true, t, _) => Some (geom.yaw (geom.rotation t))
  | _ => None
  end.

(** [n] walkers with the identities 0 .. n-1 *)
Definition walkers (n : nat) : list (ActorId * geom.Location * float) :=
  map (fun i => (N.of_nat i, origin, F32.of_Z 1)) (seq 0 n).

(** a history and the object it leaves *)
Definition history : list Call :=
  [call_Load one_tile; call_AddWalker 7 origin (F32.of_Z 1);
   call_UpdateCrowd 1000 tick O;
   call_GetWalkerTransform 7 transform0].
Definition after_history : Navigation :=
  match exec fresh history with Done nav => nav | _ => fresh end.

(** *** Further buffers and objects *)

(** a wrong magic number in a header of full length *)
Definition wrong_magic : list byte :=
  [Byte.x00; Byte.x45; Byte.x53; Byte.x4d] ++ [Byte.x01] ++ zeros 3
  ++ [Byte.x01] ++ zeros 3 ++ zeros 28.

(** two tiles and one more byte behind them *)
Definition two_tiles : list byte :=
  header Byte.x02 ++ record Byte.x01 Byte.x02 [Byte.x01; Byte.x02]
  ++ record Byte.x02 Byte.x01 [Byte.x03] ++ [Byte.xff].

(** a tile whose [dataSize] is -1: a request of 2^64 - 1 bytes *)
Definition huge_tile : list byte :=
  header Byte.x01 ++ [Byte.x01] ++ zeros 7 ++ replicate 4 Byte.xff
  ++ [Byte.x01].

(** a mesh without tiles behind a buffer that is not empty *)
Definition loaded_empty : Navigation := load_nav (Load (header Byte.x00) fresh).

(** walker 7 added a second time *)
Definition twice : Navigation :=
  snd (AddWalker with_walker 7 (point 1 0 0) (F32.of_Z 2)).

(** [with_walker] after the engine has retired the agent of walker 7 while
    it was moving *)
Definition retired : Navigation :=
  match _crowd with_walker with
  | Some c =>
      set_crowd with_walker
        (set_slots c
           (<[O := {| active := false;
                      npos := (F32.zero, F32.zero, F32.zero);
                      vel := (F32.zero, F32.zero, F32.of_Z 2);
                      dvel := (F32.zero, F32.zero, F32.zero);
                      ncorners := 0; cornerVerts := fun _ => F32.zero |}]>
              (slots c)))
  | None => with_walker
  end.

(** 2^-30 s *)
Definition instant : double :=
  binary_normalize F64.prec F64.emax 1 (-30) false.

(** [walking] after one [GetWalkerTransform] for walker 7 (its stored
    heading is 18 degrees then), with a last tick of 2^-30 s *)
Definition creeping : Navigation :=
  set_delta_seconds (object_after (GetWalkerTransform walking 7 transform0))
    instant.

(** *** Files *)

(** the whitespace of the classic locale: space, \t, \n, \v, \f, \r *)
Definition classic_space (b : byte) : bool :=
  match b with
  | Byte.x20 | Byte.x09 | Byte.x0a | Byte.x0b | Byte.x0c | Byte.x0d => true
  | _ => false
  end.

Import Strings.String.

Definition one_tile_bin : string := "one_tile.bin".
Definition two_tiles_bin : string := "two_tiles.bin".
Definition missing_bin : string := "missing.bin".

(** a directory of two files *)
#[export] Instance files : FileSystem := {|
  open_binary name :=
    if String.eqb name one_tile_bin then Some one_tile
    else if String.eqb name two_tiles_bin then Some two_tiles
    else None;
  isspace := classic_space;
|}.

End Example.

(** ** A second engine

    As the first, but [init] refuses parameters that start with the byte
    0xff, and every random point lies at height 2. *)

Module Highland.

#[export] Instance mesh : MeshEngine := {|
  dtNavMesh := list (N * list byte);
  dtNavMeshQuery := list (N * list byte);
  RandState := nat;
  sizeof_dtNavMeshParams := 28;
  sizeof_dtTileRef := 8;
  DT_SUCCESS := 2 ^ 30;
  dtStatusFailed s := N.testbit s 31;
  DT_TILE_FREE_DATA := 1;
  SAMPLE_POLYFLAGS_ALL := 65535;
  SAMPLE_POLYFLAGS_DISABLED := 16;
  DT_CROWD_ANTICIPATE_TURNS := 1;
  DT_CROWD_OBSTACLE_AVOIDANCE := 2;
  DT_CROWD_SEPARATION := 4;
  DT_CROWD_OPTIMIZE_VIS := 8;
  DT_CROWD_OPTIMIZE_TOPO := 16;
  OARest := unit;
  dtQueryFilter_new := {| includeFlags := 65535; excludeFlags := 0 |};
  dtAlloc size := negb (Z.testbit size 63);
  navmesh_init params :=
    match params with
    | Byte.xff :: _ => (Example.DT_FAILURE, [])
    | _ => ((2 ^ 30)%N, [])
    end;
  addTile m data _ _ ref := m ++ [(ref, data)];
  navquery_init m _ := m;
  findNearestPoly q center _ _ _ := (Example.nearest q, center);
  findPath _ startRef _ _ _ _ _ := (fun _ => startRef, 1);
  closestPointOnPoly _ _ pos _ := pos;
  findStraightPath q spos epos polys _ _ _ :=
    (Example.two_points spos epos, 2);
  findRandomPoint _ _ n ref pt :=
    ((2 ^ 30)%N, 1%N, (F32.zero, F32.of_Z 2, F32.zero), S n);
|}.

Definition tiers : dtObstacleAvoidanceParams OARest :=
  {| velBias := F32.zero; adaptiveDivs := 0; adaptiveRings := 0;
     adaptiveDepth := 0; oa_rest := tt |}.

#[export] Instance crowd : CrowdEngine :=
  pool_engine Example.stand_still Example.keep_course tiers Example.extents.

#[export] Instance libm : Libm := Example.libm.
#[export] Instance indeterminate : Indeterminate := Example.indeterminate.

(** parameters that start with 0xff *)
Definition refused : list byte :=
  [Byte.x54; Byte.x45; Byte.x53; Byte.x4d] ++ [Byte.x01] ++ Example.zeros 3
  ++ [Byte.x01] ++ Example.zeros 3 ++ [Byte.xff] ++ Example.zeros 27.

Definition fresh : Navigation := Navigation_new F64.zero.

Definition loaded : Navigation := load_nav (Load Example.one_tile fresh).

(** walker 7 at the origin, which is also where its path ends *)
Definition with_walker : Navigation :=
  snd (AddWalker loaded 7 Example.origin (F32.of_Z 1)).

End Highland.

(** ** A third engine, with polygon flags

    A polygon is a tile and its flag word is the first byte of the tile
    data.  The random point sampler honours the filter: it returns the
    first polygon that passes it, and fails when none does. *)

Module Flagged.

Definition poly_flags (mesh : list (N * list byte)) (ref : N) : N :=
  match List.filter (fun t => N.eqb (fst t) ref) mesh with
  | (_, b :: _) :: _ => Byte.to_N b
  | _ => 0
  end.

(** The point lies on the polygon [ref] of the mesh (every polygon of this
    engine covers the ground). *)
Definition on_polygon (mesh : list (N * list byte)) (ref : N) (p : float3)
  : Prop :=
  In ref (map fst mesh).

(** The polygons that pass the filter, in mesh order. *)
Definition passing (mesh : list (N * list byte)) (f : dtQueryFilter)
  : list N :=
  List.filter (fun ref => passFilter f (poly_flags mesh ref)) (map fst mesh).

#[export] Instance mesh : MeshEngine := {|
  dtNavMesh := list (N * list byte);
  dtNavMeshQuery := list (N * list byte);
  RandState := nat;
  sizeof_dtNavMeshParams := 28;
  sizeof_dtTileRef := 8;
  DT_SUCCESS := 2 ^ 30;
  dtStatusFailed s := N.testbit s 31;
  DT_TILE_FREE_DATA := 1;
  SAMPLE_POLYFLAGS_ALL := 65535;
  SAMPLE_POLYFLAGS_DISABLED := 16;
  DT_CROWD_ANTICIPATE_TURNS := 1;
  DT_CROWD_OBSTACLE_AVOIDANCE := 2;
  DT_CROWD_SEPARATION := 4;
  DT_CROWD_OPTIMIZE_VIS := 8;
  DT_CROWD_OPTIMIZE_TOPO := 16;
  OARest := unit;
  dtQueryFilter_new := {| includeFlags := 65535; excludeFlags := 0 |};
  dtAlloc size := negb (Z.testbit size 63);
  navmesh_init _ := ((2 ^ 30)%N, []);
  addTile m data _ _ ref := m ++ [(ref, data)];
  navquery_init m _ := m;
  findNearestPoly q center _ _ _ := (Example.nearest q, center);
  findPath _ startRef _ _ _ _ _ := (fun _ => startRef, 1);
  closestPointOnPoly _ _ pos _ := pos;
  findStraightPath q spos epos polys _ _ _ :=
    (Example.two_points spos epos, 2);
  findRandomPoint q f n ref pt :=
    match passing q f with
    | r :: _ => ((2 ^ 30)%N, r, (F32.zero, F32.zero, F32.zero), S n)
    | [] => (Example.DT_FAILURE, ref, pt, S n)
    end;
|}.

Definition tiers : dtObstacleAvoidanceParams OARest :=
  {| velBias := F32.zero; adaptiveDivs := 0; adaptiveRings := 0;
     adaptiveDepth := 0; oa_rest := tt |}.

#[export] Instance crowd : CrowdEngine :=
  pool_engine Example.stand_still Example.keep_course tiers Example.extents.

#[export] Instance libm : Libm := Example.libm.
#[export] Instance indeterminate : Indeterminate := Example.indeterminate.

(** one polygon with the flag word 1 (walkable) *)
Definition walk_tile : list byte :=
  Example.header Byte.x01 ++ Example.record Byte.x01 Byte.x01 [Byte.x01].

(** one polygon with the flag word 16 (disabled) and no other flag *)
Definition disabled_tile : list byte :=
  Example.header Byte.x01 ++ Example.record Byte.x01 Byte.x01 [Byte.x10].

Definition fresh : Navigation := Navigation_new F64.zero.
Definition loaded_walk : Navigation := load_nav (Load walk_tile fresh).
Definition loaded_disabled : Navigation :=
  load_nav (Load disabled_tile fresh).

(** a caller's filter that asks for disabled polygons *)
Definition only_disabled : dtQueryFilter :=
  {| includeFlags := 16; excludeFlags := 0 |}.

End Flagged.



(** * Properties *)

(** Membership in a log built with [++]. *)
Ltac in_log := rewrite ?elem_of_app, ?elem_of_cons; auto 10.

Section Facts.
Context {ME : MeshEngine} {CE : CrowdEngine} {LM : Libm} {IM : Indeterminate}.

(** ** Reading the buffer *)

Lemma byte_at_take (content : list byte) (n i : nat) :
  (i < n)%nat -> byte_at (take n content) i = byte_at content i.
Proof.
  intros Hi. unfold byte_at. now rewrite lookup_take_lt.
Qed.

Lemma memcpy_take (content : list byte) (n : nat) (pos len : Z) :
  0 <= pos -> 0 <= len -> pos + len <= Z.of_nat n ->
  memcpy (take n content) pos len = memcpy content pos len.
Proof.
  intros Hpos Hlen Hn. unfold memcpy.
  apply map_ext_in. intros i Hi. apply in_seq in Hi.
  apply byte_at_take. lia.
Qed.

Lemma read_header_take (content : list byte) (n : nat) :
  0 <= sizeof_dtNavMeshParams ->
  sizeof_NavMeshSetHeader <= Z.of_nat n ->
  read_NavMeshSetHeader (take n content) 0 = read_NavMeshSetHeader content 0.
Proof.
  intros Hp Hn. unfold read_NavMeshSetHeader.
  rewrite memcpy_take; [reflexivity | lia | unfold sizeof_NavMeshSetHeader; lia | lia].
Qed.

Lemma read_tile_header_take (content : list byte) (n : nat) (pos : Z) :
  0 <= sizeof_dtTileRef -> 0 <= pos ->
  pos + sizeof_NavMeshTileHeader <= Z.of_nat n ->
  read_NavMeshTileHeader (take n content) pos
  = read_NavMeshTileHeader content pos.
Proof.
  intros Hw Hpos Hn. unfold read_NavMeshTileHeader.
  rewrite memcpy_take; [reflexivity | lia | unfold sizeof_NavMeshTileHeader; lia | lia].
Qed.

Lemma memcpy_log_inside (content : list byte) (pos len : Z) :
  pos + len <= Z.of_nat (length content) -> memcpy_log content pos len = [].
Proof.
  intros H. unfold memcpy_log, reads_outside.
  destruct (0 <? len); simpl; [|reflexivity].
  destruct (Z.ltb_spec (Z.of_nat (length content)) (pos + len)); [lia | reflexivity].
Qed.

Lemma memcpy_log_outside (content : list byte) (pos len : Z) :
  0 < len -> Z.of_nat (length content) < pos + len ->
  memcpy_log content pos len = [out_of_range pos len].
Proof.
  intros Hl H. unfold memcpy_log, reads_outside.
  destruct (Z.ltb_spec 0 len); [|lia].
  destruct (Z.ltb_spec (Z.of_nat (length content)) (pos + len)); [reflexivity | lia].
Qed.

Lemma to_int_range (u : Z) : - 2 ^ 31 <= to_int u < 2 ^ 31.
Proof.
  unfold to_int.
  pose proof (Z.mod_pos_bound u (2 ^ 32) ltac:(lia)) as Hm.
  destruct (Z.ltb_spec (u mod 2 ^ 32) (2 ^ 31)); lia.
Qed.

Lemma to_size_t_id (i : Z) : 0 <= i < 2 ^ 64 -> to_size_t i = i.
Proof. intros H. unfold to_size_t. now apply Z.mod_small. Qed.

Lemma dataSize_range (content : list byte) (pos : Z) :
  - 2 ^ 31 <= dataSize (read_NavMeshTileHeader content pos) < 2 ^ 31.
Proof. unfold read_NavMeshTileHeader; simpl. apply to_int_range. Qed.

(** ** The tile loop *)

Section Loader.
Hypothesis sizeof_params_nonneg : 0 <= sizeof_dtNavMeshParams.
(** [dtTileRef] is a 32-bit or a 64-bit handle. *)
Hypothesis sizeof_tileref_small : 0 <= sizeof_dtTileRef <= 8.
Hypothesis alloc_succeeds : forall size, 0 < size < 2 ^ 31 -> dtAlloc size = true.

Lemma read_tiles_S (content : list byte) (n : nat) (pos : Z)
    (mesh : dtNavMesh) (log : list Event) :
  read_tiles content (S n) pos mesh log =
  let tileHeader := read_NavMeshTileHeader content pos in
  let log := log ++ memcpy_log content pos sizeof_NavMeshTileHeader in
  let pos := to_size_t (pos + sizeof_NavMeshTileHeader) in
  if Z.of_nat (length content) <=? pos then
    (None, log ++ [dtFreeNavMesh (Some mesh)])
  else if (tileRef tileHeader =? 0)%N || (dataSize tileHeader =? 0) then
    (Some mesh, log)
  else
    let size := to_size_t (dataSize tileHeader) in
    if negb (dtAlloc size) then (Some mesh, log)
    else
      let data := memcpy content pos size in
      let log := log ++ memcpy_log content pos size in
      let pos := to_size_t (pos + size) in
      if Z.of_nat (length content) <? pos then
        (None, log ++ [dtFree data; dtFreeNavMesh (Some mesh)])
      else
        read_tiles content n pos
          (addTile mesh data (dataSize tileHeader) DT_TILE_FREE_DATA
             (tileRef tileHeader))
          log.
Proof. reflexivity. Qed.

(** What [tile_ok] says, unpacked. *)
Lemma tile_ok_inv (content : list byte) (pos : Z) :
  tile_ok content pos = true ->
  let h := read_NavMeshTileHeader content pos in
  0 <= pos /\ tileRef h <> 0%N /\ 0 < dataSize h < 2 ^ 31
  /\ pos + sizeof_NavMeshTileHeader + dataSize h <= Z.of_nat (length content).
Proof.
  unfold tile_ok. intros H.
  repeat (apply andb_prop in H; destruct H as [H ?]).
  pose proof (dataSize_range content pos).
  repeat split; try lia.
  - intros E. rewrite E in *. discriminate.
Qed.

(** A whole tile is consumed by one iteration, without a read outside. *)
Lemma read_tiles_whole_tile (content : list byte) (n : nat) (pos : Z)
    (mesh : dtNavMesh) (log : list Event) :
  Z.of_nat (length content) < 2 ^ 63 ->
  tile_ok content pos = true ->
  read_tiles content (S n) pos mesh log =
  read_tiles content n
    (pos + sizeof_NavMeshTileHeader
     + dataSize (read_NavMeshTileHeader content pos))
    (add_tiles content 1 pos mesh) log.
Proof.
  intros Hlen Hok. apply tile_ok_inv in Hok. cbv zeta in Hok.
  destruct Hok as (Hpos & Href & Hsz & Hin).
  assert (Hth : 0 <= sizeof_NavMeshTileHeader)
    by (unfold sizeof_NavMeshTileHeader; lia).
  rewrite read_tiles_S. cbv zeta.
  rewrite (to_size_t_id (pos + _)) by lia.
  rewrite (to_size_t_id (dataSize _)) by lia.
  rewrite to_size_t_id by lia.
  rewrite !memcpy_log_inside by lia. rewrite !app_nil_r.
  destruct (Z.leb_spec (Z.of_nat (length content))
              (pos + sizeof_NavMeshTileHeader)); [lia|].
  destruct (N.eqb_spec (tileRef (read_NavMeshTileHeader content pos)) 0);
    [contradiction|].
  destruct (Z.eqb_spec (dataSize (read_NavMeshTileHeader content pos)) 0);
    [lia|]. simpl orb. cbv iota.
  rewrite alloc_succeeds by lia. simpl negb. cbv iota.
  destruct (Z.ltb_spec (Z.of_nat (length content))
              (pos + sizeof_NavMeshTileHeader
               + dataSize (read_NavMeshTileHeader content pos))); [lia|].
  reflexivity.
Qed.

Lemma declared_end_bounds (content : list byte) (k : nat) (pos e : Z) :
  0 <= pos <= Z.of_nat (length content) ->
  declared_end content k pos = Some e ->
  pos <= e <= Z.of_nat (length content).
Proof.
  revert pos. induction k as [|k IH]; intros pos Hpos; cbn [declared_end].
  - intros [= <-]. lia.
  - destruct (tile_ok content pos) eqn:Hok; [|discriminate].
    intros He. apply tile_ok_inv in Hok. cbv zeta in Hok.
    destruct Hok as (Hp & _ & Hsz & Hin).
    apply IH in He; unfold sizeof_NavMeshTileHeader in *; lia.
Qed.

(** [j] whole tiles are consumed and added; the loop goes on behind them. *)
Lemma read_tiles_whole (content : list byte) (j n : nat) (pos p : Z)
    (mesh : dtNavMesh) (log : list Event) :
  Z.of_nat (length content) < 2 ^ 63 ->
  declared_end content j pos = Some p ->
  read_tiles content (j + n) pos mesh log
  = read_tiles content n p (add_tiles content j pos mesh) log.
Proof.
  intros Hlen. revert pos mesh.
  induction j as [|j IH]; intros pos mesh; cbn [declared_end Nat.add].
  - now intros [= <-].
  - destruct (tile_ok content pos) eqn:Hok; [|discriminate].
    intros He. rewrite read_tiles_whole_tile by assumption.
    now rewrite (IH _ _ He).
Qed.

(** ** Load behind an accepted header *)

Lemma header_ok_inv (content : list byte) :
  header_ok content = true ->
  sizeof_NavMeshSetHeader <= Z.of_nat (length content)
  /\ magic (read_NavMeshSetHeader content 0) = NAVMESHSET_MAGIC
  /\ version (read_NavMeshSetHeader content 0) = NAVMESHSET_VERSION.
Proof.
  unfold header_ok. intros H.
  repeat (apply andb_prop in H; destruct H as [H ?]).
  repeat split; lia.
Qed.

Lemma Load_accepted (content : list byte) (nav : Navigation) :
  Z.of_nat (length content) < 2 ^ 63 ->
  header_ok content = true -> init_ok content = true ->
  Load content nav =
  match read_tiles content (Z.to_nat (declared_tiles content))
          sizeof_NavMeshSetHeader (fresh_mesh content) [] with
  | (None, log) => {| load_ok := false; load_nav := nav; load_log := log |}
  | (Some mesh, log) =>
      {| load_ok := true;
         load_nav := Load_exchange content mesh nav;
         load_log :=
           log ++ [dtFreeNavMesh (_navMesh nav);
                   dtFreeNavMeshQuery (_navQuery nav)] |}
  end.
Proof.
  intros Hlen Hh Hi. apply header_ok_inv in Hh. destruct Hh as (Hin & Hm & Hv).
  unfold init_ok, fresh_mesh, declared_tiles in *. unfold Load.
  rewrite Hm, Hv, !Z.eqb_refl. simpl orb. cbv iota.
  destruct (navmesh_init (params (read_NavMeshSetHeader content 0)))
    as [status mesh]. simpl in Hi |- *.
  apply negb_true_iff in Hi. rewrite Hi.
  rewrite memcpy_log_inside by lia.
  assert (0 <= sizeof_NavMeshSetHeader) by (unfold sizeof_NavMeshSetHeader; lia).
  rewrite to_size_t_id by lia. reflexivity.
Qed.

(** ** The log only grows *)

Lemma read_tiles_log (content : list byte) (n : nat) (pos : Z)
    (mesh : dtNavMesh) (log : list Event) :
  exists l, snd (read_tiles content n pos mesh log) = log ++ l.
Proof.
  revert pos mesh log. induction n as [|n IH]; intros pos mesh log.
  - exists []. simpl. now rewrite app_nil_r.
  - rewrite read_tiles_S. cbv zeta.
    repeat match goal with
           | |- context [if ?b then _ else _] => destruct b
           end; simpl snd;
      try (eexists; rewrite <- ?app_assoc; reflexivity).
    match goal with
    | |- context [read_tiles content n ?p ?m ?l] =>
        destruct (IH p m l) as [l' Hl]
    end.
    rewrite Hl. eexists. rewrite <- !app_assoc. reflexivity.
Qed.

Lemma Load_log_header (content : list byte) (nav : Navigation) :
  exists l,
    load_log (Load content nav)
    = memcpy_log content 0 sizeof_NavMeshSetHeader ++ l.
Proof.
  unfold Load.
  destruct (negb _ || negb _).
  { exists []. simpl. now rewrite app_nil_r. }
  destruct (navmesh_init _) as [status mesh].
  destruct (dtStatusFailed status).
  { exists []. simpl. now rewrite app_nil_r. }
  destruct (read_tiles_log content
              (Z.to_nat (numTiles (read_NavMeshSetHeader content 0)))
              (to_size_t (0 + sizeof_NavMeshSetHeader)) mesh
              (memcpy_log content 0 sizeof_NavMeshSetHeader)) as [l Hl].
  destruct (read_tiles _ _ _ _ _) as [[m|] log]; simpl in Hl |- *; subst log.
  - eexists. rewrite <- app_assoc. reflexivity.
  - eexists. reflexivity.
Qed.

(** C8. [Load] copies the file header from offset 0, and each tile header
    from the running offset, before it compares the offset with
    [content.size()].  So for every buffer shorter than the file header,
    and for every buffer that ends inside (or right before) the header of a
    declared tile record, [Load] reads positions past the end of the
    buffer: its log holds an [out_of_range] read that ends behind
    [content]. *)
Theorem Load_reads_past_the_end (content : list byte) (nav : Navigation)
    (j : nat) :
  Z.of_nat (length content) < 2 ^ 63 ->
  shorter_than_header content = true
  \/ ends_inside_tile_header content j = true ->
  exists pos len,
    out_of_range pos len ∈ load_log (Load content nav)
    /\ 0 <= pos /\ Z.of_nat (length content) < pos + len.
Proof.
  intros Hlen [Hshort | Hends].
  - unfold shorter_than_header in Hshort. apply Z.ltb_lt in Hshort.
    destruct (Load_log_header content nav) as [l Hl].
    exists 0, sizeof_NavMeshSetHeader. split; [|lia].
    rewrite Hl, memcpy_log_outside; [in_log| |lia].
    unfold sizeof_NavMeshSetHeader. lia.
  - unfold ends_inside_tile_header in Hends.
    apply andb_prop in Hends. destruct Hends as [Hends Hcut].
    apply andb_prop in Hends. destruct Hends as [Hends Hj].
    apply andb_prop in Hends. destruct Hends as [Hhdr Hinit].
    destruct (declared_end content j sizeof_NavMeshSetHeader) as [p|] eqn:Hp;
      [|discriminate].
    apply andb_prop in Hcut. destruct Hcut as [Hlo Hhi].
    apply Z.leb_le in Hlo. apply Z.ltb_lt in Hhi. apply Z.ltb_lt in Hj.
    pose proof (header_ok_inv _ Hhdr) as (Hin & _ & _).
    assert (0 <= sizeof_NavMeshSetHeader)
      by (unfold sizeof_NavMeshSetHeader; lia).
    assert (Hb : sizeof_NavMeshSetHeader <= p <= Z.of_nat (length content))
      by (apply (declared_end_bounds content j); [lia | exact Hp]).
    exists p, sizeof_NavMeshTileHeader. split; [|lia].
    rewrite Load_accepted by assumption.
    replace (Z.to_nat (declared_tiles content))
      with (j + S (Z.to_nat (declared_tiles content) - S j))%nat by lia.
    rewrite (read_tiles_whole _ _ _ _ _ _ _ Hlen Hp).
    rewrite read_tiles_S. cbv zeta.
    rewrite to_size_t_id by (unfold sizeof_NavMeshTileHeader in *; lia).
    destruct (Z.leb_spec (Z.of_nat (length content))
                (p + sizeof_NavMeshTileHeader)); [|lia].
    simpl. rewrite memcpy_log_outside;
      [in_log | unfold sizeof_NavMeshTileHeader; lia | lia].
Qed.

(** ** A terminator record *)

Lemma zero_record_inv (content : list byte) (pos : Z) :
  zero_record content pos = true ->
  let h := read_NavMeshTileHeader content pos in
  0 <= pos
  /\ ((tileRef h =? 0)%N || (dataSize h =? 0)) = true
  /\ pos + sizeof_NavMeshTileHeader <= Z.of_nat (length content).
Proof.
  unfold zero_record. intros H.
  apply andb_prop in H. destruct H as [H Hin].
  apply andb_prop in H. destruct H as [Hpos Hz].
  repeat split; [lia | exact Hz | lia].
Qed.

(** C2. A buffer with an accepted header, [j] whole tiles (fewer than the
    header declares) and then a record with [tileRef == 0 || dataSize == 0]
    whose header is the last bytes of the buffer: [Load] returns [false]
    and leaves the object as it was.  The comparison
    [pos >= content.size()] behind the header copy rejects the buffer
    before the terminator is looked at. *)
Theorem Load_zero_record_last (content : list byte) (nav : Navigation)
    (j : nat) (p : Z) :
  Z.of_nat (length content) < 2 ^ 63 ->
  header_ok content = true -> init_ok content = true ->
  Z.of_nat j < declared_tiles content ->
  declared_end content j sizeof_NavMeshSetHeader = Some p ->
  zero_record content p = true ->
  Z.of_nat (length content) = p + sizeof_NavMeshTileHeader ->
  load_ok (Load content nav) = false /\ load_nav (Load content nav) = nav.
Proof.
  intros Hlen Hhdr Hinit Hj Hp Hz Hlast.
  apply zero_record_inv in Hz. cbv zeta in Hz. destruct Hz as (Hpos & _ & _).
  rewrite Load_accepted by (assumption || lia).
  replace (Z.to_nat (declared_tiles content))
    with (j + S (Z.to_nat (declared_tiles content) - S j))%nat by lia.
  rewrite (read_tiles_whole _ _ _ _ _ _ _ Hlen Hp).
  rewrite read_tiles_S. cbv zeta.
  rewrite to_size_t_id by lia.
  destruct (Z.leb_spec (Z.of_nat (length content))
              (p + sizeof_NavMeshTileHeader)); [|lia].
  split; reflexivity.
Qed.

(** The same terminator with at least one byte behind it ends the loop and
    [Load] succeeds with the [j] tiles read so far. *)
Lemma Load_zero_record_inside (content : list byte) (nav : Navigation)
    (j : nat) (p : Z) :
  Z.of_nat (length content) < 2 ^ 63 ->
  header_ok content = true -> init_ok content = true ->
  Z.of_nat j < declared_tiles content ->
  declared_end content j sizeof_NavMeshSetHeader = Some p ->
  zero_record content p = true ->
  p + sizeof_NavMeshTileHeader < Z.of_nat (length content) ->
  Load content nav =
  {| load_ok := true;
     load_nav :=
       Load_exchange content
         (add_tiles content j sizeof_NavMeshSetHeader (fresh_mesh content)) nav;
     load_log := [dtFreeNavMesh (_navMesh nav);
                  dtFreeNavMeshQuery (_navQuery nav)] |}.
Proof.
  intros Hlen Hhdr Hinit Hj Hp Hz Hin.
  apply zero_record_inv in Hz. cbv zeta in Hz. destruct Hz as (Hpos & Hz & _).
  assert (Hth : 4 <= sizeof_NavMeshTileHeader <= 12)
    by (unfold sizeof_NavMeshTileHeader; lia).
  rewrite Load_accepted by (assumption || lia).
  replace (Z.to_nat (declared_tiles content))
    with (j + S (Z.to_nat (declared_tiles content) - S j))%nat by lia.
  rewrite (read_tiles_whole _ _ _ _ _ _ _ Hlen Hp).
  rewrite read_tiles_S. cbv zeta.
  rewrite to_size_t_id by lia.
  destruct (Z.leb_spec (Z.of_nat (length content))
              (p + sizeof_NavMeshTileHeader)); [lia|].
  rewrite Hz. rewrite memcpy_log_inside by lia. reflexivity.
Qed.

(** ** Truncated buffers *)

Lemma releases_app (l1 l2 : list Event) :
  releases (l1 ++ l2) = releases l1 ++ releases l2.
Proof. apply List.filter_app. Qed.

Lemma releases_memcpy_log (content : list byte) (pos len : Z) :
  releases (memcpy_log content pos len) = [].
Proof. unfold memcpy_log. now destruct (reads_outside content pos len). Qed.

Lemma read_tiles_truncated (content : list byte) (n k : nat) (pos e : Z)
    (mesh : dtNavMesh) (log : list Event) :
  Z.of_nat (length content) < 2 ^ 63 ->
  declared_end content k pos = Some e ->
  0 <= pos <= Z.of_nat n -> Z.of_nat n < e ->
  exists (j : nat) (p : Z) (l : list Event),
    (j < k)%nat
    /\ declared_end content j pos = Some p
    /\ p <= Z.of_nat n
       < p + sizeof_NavMeshTileHeader
         + dataSize (read_NavMeshTileHeader content p)
    /\ releases l = []
    /\ read_tiles (take n content) k pos mesh log
       = (None,
          log ++ l ++ [dtFreeNavMesh (Some (add_tiles content j pos mesh))])
    /\ (Z.of_nat n = p + sizeof_NavMeshTileHeader -> l = [])
    /\ (Z.of_nat n <> p + sizeof_NavMeshTileHeader ->
        exists pos' len,
          out_of_range pos' len ∈ l
          /\ 0 <= pos' /\ Z.of_nat n < pos' + len).
Proof.
  intros Hlen. revert pos mesh log.
  induction k as [|k IH]; intros pos mesh log; cbn [declared_end].
  - intros [= <-]. lia.
  - destruct (tile_ok content pos) eqn:Hok; [|discriminate].
    intros He Hpos Hn.
    pose proof (tile_ok_inv _ _ Hok) as Hinv. cbv zeta in Hinv.
    destruct Hinv as (_ & Href & Hsz & Hin).
    assert (Hth : 4 <= sizeof_NavMeshTileHeader <= 12)
      by (unfold sizeof_NavMeshTileHeader; lia).
    assert (Hb : pos + sizeof_NavMeshTileHeader
                 + dataSize (read_NavMeshTileHeader content pos)
                 <= e <= Z.of_nat (length content))
      by (apply (declared_end_bounds content k); [lia | exact He]).
    assert (Hcut : length (take n content) = n)
      by (rewrite length_take; lia).
    rewrite read_tiles_S. cbv zeta. rewrite Hcut.
    rewrite (to_size_t_id (pos + _)) by lia.
    destruct (Z.leb_spec (Z.of_nat n) (pos + sizeof_NavMeshTileHeader))
      as [Hshort | Hlong].
    { (* the buffer ends inside, or right behind, the tile header *)
      exists O, pos,
        (memcpy_log (take n content) pos sizeof_NavMeshTileHeader).
      split; [lia|]. split; [reflexivity|]. split; [lia|].
      split; [apply releases_memcpy_log|].
      split; [now rewrite <- app_assoc|]. split.
      - intros Heq. apply memcpy_log_inside. rewrite Hcut. lia.
      - intros Hne. exists pos, sizeof_NavMeshTileHeader.
        rewrite memcpy_log_outside by (rewrite ?Hcut; lia).
        split; [in_log | lia]. }
    rewrite read_tile_header_take by lia.
    rewrite (memcpy_log_inside _ pos sizeof_NavMeshTileHeader)
      by (rewrite Hcut; lia).
    rewrite app_nil_r.
    destruct (N.eqb_spec (tileRef (read_NavMeshTileHeader content pos)) 0);
      [contradiction|].
    destruct (Z.eqb_spec (dataSize (read_NavMeshTileHeader content pos)) 0);
      [lia|]. simpl orb. cbv iota.
    rewrite (to_size_t_id (dataSize _)) by lia.
    rewrite alloc_succeeds by lia. simpl negb. cbv iota.
    rewrite to_size_t_id by lia.
    destruct (Z.ltb_spec (Z.of_nat n)
                (pos + sizeof_NavMeshTileHeader
                 + dataSize (read_NavMeshTileHeader content pos)))
      as [Hdata | Hwhole].
    { (* the buffer ends inside the tile data *)
      exists O, pos,
        (memcpy_log (take n content) (pos + sizeof_NavMeshTileHeader)
           (dataSize (read_NavMeshTileHeader content pos))
         ++ [dtFree
               (memcpy (take n content) (pos + sizeof_NavMeshTileHeader)
                  (dataSize (read_NavMeshTileHeader content pos)))]).
      split; [lia|]. split; [reflexivity|]. split; [lia|]. split.
      { rewrite releases_app, releases_memcpy_log. reflexivity. }
      split; [rewrite <- !app_assoc; reflexivity|]. split; [lia|].
      intros _. exists (pos + sizeof_NavMeshTileHeader),
        (dataSize (read_NavMeshTileHeader content pos)).
      rewrite memcpy_log_outside by (rewrite ?Hcut; lia).
      split; [in_log | lia]. }
    (* the tile is whole: the loop goes on *)
    rewrite memcpy_take by lia.
    rewrite memcpy_log_inside by (rewrite Hcut; lia). rewrite app_nil_r.
    destruct (IH _ (addTile mesh
                      (memcpy content (pos + sizeof_NavMeshTileHeader)
                         (dataSize (read_NavMeshTileHeader content pos)))
                      (dataSize (read_NavMeshTileHeader content pos))
                      DT_TILE_FREE_DATA
                      (tileRef (read_NavMeshTileHeader content pos)))
                log He ltac:(lia) Hn)
      as (j & p & l & Hj & Hp & Hin' & Hl & Hrun & Hclean & Hover).
    exists (S j), p, l. split; [lia|].
    split; [cbn [declared_end]; now rewrite Hok|].
    split; [exact Hin'|]. split; [exact Hl|]. split; [exact Hrun|].
    split; assumption.
Qed.


(** C3 (what the code does).  [Load] compares the offset with
    [content.size()] only after each copy, and never for the file header.
    Take a buffer with an accepted header that declares [k] tiles, all
    whole, on an engine whose [init] accepts the parameters and whose
    [dtAlloc] hands out every tile buffer, and cut it at any offset [n]
    before the declared end of the last tile.

    A cut inside the file header: the copy of the header reads past the
    end of the buffer.  Which result follows is decided by the bytes
    behind the buffer; [Load] can return [true] and replace the surface.

    A cut at or behind the end of the file header, with [j] whole tiles
    before it and the next record at [p]: in the run the model follows
    [Load] returns [false], hands the mesh with these [j] tiles to
    [dtFreeNavMesh], releases nothing else and leaves the object as it
    was, so every path query answers as before.  But only a cut right
    behind the header of that record ([n = p + sizeof(tileHeader)]) is
    rejected without a read outside the buffer; at every other offset the
    tile header or the tile data is copied from behind the end of the
    buffer before the test that rejects it. *)
Theorem Load_truncated (content : list byte) (nav : Navigation)
    (k n : nat) (e : Z) :
  Z.of_nat (length content) < 2 ^ 63 ->
  header_ok content = true -> init_ok content = true ->
  declared_tiles content = Z.of_nat k ->
  declared_end content k sizeof_NavMeshSetHeader = Some e ->
  Z.of_nat n < e ->
  let r := Load (take n content) nav in
  (Z.of_nat n < sizeof_NavMeshSetHeader ->
   out_of_range 0 sizeof_NavMeshSetHeader ∈ load_log r)
  /\ (sizeof_NavMeshSetHeader <= Z.of_nat n ->
      load_ok r = false
      /\ load_nav r = nav
      /\ (forall from to filter path,
            GetPath (load_nav r) from to filter path
            = GetPath nav from to filter path)
      /\ exists (j : nat) (p : Z),
           (j < k)%nat
           /\ declared_end content j sizeof_NavMeshSetHeader = Some p
           /\ p <= Z.of_nat n
              < p + sizeof_NavMeshTileHeader
                + dataSize (read_NavMeshTileHeader content p)
           /\ releases (load_log r)
              = [dtFreeNavMesh
                   (Some (add_tiles content j sizeof_NavMeshSetHeader
                            (fresh_mesh content)))]
           /\ (Z.of_nat n = p + sizeof_NavMeshTileHeader ->
               over_reads (load_log r) = [])
           /\ (Z.of_nat n <> p + sizeof_NavMeshTileHeader ->
               exists pos len,
                 out_of_range pos len ∈ load_log r
                 /\ 0 <= pos /\ Z.of_nat n < pos + len)).
Proof.
  intros Hlen Hhdr Hinit Hk He Hn r.
  pose proof (header_ok_inv _ Hhdr) as (Hin & Hm & Hv).
  assert (Hh : 12 <= sizeof_NavMeshSetHeader)
    by (unfold sizeof_NavMeshSetHeader; lia).
  assert (Hb : sizeof_NavMeshSetHeader <= e <= Z.of_nat (length content))
    by (apply (declared_end_bounds content k); [lia | exact He]).
  assert (Hcut : length (take n content) = n) by (rewrite length_take; lia).
  split.
  { (* inside the file header *)
    intros Hshort. unfold r.
    destruct (Load_log_header (take n content) nav) as [l Hl].
    rewrite Hl, memcpy_log_outside by (rewrite ?Hcut; lia). in_log. }
  intros Hlong.
  assert (Hread : read_NavMeshSetHeader (take n content) 0
                  = read_NavMeshSetHeader content 0)
    by (apply read_header_take; lia).
  assert (Hhdr' : header_ok (take n content) = true).
  { unfold header_ok. rewrite Hread, Hcut, Hm, Hv, !Z.eqb_refl.
    destruct (Z.leb_spec sizeof_NavMeshSetHeader (Z.of_nat n)); [reflexivity | lia]. }
  assert (Hinit' : init_ok (take n content) = true)
    by (unfold init_ok in *; now rewrite Hread).
  destruct (read_tiles_truncated content n k sizeof_NavMeshSetHeader e
              (fresh_mesh content) [] Hlen He ltac:(lia) ltac:(lia))
    as (j & p & l & Hj & Hp & Hin' & Hl & Hrun & Hclean & Hover).
  assert (Hr : r = {| load_ok := false; load_nav := nav;
                      load_log := l ++ [dtFreeNavMesh
                                          (Some (add_tiles content j
                                                   sizeof_NavMeshSetHeader
                                                   (fresh_mesh content)))] |}).
  { unfold r. rewrite Load_accepted by (assumption || rewrite Hcut; lia).
    unfold declared_tiles, fresh_mesh in *. rewrite Hread, Hk, Nat2Z.id.
    rewrite Hrun. reflexivity. }
  rewrite Hr. cbn [load_ok load_nav load_log].
  split; [reflexivity|]. split; [reflexivity|]. split; [reflexivity|].
  exists j, p. split; [exact Hj|]. split; [exact Hp|]. split; [exact Hin'|].
  split; [rewrite releases_app, Hl; reflexivity|]. split.
  - intros Heq. rewrite (Hclean Heq). reflexivity.
  - intros Hne. destruct (Hover Hne) as (pos' & len & Hmem & Hpos' & Hlen').
    exists pos', len. split; [in_log | lia].
Qed.

End Loader.


(** ** Coordinates and the path query *)

Lemma to_host_to_engine (l : geom.Location) : to_host (to_engine l) = l.
Proof. now destruct l. Qed.

Lemma to_engine_to_host (p : float3) : to_engine (to_host p) = p.
Proof. now destruct p as [[a b] c]. Qed.

Lemma copy_path_waypoints (buf : Z -> float) (steps k0 : nat)
    (acc : list geom.Location) :
  copy_path buf steps (3 * Z.of_nat k0) acc
  = acc ++ map (fun k => to_host (straight_point buf k)) (seq k0 steps).
Proof.
  revert k0 acc. induction steps as [|steps IH]; intros k0 acc.
  - simpl. now rewrite app_nil_r.
  - cbn [copy_path seq map].
    replace (3 * Z.of_nat k0 + 3) with (3 * Z.of_nat (S k0)) by lia.
    rewrite IH, <- app_assoc. reflexivity.
Qed.

(** The source's [GetPath], once a mesh is loaded, both nearest polygons
    are found and the corridor is not empty, is the spec's pipeline. *)
Lemma GetPath_found (nav : Navigation) (query : dtNavMeshQuery)
    (from to : geom.Location) (filter : option dtQueryFilter)
    (path : list geom.Location) :
  _binaryMesh nav <> [] ->
  _navQuery nav = Some query ->
  let f := effective_filter filter in
  nearest_ref query f (to_engine from) <> 0%N ->
  nearest_ref query f (to_engine to) <> 0%N ->
  snd (corridor query f (to_engine from) (to_engine to)) <> 0 ->
  GetPath nav from to filter path
  = Done (true,
          map to_host
            (straight_points
               (straight_path query f (to_engine from) (to_engine to)))).
Proof.
  intros Hmesh Hq f Hs He Hn.
  unfold GetPath. destruct (_binaryMesh nav) as [|b bs]; [contradiction|].
  cbn [length Nat.eqb]. rewrite Hq. cbn [deref mbind run_bind].
  unfold nearest_ref, to_engine, pick_extent, effective_filter in *.
  fold f in Hs, He |- *.
  destruct (N.eqb_spec (fst (findNearestPoly query
              (geom.x from, geom.z from, geom.y from)
              (F32.of_Z 2, F32.of_Z 4, F32.of_Z 2) f 0%N)) 0);
    [contradiction|].
  destruct (N.eqb_spec (fst (findNearestPoly query
              (geom.x to, geom.z to, geom.y to)
              (F32.of_Z 2, F32.of_Z 4, F32.of_Z 2) f 0%N)) 0);
    [contradiction|].
  cbn [orb].
  unfold straight_points, straight_path, clamped_end, corridor, nearest_ref,
    to_engine, pick_extent in *.
  destruct (findPath _ _ _ _ _ _ _) as [polys npolys]. cbn [snd] in Hn.
  destruct (Z.eqb_spec npolys 0); [contradiction|].
  destruct (N.eqb (polys (npolys - 1)) _); cbn [negb];
    destruct (findStraightPath _ _ _ _ _ _ _) as [buf cnt]; cbn [fst snd];
    rewrite map_map;
    exact (f_equal (fun p => Done (true, p))
             (copy_path_waypoints buf (Z.to_nat cnt) 0 [])).
Qed.

(** C1 (amended). With a mesh loaded, both nearest polygons found and a
    non-empty corridor, a straight path of zero waypoints makes [GetPath]
    return [true] with an empty [path]: the only failures are the missing
    mesh, a missing nearest polygon and the empty corridor. *)
Theorem GetPath_empty_straight_path (nav : Navigation)
    (query : dtNavMeshQuery) (from to : geom.Location)
    (filter : option dtQueryFilter) (path : list geom.Location) :
  _binaryMesh nav <> [] ->
  _navQuery nav = Some query ->
  let f := effective_filter filter in
  nearest_ref query f (to_engine from) <> 0%N ->
  nearest_ref query f (to_engine to) <> 0%N ->
  snd (corridor query f (to_engine from) (to_engine to)) <> 0 ->
  snd (straight_path query f (to_engine from) (to_engine to)) = 0 ->
  GetPath nav from to filter path = Done (true, []).
Proof.
  intros Hmesh Hq f Hs He Hn Hzero.
  rewrite (GetPath_found nav query) by assumption.
  fold f. unfold straight_points. rewrite Hzero. reflexivity.
Qed.

(** C4. The axis swap is its own inverse in both directions, and [GetPath]
    applies it once to each endpoint and once to each waypoint: the engine
    is queried at [to_engine from] and [to_engine to], and the returned
    path is [to_host] of each point of the engine's straight path, in
    order. *)
Theorem GetPath_axis_swap (nav : Navigation) (query : dtNavMeshQuery)
    (from to : geom.Location) (filter : option dtQueryFilter)
    (path : list geom.Location) :
  _binaryMesh nav <> [] ->
  _navQuery nav = Some query ->
  let f := effective_filter filter in
  nearest_ref query f (to_engine from) <> 0%N ->
  nearest_ref query f (to_engine to) <> 0%N ->
  snd (corridor query f (to_engine from) (to_engine to)) <> 0 ->
  (forall l : geom.Location, to_host (to_engine l) = l)
  /\ (forall p : float3, to_engine (to_host p) = p)
  /\ GetPath nav from to filter path
     = Done (true,
             map to_host
               (straight_points
                  (straight_path query f (to_engine from) (to_engine to)))).
Proof.
  intros Hmesh Hq f Hs He Hn.
  split; [exact to_host_to_engine|]. split; [exact to_engine_to_host|].
  now apply GetPath_found.
Qed.

(** ** Which calls touch the identity map *)

Lemma CreateCrowd_mappedId (nav : Navigation) :
  _mappedId (CreateCrowd nav) = _mappedId nav.
Proof. unfold CreateCrowd. now destruct (_crowd nav). Qed.

Lemma Load_mappedId (content : list byte) (nav : Navigation) :
  _mappedId (load_nav (Load content nav)) = _mappedId nav.
Proof.
  unfold Load.
  destruct (negb _ || negb _); [reflexivity|].
  destruct (navmesh_init _) as [status mesh].
  destruct (dtStatusFailed status); [reflexivity|].
  destruct (read_tiles _ _ _ _ _) as [[m|] log]; [|reflexivity].
  cbn [load_nav]. unfold Load_exchange. cbn [_mappedId].
  now rewrite CreateCrowd_mappedId.
Qed.

Lemma SetWalkerTargetIndex_mappedId (nav nav' : Navigation) (index : Z)
    (to : geom.Location) (ok : bool) :
  SetWalkerTargetIndex nav index to = Done (ok, nav') ->
  _mappedId nav' = _mappedId nav.
Proof.
  unfold SetWalkerTargetIndex.
  destruct (index =? -1); [now intros [= _ <-]|].
  destruct (_crowd nav) as [crowd|]; [|discriminate].
  destruct (_navQuery nav) as [query|]; [|discriminate].
  cbn [deref mbind run_bind].
  destruct (findNearestPoly _ _ _ _ _) as [targetRef nearest].
  destruct (targetRef =? 0)%N; [now intros [= _ <-]|].
  destruct (requestMoveTarget _ _ _ _) as [r crowd'].
  now intros [= _ <-].
Qed.

Lemma SetWalkerTarget_mappedId (nav nav' : Navigation) (id : ActorId)
    (to : geom.Location) (ok : bool) :
  SetWalkerTarget nav id to = Done (ok, nav') ->
  _mappedId nav' = _mappedId nav.
Proof.
  unfold SetWalkerTarget. destruct (_mappedId nav !! id) as [index|].
  - apply SetWalkerTargetIndex_mappedId.
  - now intros [= _ <-].
Qed.

Lemma arrival_scan_mappedId (fuel : nat) (i : Z) (nav nav' : Navigation)
    (rand rand' : RandState) :
  arrival_scan fuel i nav rand = Done (nav', rand') ->
  _mappedId nav' = _mappedId nav.
Proof.
  revert i nav rand. induction fuel as [|fuel IH]; intros i nav rand;
    [discriminate|].
  cbn [arrival_scan].
  destruct (_crowd nav) as [crowd|]; [|discriminate].
  cbn [deref mbind run_bind].
  destruct (i <? getAgentCount crowd); [|now intros [= <- _]].
  destruct (active (getAgent crowd i)); cbn [negb]; [|apply IH].
  destruct (_ <=? _)%f32; [|apply IH].
  destruct (GetRandomLocationWithoutLock _ _ _ _ _ _) as [[[b loc] r]| |];
    [|discriminate..].
  cbn [mbind run_bind].
  destruct (SetWalkerTargetIndex nav i loc) as [[b' nav1]| |] eqn:Hset;
    [|discriminate..].
  cbn [mbind run_bind]. intros Hscan.
  rewrite (IH _ _ _ Hscan). eapply SetWalkerTargetIndex_mappedId, Hset.
Qed.

Lemma UpdateCrowd_mappedId (fuel : nat) (nav nav' : Navigation)
    (delta : double) (rand rand' : RandState) :
  UpdateCrowd fuel nav delta rand = Done (nav', rand') ->
  _mappedId nav' = _mappedId nav.
Proof.
  unfold UpdateCrowd.
  destruct (_navMesh nav); [|now intros [= <- _]].
  destruct (_crowd nav); [|now intros [= <- _]].
  intros H. now rewrite (arrival_scan_mappedId _ _ _ _ _ _ H).
Qed.

Lemma GetWalkerTransform_mappedId (nav nav' : Navigation) (id : ActorId)
    (trans trans' : geom.Transform) (ok : bool) :
  GetWalkerTransform nav id trans = Done (ok, trans', nav') ->
  _mappedId nav' = _mappedId nav.
Proof.
  unfold GetWalkerTransform.
  destruct (_mappedId nav !! id) as [index|]; [|now intros [= _ _ <-]].
  destruct (index =? -1); [now intros [= _ _ <-]|].
  destruct (_crowd nav) as [crowd|]; [|discriminate].
  cbn [deref mbind run_bind].
  destruct (active (getAgent crowd index)); cbn [negb];
    now intros [= _ _ <-].
Qed.

Lemma AddWalker_mappedId (nav : Navigation) (id id' : ActorId)
    (from : geom.Location) (base_offset : float) :
  id' <> id ->
  _mappedId (snd (AddWalker nav id from base_offset)) !! id'
  = _mappedId nav !! id'.
Proof.
  intros Hne. unfold AddWalker. destruct (_crowd nav) as [crowd|];
    [|reflexivity].
  destruct (addAgent _ _ _) as [index crowd'].
  destruct (index =? -1); [reflexivity|].
  cbn [snd _mappedId]. now rewrite lookup_insert_ne.
Qed.

(** An identity that no [AddWalker] of a history names stays unmapped. *)
Lemma exec_unmapped (cs : list Call) (nav nav' : Navigation) (id : ActorId) :
  exec nav cs = Done nav' ->
  _mappedId nav !! id = None -> id ∉ added cs ->
  _mappedId nav' !! id = None.
Proof.
  revert nav. induction cs as [|c cs IH]; intros nav; cbn [exec added].
  - now intros [= <-].
  - destruct (step nav c) as [nav1| |] eqn:Hstep; [|discriminate..].
    cbn [mbind run_bind]. intros Hexec Hnone Hid.
    assert (Hfresh : _mappedId nav1 !! id = None /\ id ∉ added cs).
    { destruct c as [content | id0 from b | id0 to | fuel d r | id0 tr];
        cbn [step] in Hstep.
      - injection Hstep as <-. now rewrite Load_mappedId.
      - injection Hstep as <-.
        rewrite AddWalker_mappedId by set_solver. split; [done | set_solver].
      - destruct (SetWalkerTarget nav id0 to) as [[ok n]| |] eqn:E;
          [|discriminate..].
        injection Hstep as <-. cbn [snd].
        now rewrite (SetWalkerTarget_mappedId _ _ _ _ _ E).
      - destruct (UpdateCrowd fuel nav d r) as [[n r']| |] eqn:E;
          [|discriminate..].
        injection Hstep as <-. cbn [fst].
        now rewrite (UpdateCrowd_mappedId _ _ _ _ _ _ E).
      - destruct (GetWalkerTransform nav id0 tr) as [[[ok t] n]| |] eqn:E;
          [|discriminate..].
        injection Hstep as <-. cbn [snd].
        now rewrite (GetWalkerTransform_mappedId _ _ _ _ _ _ E). }
    destruct Hfresh. now apply (IH nav1).
Qed.

(** C6. After any history of calls on a new object, an identity that was
    never passed to [AddWalker] is unknown to [SetWalkerTarget],
    [GetWalkerTransform] and [GetWalkerSpeed]: the first two return
    [false], the third returns [false] converted to [float], and the
    object (the identity map, the base offsets, the stored headings and
    the crowd with every agent in it) and [trans] are as before. *)
Theorem unknown_identity_fails (delta0 : double) (cs : list Call)
    (nav : Navigation) (id : ActorId) (to : geom.Location)
    (trans : geom.Transform) :
  exec (Navigation_new delta0) cs = Done nav ->
  id ∉ added cs ->
  SetWalkerTarget nav id to = Done (false, nav)
  /\ GetWalkerTransform nav id trans = Done (false, trans, nav)
  /\ GetWalkerSpeed nav id = Done (F32.of_bool false).
Proof.
  intros Hexec Hid.
  assert (Hnone : _mappedId nav !! id = None)
    by (apply (exec_unmapped cs (Navigation_new delta0)); [assumption | apply lookup_empty | assumption]).
  unfold SetWalkerTarget, GetWalkerTransform, GetWalkerSpeed.
  rewrite Hnone. repeat split.
Qed.

(** ** Walker accessors *)

Lemma speed_of_rest (s0 s1 s2 : bool) :
  F32.sqrt (S754_zero s0 * S754_zero s0 + S754_zero s1 * S754_zero s1
            + S754_zero s2 * S754_zero s2)%f32 = F32.zero.
Proof. now destruct s0, s1, s2. Qed.

(** C9. [GetWalkerSpeed] on an identity that is not in [_mappedId], or that
    is mapped to the slot -1, returns [false] converted to [float], that
    is 0.0; a mapped walker whose agent has a zero velocity gets the same
    value, so the result does not tell the two apart. *)
Theorem GetWalkerSpeed_unknown_is_zero (nav nav' : Navigation)
    (id id' : ActorId) (index : Z) (crowd : dtCrowd) (s0 s1 s2 : bool) :
  _mappedId nav !! id = None \/ _mappedId nav !! id = Some (-1) ->
  _mappedId nav' !! id' = Some index -> index <> -1 ->
  _crowd nav' = Some crowd ->
  vel (getAgent crowd index) = (S754_zero s0, S754_zero s1, S754_zero s2) ->
  GetWalkerSpeed nav id = Done F32.zero
  /\ GetWalkerSpeed nav' id' = GetWalkerSpeed nav id.
Proof.
  intros Hid Hid' Hindex Hcrowd Hvel.
  assert (H0 : GetWalkerSpeed nav id = Done F32.zero).
  { unfold GetWalkerSpeed. destruct Hid as [-> | ->]; reflexivity. }
  split; [exact H0|]. rewrite H0.
  unfold GetWalkerSpeed. rewrite Hid'.
  destruct (Z.eqb_spec index (-1)); [contradiction|].
  rewrite Hcrowd. cbn [deref mbind run_bind].
  rewrite Hvel. cbn [at0 at1 at2 fst snd].
  now rewrite speed_of_rest.
Qed.

Lemma GetWalkerTransform_active (nav : Navigation) (id : ActorId)
    (trans : geom.Transform) (index : Z) (crowd : dtCrowd) :
  _mappedId nav !! id = Some index -> index <> -1 ->
  _crowd nav = Some crowd ->
  active (getAgent crowd index) = true ->
  GetWalkerTransform nav id trans
  = Done (true, reported nav id (getAgent crowd index) trans,
          set_yaw_walkers nav
            (<[id := smoothed_yaw (dvel (getAgent crowd index))
                       (yaw_of nav id) (_delta_seconds nav)]>
               (yaw_walkers nav))).
Proof.
  intros Hid Hindex Hcrowd Hactive. unfold GetWalkerTransform.
  rewrite Hid. destruct (Z.eqb_spec index (-1)); [contradiction|].
  rewrite Hcrowd. cbn [deref mbind run_bind]. rewrite Hactive. cbn [negb].
  unfold reported. now destruct (_baseHeight nav !! id).
Qed.

Lemma sub_nan (x : float) : (x - S754_nan)%f32 = S754_nan.
Proof. now destruct x. Qed.

(** Adding a zero gives back a number that is not a NaN. *)
Lemma add_zero_same (x : float) (s : bool) :
  x <> S754_nan -> ((x + S754_zero s) == x)%f32 = true.
Proof.
  intros Hx. destruct x as [sx | sx | | sx m e].
  - now destruct sx, s.
  - now destruct sx.
  - contradiction.
  - cbn [F32.add SFadd]. unfold F32.eqb, SFeqb, SFcompare.
    rewrite Z.compare_refl, Pos.compare_cont_refl. now destruct sx.
Qed.

(** C10 (amended). A successful [GetWalkerTransform] writes the yaw it
    returns into [yaw_walkers[id]] and leaves every other stored heading,
    the identity map, the base offsets, the crowd and [_delta_seconds] as
    they were.  With [target] the heading of the desired velocity in
    degrees, the call returns the stored heading plus
    [(fmod(target - stored + 540, 360) - 180) * 4 * delta], every
    operation rounded to single precision.  A second call on the same
    agent state starts from the yaw the first one returned and adds the
    increment computed for that yaw.  The two yaws need not differ: when
    the second increment is a zero, the second yaw equals the first (and
    [GetWalkerTransform_absorbed_increment] has an increment that is not
    zero and is lost in the rounding of the sum). *)
Theorem GetWalkerTransform_stores_heading (nav : Navigation) (id : ActorId)
    (trans : geom.Transform) (index : Z) (crowd : dtCrowd) :
  _mappedId nav !! id = Some index -> index <> -1 ->
  _crowd nav = Some crowd ->
  active (getAgent crowd index) = true ->
  let dv := dvel (getAgent crowd index) in
  let target := (atan2f (at2 dv) (at0 dv) * (F32.of_Z 180 / F32.pi))%f32 in
  let increment (stored : float) :=
    ((F32.fmod (target - stored + F32.of_Z 540) (F32.of_Z 360)
      - F32.of_Z 180)
     * F32.of_Z 4 * F64.to_float (_delta_seconds nav))%f32 in
  let yaw1 := (yaw_of nav id + increment (yaw_of nav id))%f32 in
  let yaw2 := (yaw1 + increment yaw1)%f32 in
  exists trans1 nav1 trans2 nav2,
    GetWalkerTransform nav id trans = Done (true, trans1, nav1)
    /\ geom.yaw (geom.rotation trans1) = yaw1
    /\ yaw_walkers nav1 !! id = Some yaw1
    /\ (forall id', id' <> id ->
          yaw_walkers nav1 !! id' = yaw_walkers nav !! id')
    /\ _crowd nav1 = _crowd nav /\ _mappedId nav1 = _mappedId nav
    /\ _baseHeight nav1 = _baseHeight nav
    /\ _delta_seconds nav1 = _delta_seconds nav
    /\ GetWalkerTransform nav1 id trans = Done (true, trans2, nav2)
    /\ geom.yaw (geom.rotation trans2) = yaw2
    /\ yaw_walkers nav2 !! id = Some yaw2
    /\ (forall id', id' <> id ->
          yaw_walkers nav2 !! id' = yaw_walkers nav !! id')
    /\ (forall s, increment yaw1 = S754_zero s ->
          (yaw2 == yaw1)%f32 = true).
Proof.
  intros Hid Hindex Hcrowd Hactive dv target increment yaw1 yaw2.
  assert (Hstep : forall stored,
            smoothed_yaw dv stored (_delta_seconds nav)
            = (stored + increment stored)%f32) by reflexivity.
  pose (nav1 := set_yaw_walkers nav (<[id := yaw1]> (yaw_walkers nav))).
  assert (Hyaw : yaw_of nav1 id = yaw1).
  { unfold yaw_of, nav1. cbn [yaw_walkers set_yaw_walkers].
    now rewrite lookup_insert_eq. }
  exists (reported nav id (getAgent crowd index) trans), nav1,
    (reported nav1 id (getAgent crowd index) trans),
    (set_yaw_walkers nav1 (<[id := yaw2]> (yaw_walkers nav1))).
  split.
  { rewrite (GetWalkerTransform_active nav id trans index crowd)
      by assumption.
    fold dv. now rewrite Hstep. }
  split; [cbn [reported geom.rotation geom.yaw]; fold dv; now rewrite Hstep|].
  split; [apply lookup_insert_eq|].
  split; [intros id' Hne; now apply lookup_insert_ne|].
  do 4 (split; [reflexivity|]).
  split.
  { rewrite (GetWalkerTransform_active nav1 id trans index crowd)
      by assumption.
    fold dv. rewrite Hyaw. change (_delta_seconds nav1) with (_delta_seconds nav).
    now rewrite Hstep. }
  split.
  { cbn [reported geom.rotation geom.yaw]. fold dv. rewrite Hyaw.
    change (_delta_seconds nav1) with (_delta_seconds nav).
    now rewrite Hstep. }
  split; [apply lookup_insert_eq|].
  split.
  { intros id' Hne. cbn [yaw_walkers set_yaw_walkers nav1].
    now rewrite !lookup_insert_ne. }
  intros s Hzero. unfold yaw2. rewrite Hzero.
  apply add_zero_same. intros Hnan.
  unfold increment in Hzero. rewrite Hnan in Hzero.
  rewrite (sub_nan target) in Hzero.
  now destruct (F64.to_float (_delta_seconds nav)).
Qed.

(** ** The sampler *)

Lemma accepted_status (m : float)
    (r : dtStatus * dtPolyRef * float3 * RandState) :
  accepted m r = true ->
  sample_status r = DT_SUCCESS /\ height_ok m (to_host (sample_point r)) = true.
Proof.
  destruct r as [[[st ref] pt] rd]. unfold accepted. cbn.
  intros H. apply andb_prop in H. destruct H as [Hs Hh].
  apply N.eqb_eq in Hs. now split.
Qed.

(** A bound that is not negative is not the sentinel. *)
Lemma bound_not_sentinel (m : float) :
  (F32.zero <=? m)%f32 = true -> (m == F32.of_Z (-1))%f32 = false.
Proof. destruct m as [s | s | | s mant e]; try destruct s; now cbn. Qed.

Lemma height_ok_bound (m : float) (l : geom.Location) :
  (F32.zero <=? m)%f32 = true -> height_ok m l = true ->
  (geom.z l <=? m)%f32 = true.
Proof.
  intros Hm. unfold height_ok. rewrite (bound_not_sentinel m Hm), Hm.
  now cbn.
Qed.

Lemma height_ok_sentinel (m : float) (l : geom.Location) :
  (m == F32.of_Z (-1))%f32 = true -> height_ok m l = true.
Proof. intros Hm. unfold height_ok. now rewrite Hm. Qed.

(** A run of the loop that returns stopped at the first accepted draw. *)
Lemma sample_loop_returns (fuel : nat) (query : dtNavMeshQuery)
    (f : dtQueryFilter) (m : float) (ref : dtPolyRef) (pt : float3)
    (loc : geom.Location) (rand : RandState)
    (ok : bool) (loc' : geom.Location) (rand' : RandState) :
  sample_loop fuel query f m ref pt loc rand = Done (ok, loc', rand') ->
  ok = true
  /\ exists n : nat,
       (n < fuel)%nat
       /\ accepted m (sample_at n query f rand ref pt) = true
       /\ (forall k, (k < n)%nat ->
             accepted m (sample_at k query f rand ref pt) = false)
       /\ loc' = to_host (sample_point (sample_at n query f rand ref pt))
       /\ rand' = sample_rand (sample_at n query f rand ref pt).
Proof.
  revert ref pt loc rand. induction fuel as [|fuel IH];
    intros ref pt loc rand; [discriminate|].
  cbn [sample_loop].
  destruct (findRandomPoint query f rand ref pt) as [[[st ref1] pt1] rand1]
    eqn:Hdraw.
  assert (Hnext : forall k, sample_at (S k) query f rand ref pt
                            = sample_at k query f rand1 ref1 pt1)
    by (intros k; cbn [sample_at]; now rewrite Hdraw).
  assert (Hfirst : sample_at 0 query f rand ref pt = (st, ref1, pt1, rand1))
    by exact Hdraw.
  assert (Hagain : forall loc1,
    accepted m (st, ref1, pt1, rand1) = false ->
    sample_loop fuel query f m ref1 pt1 loc1 rand1 = Done (ok, loc', rand') ->
    ok = true
    /\ exists n : nat,
         (n < S fuel)%nat
         /\ accepted m (sample_at n query f rand ref pt) = true
         /\ (forall k, (k < n)%nat ->
               accepted m (sample_at k query f rand ref pt) = false)
         /\ loc' = to_host (sample_point (sample_at n query f rand ref pt))
         /\ rand' = sample_rand (sample_at n query f rand ref pt)).
  { intros loc1 Hrej Hrun. apply IH in Hrun.
    destruct Hrun as (Hok & n & Hn & Hacc & Hbefore & Hloc & Hrand).
    split; [exact Hok|]. exists (S n). rewrite !Hnext.
    split; [lia|]. split; [exact Hacc|]. split; [|now split].
    intros [|k] Hk; [now rewrite Hfirst | rewrite Hnext; apply Hbefore; lia]. }
  destruct (st =? DT_SUCCESS)%N eqn:Hst.
  - destruct (height_ok m _) eqn:Hh.
    + intros [= <- <- <-]. split; [reflexivity|]. exists O. rewrite Hfirst.
      split; [lia|]. split; [unfold accepted; now rewrite Hst|].
      split; [intros k Hk; lia | now split].
    + apply Hagain. unfold accepted. now rewrite Hst.
  - apply Hagain. unfold accepted. now rewrite Hst.
Qed.

(** With enough fuel the loop does return at the first accepted draw. *)
Lemma sample_loop_accepts (n extra : nat) (query : dtNavMeshQuery)
    (f : dtQueryFilter) (m : float) (ref : dtPolyRef) (pt : float3)
    (loc : geom.Location) (rand : RandState) :
  accepted m (sample_at n query f rand ref pt) = true ->
  (forall k, (k < n)%nat ->
     accepted m (sample_at k query f rand ref pt) = false) ->
  sample_loop (S n + extra) query f m ref pt loc rand
  = Done (true, to_host (sample_point (sample_at n query f rand ref pt)),
          sample_rand (sample_at n query f rand ref pt)).
Proof.
  revert ref pt loc rand. induction n as [|n IH]; intros ref pt loc rand;
    cbn [sample_loop sample_at Nat.add];
    destruct (findRandomPoint query f rand ref pt) as [[[st ref1] pt1] rand1]
      eqn:Hdraw.
  - intros Hacc _. unfold accepted in Hacc.
    apply andb_prop in Hacc. destruct Hacc as [Hst Hh].
    rewrite Hst. unfold to_host in Hh |- *. now rewrite Hh.
  - intros Hacc Hbefore.
    assert (Hrej : accepted m (st, ref1, pt1, rand1) = false).
    { specialize (Hbefore O ltac:(lia)). cbn [sample_at] in Hbefore.
      now rewrite Hdraw in Hbefore. }
    assert (Hrest : forall k, (k < n)%nat ->
              accepted m (sample_at k query f rand1 ref1 pt1) = false).
    { intros k Hk. specialize (Hbefore (S k) ltac:(lia)).
      cbn [sample_at] in Hbefore. now rewrite Hdraw in Hbefore. }
    unfold accepted in Hrej.
    destruct (st =? DT_SUCCESS)%N; [|now apply IH].
    cbn [andb] in Hrej. unfold to_host in Hrej. rewrite Hrej. now apply IH.
Qed.

Lemma sample_loop_no_fault (fuel : nat) (query : dtNavMeshQuery)
    (f : dtQueryFilter) (m : float) (ref : dtPolyRef) (pt : float3)
    (loc : geom.Location) (rand : RandState) :
  sample_loop fuel query f m ref pt loc rand <> NullDeref.
Proof.
  revert ref pt loc rand. induction fuel as [|fuel IH];
    intros ref pt loc rand; [discriminate|].
  cbn [sample_loop].
  destruct (findRandomPoint query f rand ref pt) as [[[st ref1] pt1] rand1].
  destruct (st =? DT_SUCCESS)%N; [destruct (height_ok m _); [discriminate|]|];
    apply IH.
Qed.

(** While no draw is accepted the loop goes on, whatever the fuel. *)
Lemma sample_loop_spins (fuel : nat) (query : dtNavMeshQuery)
    (f : dtQueryFilter) (m : float) (ref : dtPolyRef) (pt : float3)
    (loc : geom.Location) (rand : RandState) :
  (forall k, accepted m (sample_at k query f rand ref pt) = false) ->
  sample_loop fuel query f m ref pt loc rand = OutOfFuel.
Proof.
  intros Hnone.
  destruct (sample_loop fuel query f m ref pt loc rand)
    as [[[ok loc'] rand']| |] eqn:Hrun; [| |reflexivity].
  - apply sample_loop_returns in Hrun.
    destruct Hrun as (_ & n & _ & Hacc & _). now rewrite Hnone in Hacc.
  - now apply sample_loop_no_fault in Hrun.
Qed.

(** A negative bound other than the sentinel accepts no draw. *)
Lemma height_ok_negative (m : float) (l : geom.Location) :
  (m == F32.of_Z (-1))%f32 = false -> (F32.zero <=? m)%f32 = false ->
  height_ok m l = false.
Proof. intros H1 H2. unfold height_ok. now rewrite H1, H2. Qed.

(** A polygon that carries only the disabled flag does not pass the
    default filter, and one that passes it carries another flag. *)
Lemma land_lxor_distr (a b c : N) :
  N.land a (N.lxor b c) = N.lxor (N.land a b) (N.land a c).
Proof.
  apply N.bits_inj. intros i.
  rewrite N.land_spec, !N.lxor_spec, !N.land_spec.
  now destruct (N.testbit a i), (N.testbit b i), (N.testbit c i).
Qed.

Lemma passFilter_default (flags : N) :
  passFilter default_filter flags
  = negb (N.land flags
            (N.lxor SAMPLE_POLYFLAGS_ALL SAMPLE_POLYFLAGS_DISABLED) =? 0)%N.
Proof.
  unfold passFilter, default_filter, setExcludeFlags, setIncludeFlags.
  cbn [includeFlags excludeFlags].
  rewrite N.land_0_r, N.eqb_refl. apply andb_true_r.
Qed.

Lemma passFilter_default_disabled :
  N.land SAMPLE_POLYFLAGS_DISABLED SAMPLE_POLYFLAGS_ALL
  = SAMPLE_POLYFLAGS_DISABLED ->
  passFilter default_filter SAMPLE_POLYFLAGS_DISABLED = false.
Proof.
  intros Hin. rewrite passFilter_default, land_lxor_distr, Hin.
  now rewrite N.land_diag, N.lxor_nilpotent.
Qed.

Section Sampler.
(** What Detour promises of [findRandomPoint]: a draw that reports
    [DT_SUCCESS] returns a point on the polygon it names, and that polygon
    passes the filter.  [poly_flags] is the flag word of a polygon of the
    mesh behind the query object. *)
Variable poly_flags : dtNavMeshQuery -> dtPolyRef -> N.
Variable on_polygon : dtNavMeshQuery -> dtPolyRef -> float3 -> Prop.
Hypothesis findRandomPoint_passes :
  forall query f rand ref pt,
    let r := findRandomPoint query f rand ref pt in
    sample_status r = DT_SUCCESS ->
    on_polygon query (sample_ref r) (sample_point r)
    /\ passFilter f (poly_flags query (sample_ref r)) = true.

Lemma sample_at_passes (n : nat) (query : dtNavMeshQuery)
    (f : dtQueryFilter) (rand : RandState) (ref : dtPolyRef) (pt : float3) :
  let r := sample_at n query f rand ref pt in
  sample_status r = DT_SUCCESS ->
  on_polygon query (sample_ref r) (sample_point r)
  /\ passFilter f (poly_flags query (sample_ref r)) = true.
Proof.
  revert rand ref pt. induction n as [|n IH]; intros rand ref pt;
    cbn [sample_at].
  - apply findRandomPoint_passes.
  - destruct (findRandomPoint query f rand ref pt) as [[[st ref1] pt1] rand1].
    apply IH.
Qed.


End Sampler.

End Facts.


(** ** The agent pool *)

Section PoolFacts.
Context {ME : MeshEngine} {LM : Libm} {IM : Indeterminate}.
Variable solver_step : list dtCrowdAgent -> float -> list dtCrowdAgent.
Variable commit_target : dtCrowdAgent -> dtPolyRef -> float3 -> dtCrowdAgent.
Variable tier_defaults : dtObstacleAvoidanceParams OARest.
Variable half_extents : float -> float3.

Local Abbreviation PE :=
  (pool_engine solver_step commit_target tier_defaults half_extents).

Lemma occupied_first_free (j : nat) (l : list dtCrowdAgent) :
  occupied j l = true ->
  first_free l = if (j <? length l)%nat then Some j else None.
Proof.
  revert j. induction l as [|a l IH]; intros [|j]; cbn [occupied first_free];
    try reflexivity; try discriminate.
  - cbn [forallb]. destruct (active a); [discriminate | reflexivity].
  - destruct (active a); [|discriminate]. cbn [andb].
    intros H. rewrite (IH j H).
    change (S j <? length (a :: l))%nat with (j <? length l)%nat.
    now destruct (j <? length l)%nat.
Qed.

Lemma occupied_S_cons (j : nat) (a : dtCrowdAgent) (l : list dtCrowdAgent) :
  occupied (S j) (a :: l) = active a && occupied j l.
Proof. reflexivity. Qed.

Lemma occupied_insert (j : nat) (l : list dtCrowdAgent) (pos : float3) :
  occupied j l = true -> (j < length l)%nat ->
  occupied (S j) (<[j := new_agent pos]> l) = true.
Proof.
  revert j. induction l as [|a l IH]; intros [|j]; cbn [length];
    try (intros; lia).
  - intros H _. cbn [occupied forallb] in H.
    apply andb_prop in H. destruct H as [_ H].
    change (<[O := new_agent pos]> (a :: l)) with (new_agent pos :: l).
    rewrite occupied_S_cons. exact H.
  - intros H Hlt. rewrite occupied_S_cons in H.
    apply andb_prop in H. destruct H as [Ha H].
    change (<[S j := new_agent pos]> (a :: l))
      with (a :: <[j := new_agent pos]> l).
    rewrite occupied_S_cons, Ha. apply (IH j H). lia.
Qed.

Lemma occupied_active (j k : nat) (l : list dtCrowdAgent) :
  occupied j l = true -> (k < j)%nat ->
  exists a, l !! k = Some a /\ active a = true.
Proof.
  revert j k. induction l as [|a l IH]; intros [|j] k; cbn [occupied];
    try (intros; lia); try discriminate.
  intros H Hk. apply andb_prop in H. destruct H as [Ha H].
  destruct k as [|k].
  - exists a. now split.
  - apply (IH j k H). lia.
Qed.

Lemma occupied_replicate (n : nat) : occupied 0 (replicate n free_slot) = true.
Proof. cbn [occupied]. induction n as [|n IH]; [reflexivity | exact IH]. Qed.

Lemma occupied_le (j : nat) (l : list dtCrowdAgent) :
  occupied j l = true -> (j <= length l)%nat.
Proof.
  revert j. induction l as [|a l IH]; intros [|j]; cbn [length];
    try (intros; lia); try discriminate.
  rewrite occupied_S_cons. intros H.
  apply andb_prop in H. destruct H as [_ H]. apply IH in H. lia.
Qed.

(** With a free slot left, [AddWalker] takes the first one. *)
Lemma AddWalker_pool_free (nav : @Navigation ME PE) (c : Pool) (j : nat)
    (id : ActorId) (from : geom.Location) (base_offset : float) :
  _crowd nav = Some c ->
  occupied j (slots c) = true -> (j < length (slots c))%nat ->
  AddWalker nav id from base_offset
  = (true,
     @Build_Navigation ME PE (_binaryMesh nav) (_delta_seconds nav)
       (_navMesh nav) (_navQuery nav)
       (Some (set_slots c (<[j := new_agent (to_engine from)]> (slots c))))
       (<[id := Z.of_nat j]> (_mappedId nav))
       (<[id := base_offset]> (_baseHeight nav))
       (<[id := F32.zero]> (yaw_walkers nav))).
Proof.
  intros Hc Hocc Hlt. unfold AddWalker. rewrite Hc.
  cbn [addAgent pool_engine]. unfold pool_addAgent.
  rewrite (occupied_first_free _ _ Hocc).
  destruct (Nat.ltb_spec j (length (slots c))); [|lia].
  destruct (Z.eqb_spec (Z.of_nat j) (-1)); [lia|]. reflexivity.
Qed.

(** With every slot taken, [AddWalker] fails and changes nothing. *)
Lemma AddWalker_pool_full (nav : @Navigation ME PE) (c : Pool)
    (id : ActorId) (from : geom.Location) (base_offset : float) :
  _crowd nav = Some c ->
  occupied (length (slots c)) (slots c) = true ->
  AddWalker nav id from base_offset = (false, nav).
Proof.
  intros Hc Hocc. unfold AddWalker. rewrite Hc.
  cbn [addAgent pool_engine]. unfold pool_addAgent.
  rewrite (occupied_first_free _ _ Hocc), Nat.ltb_irrefl.
  cbn. unfold set_crowd. destruct nav; cbn in *. now subst.
Qed.

Lemma add_walkers_pool (ws : list (ActorId * geom.Location * float)) :
  forall (j : nat) (nav : @Navigation ME PE) (c : Pool),
    _crowd nav = Some c ->
    occupied j (slots c) = true ->
    NoDup (ids ws) ->
    exists (nav' : @Navigation ME PE) (c' : Pool),
      add_walkers nav ws
      = (map (fun k => (j + k <? length (slots c))%nat)
           (seq 0 (length ws)), nav')
      /\ _crowd nav' = Some c'
      /\ length (slots c') = length (slots c)
      /\ occupied (Nat.min (length (slots c)) (j + length ws)) (slots c')
         = true
      /\ (forall k id from b,
            (j + k < length (slots c))%nat ->
            ws !! k = Some (id, from, b) ->
            _mappedId nav' !! id = Some (Z.of_nat (j + k)))
      /\ (forall id, id ∉ ids ws ->
            _mappedId nav' !! id = _mappedId nav !! id).
Proof.
  induction ws as [|[[id from] b] ws IH]; intros j nav c Hc Hocc Hnd.
  - exists nav, c. pose proof (occupied_le _ _ Hocc).
    cbn [add_walkers length seq map]. rewrite Nat.add_0_r, Nat.min_r by lia.
    repeat split; try assumption. intros k id from b _ Hk. discriminate.
  - cbn [ids map fst] in Hnd. apply NoDup_cons in Hnd.
    destruct Hnd as [Hfresh Hnd]. fold (ids ws) in Hfresh, Hnd.
    pose proof (occupied_le _ _ Hocc) as Hle.
    cbn [add_walkers length].
    destruct (Nat.ltb_spec j (length (slots c))) as [Hlt | Hge].
    + rewrite (AddWalker_pool_free nav c j) by assumption.
      match goal with |- context [add_walkers ?n ws] => set (nav1 := n) end.
      destruct (IH (S j) nav1
                  (set_slots c (<[j := new_agent (to_engine from)]> (slots c)))
                  eq_refl (occupied_insert _ _ _ Hocc Hlt) Hnd)
        as (nav' & c' & Hrun & Hc' & Hlen & Hocc' & Hmap & Hframe).
      cbn [slots set_slots] in Hrun, Hlen, Hocc', Hmap.
      rewrite length_insert in Hrun, Hlen, Hocc', Hmap.
      exists nav', c'. rewrite Hrun.
      split.
      { f_equal. cbn [seq map]. rewrite Nat.add_0_r.
        destruct (Nat.ltb_spec j (length (slots c))); [|lia]. f_equal.
        rewrite <- seq_shift, map_map. apply map_ext. intros k.
        now rewrite Nat.add_succ_r. }
      split; [exact Hc'|]. split; [exact Hlen|]. split.
      { now rewrite Nat.add_succ_r. }
      split.
      * intros [|k] id' from' b' Hk Hw; cbn in Hw.
        -- injection Hw as <- <- <-. rewrite (Hframe id Hfresh).
           unfold nav1. cbn [_mappedId]. rewrite Nat.add_0_r.
           apply lookup_insert_eq.
        -- rewrite Nat.add_succ_r. apply (Hmap k id' from' b'); [lia | exact Hw].
      * intros id' Hid'. cbn [ids map fst] in Hid'.
        apply not_elem_of_cons in Hid'. destruct Hid' as [Hne Hid'].
        rewrite (Hframe id' Hid'). unfold nav1. cbn [_mappedId].
        now apply lookup_insert_ne.
    + assert (j = length (slots c)) by lia. subst j.
      rewrite (AddWalker_pool_full nav c) by assumption.
      destruct (IH (length (slots c)) nav c Hc Hocc Hnd)
        as (nav' & c' & Hrun & Hc' & Hlen & Hocc' & Hmap & Hframe).
      exists nav', c'. rewrite Hrun.
      split.
      { f_equal. cbn [seq map]. rewrite Nat.add_0_r, Nat.ltb_irrefl. f_equal.
        rewrite <- seq_shift, map_map. apply map_ext. intros k.
        destruct (Nat.ltb_spec (length (slots c) + k) (length (slots c)));
          destruct (Nat.ltb_spec (length (slots c) + S k) (length (slots c)));
          (reflexivity || lia). }
      split; [exact Hc'|]. split; [exact Hlen|]. split.
      { rewrite Nat.min_l in Hocc' |- * by lia. exact Hocc'. }
      split.
      * intros k id' from' b' Hk. lia.
      * intros id' Hid'. cbn [ids map fst] in Hid'.
        apply not_elem_of_cons in Hid'. destruct Hid' as [_ Hid'].
        apply (Hframe id' Hid').
Qed.

(** The crowd that the first successful [Load] creates is an empty pool of
    [MAX_AGENTS] slots. *)
Lemma Load_new_pool (content : list byte) (delta0 : double) :
  load_ok (Load content (@Navigation_new ME PE delta0)) = true ->
  exists c : Pool,
    _crowd (load_nav (Load content (@Navigation_new ME PE delta0))) = Some c
    /\ slots c = replicate (Z.to_nat MAX_AGENTS) free_slot.
Proof.
  unfold Load.
  destruct (negb _ || negb _); [discriminate|].
  destruct (navmesh_init _) as [status mesh].
  destruct (dtStatusFailed status); [discriminate|].
  destruct (read_tiles _ _ _ _ _) as [[m|] log]; [|discriminate].
  intros _. eexists. split; reflexivity.
Qed.

(** C5. On the crowd that [Load] creates, with the spec's pool of
    [MAX_AGENTS] = 500 slots: [AddWalker] for walkers with distinct
    identities returns [true] for the first 500 and [false] for every
    later one; once 500 are in, [addAgent] returns -1 and leaves the pool
    as it is; and after all the calls walker [k < 500] is still mapped to
    slot [k], its agent is active, and [GetWalkerTransform] and
    [GetWalkerSpeed] answer for it. *)
Theorem AddWalker_capacity (content : list byte) (delta0 : double)
    (ws : list (ActorId * geom.Location * float)) :
  load_ok (Load content (@Navigation_new ME PE delta0)) = true ->
  NoDup (ids ws) ->
  MAX_AGENTS = 500
  /\ exists (nav' : @Navigation ME PE) (c' : Pool),
       add_walkers (load_nav (Load content (@Navigation_new ME PE delta0))) ws
       = (map (fun k => (k <? 500)%nat) (seq 0 (length ws)), nav')
       /\ _crowd nav' = Some c'
       /\ ((500 <= length ws)%nat ->
           forall pos params, pool_addAgent c' pos params = (-1, c'))
       /\ forall k id from b,
            (k < 500)%nat -> ws !! k = Some (id, from, b) ->
            _mappedId nav' !! id = Some (Z.of_nat k)
            /\ active (pool_getAgent c' (Z.of_nat k)) = true
            /\ (forall trans, exists t n,
                  GetWalkerTransform nav' id trans = Done (true, t, n))
            /\ exists v, GetWalkerSpeed nav' id = Done v.
Proof.
  intros Hload Hnd. split; [reflexivity|].
  destruct (Load_new_pool content delta0 Hload) as (c & Hc & Hslots).
  assert (Hcap : length (slots c) = 500%nat)
    by (rewrite Hslots, length_replicate; reflexivity).
  assert (Hocc : occupied 0 (slots c) = true)
    by (rewrite Hslots; apply occupied_replicate).
  destruct (add_walkers_pool ws 0 _ c Hc Hocc Hnd)
    as (nav' & c' & Hrun & Hc' & Hlen & Hocc' & Hmap & _).
  rewrite Hcap in Hrun, Hlen, Hocc', Hmap. cbn [Nat.add] in Hrun, Hocc', Hmap.
  exists nav', c'. split; [exact Hrun|]. split; [exact Hc'|]. split.
  - intros Hfull pos params. rewrite Nat.min_l in Hocc' by lia.
    unfold pool_addAgent. rewrite <- Hlen in Hocc'.
    now rewrite (occupied_first_free _ _ Hocc'), Nat.ltb_irrefl.
  - intros k id from b Hk Hw.
    assert (Hin : (k < length ws)%nat) by (apply lookup_lt_is_Some; eauto).
    destruct (occupied_active _ k _ Hocc' ltac:(lia)) as (a & Ha & Hact).
    assert (Hagent : pool_getAgent c' (Z.of_nat k) = a).
    { unfold pool_getAgent. destruct (Z.ltb_spec (Z.of_nat k) 0); [lia|].
      now rewrite Nat2Z.id, Ha. }
    pose proof (Hmap k id from b Hk Hw) as Hid.
    split; [exact Hid|]. split; [now rewrite Hagent|]. split.
    + intros trans. eexists _, _.
      apply (GetWalkerTransform_active nav' id trans (Z.of_nat k) c');
        [exact Hid | lia | exact Hc' |].
      cbn [getAgent pool_engine]. now rewrite Hagent.
    + unfold GetWalkerSpeed. rewrite Hid.
      destruct (Z.eqb_spec (Z.of_nat k) (-1)); [lia|].
      rewrite Hc'. cbn [deref mbind run_bind]. eauto.
Qed.

End PoolFacts.

(** ** The properties on the example engine *)

(** Closed goals are settled by evaluation. *)
Ltac evaluate :=
  vm_compute; repeat split; (reflexivity || discriminate || lia).

Section Examples.
Import Example.

Lemma example_sizes :
  0 <= sizeof_dtNavMeshParams /\ 0 <= sizeof_dtTileRef <= 8.
Proof. evaluate. Qed.

Lemma example_alloc (size : Z) : 0 < size < 2 ^ 31 -> dtAlloc size = true.
Proof.
  intros H. cbn [dtAlloc mesh]. apply negb_true_iff.
  apply Z.bits_above_log2; [lia|].
  assert (Z.log2 size < 31) by (apply Z.log2_lt_pow2; lia). lia.
Qed.

(** C1, counterexample: with [degenerate_tile] loaded, both endpoints have
    a nearest polygon, the corridor holds one polygon and the straight
    path holds no waypoint; [GetPath] returns [true] and an empty path. *)
Lemma GetPath_empty_is_success :
  let from := point 1 2 3 in
  let to := point 4 5 6 in
  exists query,
    _navQuery loaded_degenerate = Some query
    /\ _binaryMesh loaded_degenerate <> []
    /\ nearest_ref query default_filter (to_engine from) <> 0%N
    /\ nearest_ref query default_filter (to_engine to) <> 0%N
    /\ snd (corridor query default_filter (to_engine from) (to_engine to)) = 1
    /\ snd (straight_path query default_filter (to_engine from)
              (to_engine to)) = 0
    /\ GetPath loaded_degenerate from to None [origin] = Done (true, []).
Proof. exists [(1%N, [Byte.x00])]. evaluate. Qed.

Lemma GetPath_empty_straight_path_witness :
  GetPath loaded_degenerate (point 1 2 3) (point 4 5 6) None [origin]
  = Done (true, []).
Proof.
  apply (GetPath_empty_straight_path loaded_degenerate
           [(1%N, [Byte.x00])]); evaluate.
Defined.

Lemma Load_zero_record_last_witness :
  load_ok (Load zero_record_last fresh) = false
  /\ load_nav (Load zero_record_last fresh) = fresh.
Proof.
  apply (Load_zero_record_last (proj1 example_sizes) (proj2 example_sizes)
           example_alloc zero_record_last fresh 0 40); evaluate.
Defined.

(** [one_tile] cut inside the file header, and right behind the tile
    header. *)
Lemma Load_truncated_witness :
  out_of_range 0 sizeof_NavMeshSetHeader
    ∈ load_log (Load (take 10 one_tile) loaded)
  /\ load_ok (Load (take 52 one_tile) loaded) = false
  /\ load_nav (Load (take 52 one_tile) loaded) = loaded.
Proof.
  assert (Hlen : Z.of_nat (length one_tile) < 2 ^ 63) by evaluate.
  assert (Hhdr : header_ok one_tile = true) by evaluate.
  assert (Hinit : init_ok one_tile = true) by evaluate.
  assert (Hk : declared_tiles one_tile = Z.of_nat 1) by evaluate.
  assert (He : declared_end one_tile 1 sizeof_NavMeshSetHeader = Some 54)
    by evaluate.
  split.
  - assert (Hcut : Z.of_nat 10 < 54) by lia.
    destruct (Load_truncated (proj1 example_sizes) (proj2 example_sizes)
                example_alloc one_tile loaded 1 10 54
                Hlen Hhdr Hinit Hk He Hcut) as [Hshort _].
    apply Hshort. evaluate.
  - assert (Hcut : Z.of_nat 52 < 54) by lia.
    destruct (Load_truncated (proj1 example_sizes) (proj2 example_sizes)
                example_alloc one_tile loaded 1 52 54
                Hlen Hhdr Hinit Hk He Hcut) as [_ Hlong].
    destruct Hlong as (Hok & Hnav & _); [evaluate|].
    now split.
Defined.

(** C3, the failing input: the first 10 bytes of [one_tile], loaded over
    [loaded].  The header copy reads 30 bytes behind the buffer; with the
    bytes 0xaa there the tile count is negative, and [Load] returns [true]
    and replaces the mesh of one tile by a mesh without tiles. *)
Lemma Load_cut_replaces_the_mesh :
  load_log (Load (take 10 one_tile) loaded)
  = [out_of_range 0 40; dtFreeNavMesh (_navMesh loaded);
     dtFreeNavMeshQuery (_navQuery loaded)]
  /\ load_ok (Load (take 10 one_tile) loaded) = true
  /\ _navMesh loaded = Some [(1%N, [Byte.x01; Byte.x02])]
  /\ _navMesh (load_nav (Load (take 10 one_tile) loaded)) = Some []
  /\ _binaryMesh (load_nav (Load (take 10 one_tile) loaded))
     = take 10 one_tile.
Proof. evaluate. Qed.

Lemma GetPath_axis_swap_witness :
  GetPath loaded (point 1 2 3) (point 4 5 6) None []
  = Done (true, [point 1 2 3; point 4 5 6]).
Proof.
  assert (Hmesh : _binaryMesh loaded <> []) by evaluate.
  assert (Hq : _navQuery loaded = Some [(1%N, [Byte.x01; Byte.x02])])
    by evaluate.
  destruct (GetPath_axis_swap loaded [(1%N, [Byte.x01; Byte.x02])]
              (point 1 2 3) (point 4 5 6) None [] Hmesh Hq)
    as (_ & _ & Hpath); [evaluate..|].
  rewrite Hpath. evaluate.
Defined.

Lemma walkers_NoDup (n : nat) : NoDup (ids (walkers n)).
Proof.
  unfold ids, walkers. rewrite map_map. cbn [fst].
  apply (NoDup_fmap_2 N.of_nat), NoDup_seq.
Qed.

(** 600 walkers: the calls 1 to 500 succeed and the calls 501 to 600
    fail. *)
Lemma AddWalker_capacity_witness :
  fst (add_walkers loaded (walkers 600))
  = replicate 500 true ++ replicate 100 false.
Proof.
  assert (Hload : load_ok (Load one_tile fresh) = true) by evaluate.
  destruct (AddWalker_capacity stand_still keep_course tiers extents
              one_tile F64.zero (walkers 600) Hload (walkers_NoDup 600))
    as (_ & nav' & c' & Hrun & _).
  unfold loaded, fresh, crowd. rewrite Hrun. evaluate.
Defined.

Lemma history_runs : exec fresh history = Done after_history.
Proof.
  assert (H : is_done (exec fresh history) = true) by evaluate.
  unfold after_history.
  destruct (exec fresh history); [reflexivity | discriminate..].
Qed.

Lemma unknown_identity_fails_witness :
  SetWalkerTarget after_history 8 origin = Done (false, after_history)
  /\ GetWalkerTransform after_history 8 transform0
     = Done (false, transform0, after_history)
  /\ GetWalkerSpeed after_history 8 = Done (F32.of_bool false).
Proof.
  apply (unknown_identity_fails F64.zero history).
  - exact history_runs.
  - cbn [added history].
    rewrite elem_of_union, elem_of_singleton, elem_of_empty.
    intros [H | []]. discriminate H.
Defined.

Lemma Load_reads_past_the_end_witness :
  exists pos len,
    out_of_range pos len ∈ load_log (Load (take 10 one_tile) fresh)
    /\ 0 <= pos /\ Z.of_nat (length (take 10 one_tile)) < pos + len.
Proof.
  apply (Load_reads_past_the_end (proj1 example_sizes) (proj2 example_sizes)
           example_alloc (take 10 one_tile) fresh 0).
  - evaluate.
  - left. evaluate.
Defined.

(** [Load] does read past the end of a buffer that stops inside the first
    tile header, and of one that stops inside the tile data. *)
Lemma truncated_reads_are_logged :
  load_log (Load (take 45 one_tile) fresh)
  = [out_of_range 40 12; dtFreeNavMesh (Some [])]
  /\ load_log (Load (take 53 one_tile) fresh)
     = [out_of_range 52 2; dtFree [Byte.x01; Byte.xaa];
        dtFreeNavMesh (Some [])].
Proof. evaluate. Qed.

(** What lies behind a buffer cut inside the file header decides the
    outcome: here [numTiles] is read as a negative number and [Load]
    succeeds without a tile. *)
Lemma Load_cut_inside_header :
  load_ok (Load (take 10 one_tile) fresh) = true
  /\ _navMesh (load_nav (Load (take 10 one_tile) fresh)) = Some [].
Proof. evaluate. Qed.

(** The terminator with one more byte behind it is accepted. *)
Lemma Load_zero_record_then_byte :
  load_ok (Load zero_record_then_byte fresh) = true
  /\ _navMesh (load_nav (Load zero_record_then_byte fresh))
     = Some [(1%N, [Byte.x01])].
Proof. evaluate. Qed.

Lemma GetWalkerSpeed_unknown_is_zero_witness :
  GetWalkerSpeed standing 8 = Done F32.zero
  /\ GetWalkerSpeed standing 7 = GetWalkerSpeed standing 8.
Proof.
  destruct (_crowd standing) as [c|] eqn:Hc; [|discriminate].
  apply (GetWalkerSpeed_unknown_is_zero standing standing 8 7 0 c
           false false false).
  - left. evaluate.
  - evaluate.
  - discriminate.
  - exact Hc.
  - injection Hc as <-. evaluate.
Defined.

(** C10, counterexample: walker 7 stands still and its stored heading is
    0; two successive calls succeed on the same crowd and both return the
    yaw 0. *)
Lemma GetWalkerTransform_same_yaw_twice :
  let first := GetWalkerTransform standing 7 transform0 in
  let second := GetWalkerTransform (object_after first) 7 transform0 in
  returned_yaw first = Some F32.zero
  /\ returned_yaw second = Some F32.zero
  /\ _crowd (object_after first) = _crowd standing
  /\ _delta_seconds (object_after first) = tick.
Proof. evaluate. Qed.

(** Walker 7 heads for 90 degrees with the stored heading 18 and a last
    tick of 2^-30 s: the increment 72 * 4 * 2^-30 is not zero, but 18 plus
    the increment rounds to 18, and the call returns the stored heading
    once more. *)
Lemma GetWalkerTransform_absorbed_increment :
  yaw_walkers creeping !! 7%N = Some (F32.of_Z 18)
  /\ ((F32.fmod (F32.of_Z 90 - F32.of_Z 18 + F32.of_Z 540) (F32.of_Z 360)
       - F32.of_Z 180)
      * F32.of_Z 4 * F64.to_float instant)%f32
     = S754_finite false 9437184 (-45)
  /\ returned_yaw (GetWalkerTransform creeping 7 transform0)
     = Some (F32.of_Z 18).
Proof. evaluate. Qed.

(** A walker that is turning: the first call returns 18 degrees, the
    second 32.4. *)
Lemma GetWalkerTransform_stores_heading_witness :
  let first := GetWalkerTransform walking 7 transform0 in
  let second := GetWalkerTransform (object_after first) 7 transform0 in
  returned_yaw first = Some (F32.of_Z 18)
  /\ returned_yaw second = Some (S754_finite false 8493466 (-18))
  /\ yaw_walkers (object_after first) !! 7%N = Some (F32.of_Z 18).
Proof.
  destruct (_crowd walking) as [c|] eqn:Hc; [|discriminate].
  destruct (GetWalkerTransform_stores_heading walking 7 transform0 0 c)
    as (t1 & n1 & t2 & n2 & H1 & Hy1 & Hs1 & _ & _ & _ & _ & _ & H2 & Hy2 & _).
  - evaluate.
  - discriminate.
  - exact Hc.
  - injection Hc as <-. evaluate.
  - cbv zeta. rewrite H1. cbn [object_after returned_yaw]. rewrite H2.
    cbn [returned_yaw]. rewrite Hy1, Hy2, Hs1.
    injection Hc as <-. evaluate.
Defined.


End Examples.


(** ** The sampler on the engine with polygon flags *)

Section FlaggedExamples.
Import Flagged.

(** The engine keeps what Detour promises of [findRandomPoint]. *)
Lemma flagged_findRandomPoint (query : dtNavMeshQuery) (f : dtQueryFilter)
    (rand : RandState) (ref : N) (pt : float3) :
  let r := findRandomPoint query f rand ref pt in
  sample_status r = DT_SUCCESS ->
  on_polygon query (sample_ref r) (sample_point r)
  /\ passFilter f (poly_flags query (sample_ref r)) = true.
Proof.
  cbn [findRandomPoint mesh].
  destruct (passing query f) as [|r0 l] eqn:Hp; [discriminate|].
  intros _. cbn [sample_ref sample_point fst snd].
  assert (Hin : In r0 (passing query f)) by (rewrite Hp; now left).
  unfold passing in Hin. apply filter_In in Hin. exact Hin.
Qed.



End FlaggedExamples.

(** * Further properties *)

Section LoaderFacts.
Context {ME : MeshEngine} {CE : CrowdEngine} {LM : Libm} {IM : Indeterminate}.
Hypothesis sizeof_params_nonneg : 0 <= sizeof_dtNavMeshParams.
Hypothesis sizeof_tileref_small : 0 <= sizeof_dtTileRef <= 8.

(** X1. Whatever the buffer, a [Load] that returns [false] leaves the
    object as it was. *)
Theorem Load_failure_keeps_object (content : list byte) (nav : Navigation) :
  load_ok (Load content nav) = false ->
  load_nav (Load content nav) = nav.
Proof.
  unfold Load.
  destruct (negb _ || negb _); [reflexivity|].
  destruct (navmesh_init _) as [status mesh].
  destruct (dtStatusFailed status); [reflexivity|].
  destruct (read_tiles _ _ _ _ _) as [[m|] log]; [discriminate | reflexivity].
Qed.

Lemma read_tiles_releases (content : list byte) (n : nat) (pos : Z)
    (mesh mesh' : dtNavMesh) (log log' : list Event) :
  read_tiles content n pos mesh log = (Some mesh', log') ->
  releases log' = releases log.
Proof.
  revert pos mesh log. induction n as [|n IH]; intros pos mesh log.
  - now intros [= _ <-].
  - rewrite read_tiles_S. cbv zeta.
    destruct (_ <=? _); [discriminate|].
    destruct (_ || _).
    { intros [= _ <-]. now rewrite releases_app, releases_memcpy_log, app_nil_r. }
    destruct (negb _).
    { intros [= _ <-]. now rewrite releases_app, releases_memcpy_log, app_nil_r. }
    destruct (_ <? _); [discriminate|].
    intros H. apply IH in H. rewrite H.
    now rewrite !releases_app, !releases_memcpy_log, !app_nil_r.
Qed.

Lemma over_reads_app (l1 l2 : list Event) :
  over_reads (l1 ++ l2) = over_reads l1 ++ over_reads l2.
Proof. apply List.filter_app. Qed.

Lemma over_reads_memcpy_log (content : list byte) (pos len : Z) :
  over_reads (memcpy_log content pos len) = [] ->
  len <= 0 \/ pos + len <= Z.of_nat (length content).
Proof.
  unfold memcpy_log, reads_outside.
  destruct (Z.ltb_spec 0 len); [|intros; lia].
  destruct (Z.ltb_spec (Z.of_nat (length content)) (pos + len));
    cbn; [discriminate | lia].
Qed.

Lemma to_size_t_negative (i : Z) :
  - 2 ^ 31 <= i < 0 -> to_size_t i = i + 2 ^ 64.
Proof.
  intros H. unfold to_size_t.
  rewrite <- (Z_mod_plus_full i 1 (2 ^ 64)), Z.mul_1_l.
  apply Z.mod_small. lia.
Qed.

(** A loop that ends well without a read outside the buffer has added
    whole tiles only, in file order. *)
Lemma read_tiles_inside (content : list byte) (n : nat) (pos : Z)
    (mesh m' : dtNavMesh) (log log' : list Event) :
  Z.of_nat (length content) < 2 ^ 63 -> 0 <= pos ->
  read_tiles content n pos mesh log = (Some m', log') ->
  over_reads log' = [] ->
  exists (j : nat) (p : Z),
    (j <= n)%nat /\ declared_end content j pos = Some p
    /\ m' = add_tiles content j pos mesh.
Proof.
  intros Hlen. revert pos mesh log.
  induction n as [|n IH]; intros pos mesh log Hpos.
  - cbn [read_tiles]. intros [= <- <-] _. exists O, pos. now repeat split.
  - rewrite read_tiles_S. cbv zeta. intros Hrun Hover.
    assert (Hth : 4 <= sizeof_NavMeshTileHeader <= 12)
      by (unfold sizeof_NavMeshTileHeader; lia).
    pose proof (dataSize_range content pos) as Hrange.
    destruct (Z.leb_spec (Z.of_nat (length content))
                (to_size_t (pos + sizeof_NavMeshTileHeader)))
      as [|Hin]; [discriminate|].
    destruct ((tileRef (read_NavMeshTileHeader content pos) =? 0)%N
              || (dataSize (read_NavMeshTileHeader content pos) =? 0))
      eqn:Hz.
    { injection Hrun as <- <-. exists O, pos.
      split; [lia | split; reflexivity]. }
    apply orb_false_elim in Hz. destruct Hz as [Href Hsz].
    apply Z.eqb_neq in Hsz.
    destruct (dtAlloc _); cbn [negb] in Hrun;
      [|injection Hrun as <- <-; exists O, pos;
        split; [lia | split; reflexivity]].
    destruct (Z.ltb_spec (Z.of_nat (length content))
                (to_size_t
                   (to_size_t (pos + sizeof_NavMeshTileHeader)
                    + to_size_t
                        (dataSize (read_NavMeshTileHeader content pos)))))
      as [|Hend]; [discriminate|].
    match type of Hrun with
    | read_tiles content n ?P ?M ?L = _ =>
        destruct (read_tiles_log content n P M L) as [l Hl]
    end.
    rewrite Hrun in Hl. cbn [snd] in Hl.
    pose proof Hover as Hover'. rewrite Hl, !over_reads_app in Hover'.
    apply app_eq_nil in Hover'. destruct Hover' as [Hover' _].
    apply app_eq_nil in Hover'. destruct Hover' as [Hover' Hdata].
    apply app_eq_nil in Hover'. destruct Hover' as [_ Hhead].
    apply over_reads_memcpy_log in Hhead.
    apply over_reads_memcpy_log in Hdata.
    rewrite (to_size_t_id (pos + sizeof_NavMeshTileHeader)) in * by lia.
    assert (Hpositive :
              0 < dataSize (read_NavMeshTileHeader content pos)).
    { destruct (Z.lt_ge_cases
                  (dataSize (read_NavMeshTileHeader content pos)) 0)
        as [Hneg|]; [|lia].
      rewrite to_size_t_negative in Hdata by lia. lia. }
    rewrite (to_size_t_id (dataSize _)) in * by lia.
    rewrite to_size_t_id in * by lia.
    assert (Hok : tile_ok content pos = true).
    { unfold tile_ok. rewrite Href. cbn [negb].
      repeat (apply andb_true_intro; split);
        [apply Z.leb_le | reflexivity | apply Z.ltb_lt | apply Z.leb_le];
        lia. }
    assert (Hnext : 0 <= pos + sizeof_NavMeshTileHeader
                         + dataSize (read_NavMeshTileHeader content pos))
      by lia.
    destruct (IH _ _ _ Hnext Hrun Hover) as (j & p & Hj & Hp & Hm).
    exists (S j), p. split; [lia|]. cbn [declared_end add_tiles].
    rewrite Hok. now split.
Qed.

(** X2. A [Load] that returns [true] installs the mesh built from
    [content] and a query object initialised on that mesh with 2048 nodes.
    The mesh is the same whatever the object held before; when no copy
    left the buffer it is the mesh initialised with the header's
    parameters with [j] whole tile records of [content] added in file
    order, [j] being at most the declared count.  [Load] keeps [content]
    as [_binaryMesh], leaves a crowd in place, keeps the walker maps and
    [_delta_seconds], and releases exactly the old mesh and the old query
    object, in that order. *)
Theorem Load_success_installs (content : list byte) (nav : Navigation) :
  load_ok (Load content nav) = true ->
  let nav' := load_nav (Load content nav) in
  (exists mesh,
     _navMesh nav' = Some mesh
     /\ _navQuery nav' = Some (navquery_init mesh 2048)
     /\ (forall nav0 : Navigation,
           _navMesh (load_nav (Load content nav0)) = Some mesh)
     /\ (Z.of_nat (length content) < 2 ^ 63 ->
         over_reads (load_log (Load content nav)) = [] ->
         exists (j : nat) (p : Z),
           (j <= Z.to_nat (declared_tiles content))%nat
           /\ declared_end content j sizeof_NavMeshSetHeader = Some p
           /\ mesh
              = add_tiles content j sizeof_NavMeshSetHeader
                  (fresh_mesh content)))
  /\ _binaryMesh nav' = content
  /\ is_Some (_crowd nav')
  /\ _mappedId nav' = _mappedId nav
  /\ _baseHeight nav' = _baseHeight nav
  /\ yaw_walkers nav' = yaw_walkers nav
  /\ _delta_seconds nav' = _delta_seconds nav
  /\ releases (load_log (Load content nav))
     = [dtFreeNavMesh (_navMesh nav); dtFreeNavMeshQuery (_navQuery nav)].
Proof.
  unfold Load, fresh_mesh, declared_tiles.
  destruct (negb _ || negb _); [discriminate|].
  destruct (navmesh_init _) as [status mesh].
  destruct (dtStatusFailed status); [discriminate|].
  destruct (read_tiles _ _ _ _ _) as [[m|] log] eqn:Hrun; [|discriminate].
  intros _. cbn [load_nav load_log snd].
  split.
  { exists m. unfold Load_exchange, CreateCrowd. cbn [_crowd _navMesh].
    split; [now destruct (_crowd nav)|].
    split; [now destruct (_crowd nav)|].
    split; [intros nav0; now destruct (_crowd nav0)|].
    intros Hlen Hover. rewrite over_reads_app in Hover.
    apply app_eq_nil in Hover. destruct Hover as [Hover _].
    assert (Hh : 12 <= sizeof_NavMeshSetHeader)
      by (unfold sizeof_NavMeshSetHeader; lia).
    destruct (read_tiles_log content
                (Z.to_nat (numTiles (read_NavMeshSetHeader content 0)))
                (to_size_t (0 + sizeof_NavMeshSetHeader)) mesh
                (memcpy_log content 0 sizeof_NavMeshSetHeader)) as [l Hl].
    rewrite Hrun in Hl. cbn [snd] in Hl.
    pose proof Hover as Hhead. rewrite Hl, over_reads_app in Hhead.
    apply app_eq_nil in Hhead. destruct Hhead as [Hhead _].
    apply over_reads_memcpy_log in Hhead.
    rewrite to_size_t_id in Hrun by lia.
    assert (Hpos : 0 <= 0 + sizeof_NavMeshSetHeader) by lia.
    exact (read_tiles_inside _ _ _ _ _ _ _ Hlen Hpos Hrun Hover). }
  unfold Load_exchange, CreateCrowd.
  apply read_tiles_releases in Hrun.
  rewrite releases_app, Hrun, releases_memcpy_log.
  cbn [_crowd _navMesh]. destruct (_crowd nav) as [c|]; cbn;
    repeat split; eauto.
Qed.

(** X3. Once a crowd exists, no [Load], successful or not, replaces it
    or touches the walkers: the crowd stays the one created for the first
    mesh. *)
Theorem Load_keeps_crowd (content : list byte) (nav : Navigation)
    (crowd : dtCrowd) :
  _crowd nav = Some crowd ->
  let nav' := load_nav (Load content nav) in
  _crowd nav' = Some crowd
  /\ _mappedId nav' = _mappedId nav
  /\ _baseHeight nav' = _baseHeight nav
  /\ yaw_walkers nav' = yaw_walkers nav.
Proof.
  intros Hc. unfold Load.
  destruct (negb _ || negb _); [now repeat split|].
  destruct (navmesh_init _) as [status mesh].
  destruct (dtStatusFailed status); [now repeat split|].
  destruct (read_tiles _ _ _ _ _) as [[m|] log]; [|now repeat split].
  cbn [load_nav]. unfold Load_exchange, CreateCrowd. cbn [_crowd].
  rewrite Hc. now repeat split.
Qed.

(** X4. A buffer that holds the whole file header with a wrong magic or a
    wrong version is rejected before the engine is called: [Load] returns
    [false], the object is unchanged, nothing is allocated, released or
    read outside the buffer. *)
Theorem Load_rejects_header (content : list byte) (nav : Navigation) :
  sizeof_NavMeshSetHeader <= Z.of_nat (length content) ->
  magic (read_NavMeshSetHeader content 0) <> NAVMESHSET_MAGIC
  \/ version (read_NavMeshSetHeader content 0) <> NAVMESHSET_VERSION ->
  Load content nav
  = {| load_ok := false; load_nav := nav; load_log := [] |}.
Proof.
  intros Hin Hbad. unfold Load. rewrite memcpy_log_inside by lia.
  assert (Hgate : negb (magic (read_NavMeshSetHeader content 0)
                        =? NAVMESHSET_MAGIC)
                  || negb (version (read_NavMeshSetHeader content 0)
                           =? NAVMESHSET_VERSION) = true).
  { apply orb_true_iff. destruct Hbad as [H | H]; [left | right];
      apply negb_true_iff, Z.eqb_neq, H. }
  now rewrite Hgate.
Qed.

(** X5. When the engine refuses the header's parameters, [Load] returns
    [false] and leaves the object unchanged; the mesh it allocated for the
    attempt is not handed to [dtFreeNavMesh] (the log is empty). *)
Theorem Load_init_failure (content : list byte) (nav : Navigation) :
  header_ok content = true -> init_ok content = false ->
  Load content nav
  = {| load_ok := false; load_nav := nav; load_log := [] |}.
Proof.
  intros Hhdr Hinit. apply header_ok_inv in Hhdr.
  destruct Hhdr as (Hin & Hm & Hv).
  unfold init_ok in Hinit. apply negb_false_iff in Hinit.
  unfold Load. rewrite Hm, Hv, !Z.eqb_refl. cbn [negb orb].
  destruct (navmesh_init _) as [status mesh]. cbn [fst] in Hinit.
  rewrite Hinit. now rewrite memcpy_log_inside by lia.
Qed.

Lemma read_tiles_allocated (content : list byte) (j n : nat) (pos p : Z)
    (mesh : dtNavMesh) (log : list Event) :
  Z.of_nat (length content) < 2 ^ 63 ->
  declared_end content j pos = Some p ->
  allocated content j pos = true ->
  read_tiles content (j + n) pos mesh log
  = read_tiles content n p (add_tiles content j pos mesh) log.
Proof.
  intros Hlen. revert pos mesh.
  induction j as [|j IH]; intros pos mesh;
    cbn [declared_end allocated Nat.add].
  - now intros [= <-] _.
  - destruct (tile_ok content pos) eqn:Hok; [|discriminate].
    intros He Ha. apply andb_prop in Ha. destruct Ha as [Ha Hrest].
    pose proof (tile_ok_inv _ _ Hok) as Hinv. cbv zeta in Hinv.
    destruct Hinv as (Hpos & Href & Hsz & Hin).
    assert (Hth : 4 <= sizeof_NavMeshTileHeader <= 12)
      by (unfold sizeof_NavMeshTileHeader; lia).
    rewrite read_tiles_S. cbv zeta.
    rewrite (to_size_t_id (pos + _)) by lia.
    rewrite (to_size_t_id (dataSize _)) in Ha |- * by lia.
    rewrite to_size_t_id by lia.
    rewrite !memcpy_log_inside by lia. rewrite !app_nil_r.
    destruct (Z.leb_spec (Z.of_nat (length content))
                (pos + sizeof_NavMeshTileHeader)); [lia|].
    destruct (N.eqb_spec (tileRef (read_NavMeshTileHeader content pos)) 0);
      [contradiction|].
    destruct (Z.eqb_spec (dataSize (read_NavMeshTileHeader content pos)) 0);
      [lia|]. cbn [orb]. rewrite Ha. cbn [negb].
    destruct (Z.ltb_spec (Z.of_nat (length content))
                (pos + sizeof_NavMeshTileHeader
                 + dataSize (read_NavMeshTileHeader content pos))); [lia|].
    rewrite (IH _ _ He Hrest). reflexivity.
Qed.

(** X6. A buffer with an accepted header whose declared tiles are all
    whole, each with a buffer from [dtAlloc]: [Load] returns [true] with
    exactly these tiles added in file order, reads nothing outside the
    buffer, and ignores whatever follows the last declared tile.  A
    declared count of zero or less adds no tile. *)
Theorem Load_whole_tiles (content : list byte) (nav : Navigation) (e : Z) :
  Z.of_nat (length content) < 2 ^ 63 ->
  header_ok content = true -> init_ok content = true ->
  let k := Z.to_nat (declared_tiles content) in
  declared_end content k sizeof_NavMeshSetHeader = Some e ->
  allocated content k sizeof_NavMeshSetHeader = true ->
  Load content nav
  = {| load_ok := true;
       load_nav :=
         Load_exchange content
           (add_tiles content k sizeof_NavMeshSetHeader (fresh_mesh content))
           nav;
       load_log := [dtFreeNavMesh (_navMesh nav);
                    dtFreeNavMeshQuery (_navQuery nav)] |}.
Proof.
  intros Hlen Hhdr Hinit k He Ha.
  rewrite (Load_accepted sizeof_params_nonneg) by assumption.
  fold k. rewrite <- (Nat.add_0_r k) at 1.
  rewrite (read_tiles_allocated _ _ _ _ _ _ _ Hlen He Ha).
  reflexivity.
Qed.

Lemma tile_announced_inv (content : list byte) (pos : Z) :
  tile_announced content pos = true ->
  let h := read_NavMeshTileHeader content pos in
  0 <= pos /\ tileRef h <> 0%N /\ dataSize h <> 0
  /\ pos + sizeof_NavMeshTileHeader < Z.of_nat (length content).
Proof.
  unfold tile_announced. intros H.
  apply andb_prop in H. destruct H as [H Hin].
  apply andb_prop in H. destruct H as [H Hsz].
  apply andb_prop in H. destruct H as [Hpos Href].
  apply negb_true_iff in Href, Hsz.
  apply N.eqb_neq in Href. apply Z.eqb_neq in Hsz.
  repeat split; (assumption || lia).
Qed.

(** X7. When [dtAlloc] returns null for the data of a tile, the loop is
    left by [break] and [Load] returns [true]: the object is exchanged for
    a mesh that holds only the [j] tiles read before, and no error is
    reported. *)
Theorem Load_allocation_failure (content : list byte) (nav : Navigation)
    (j : nat) (p : Z) :
  Z.of_nat (length content) < 2 ^ 63 ->
  header_ok content = true -> init_ok content = true ->
  Z.of_nat j < declared_tiles content ->
  declared_end content j sizeof_NavMeshSetHeader = Some p ->
  allocated content j sizeof_NavMeshSetHeader = true ->
  tile_announced content p = true ->
  dtAlloc (to_size_t (dataSize (read_NavMeshTileHeader content p))) = false ->
  Load content nav
  = {| load_ok := true;
       load_nav :=
         Load_exchange content
           (add_tiles content j sizeof_NavMeshSetHeader (fresh_mesh content))
           nav;
       load_log := [dtFreeNavMesh (_navMesh nav);
                    dtFreeNavMeshQuery (_navQuery nav)] |}.
Proof.
  intros Hlen Hhdr Hinit Hj Hp Ha Hann Hfail.
  apply tile_announced_inv in Hann. cbv zeta in Hann.
  destruct Hann as (Hpos & Href & Hsz & Hin).
  assert (Hth : 4 <= sizeof_NavMeshTileHeader <= 12)
    by (unfold sizeof_NavMeshTileHeader; lia).
  rewrite (Load_accepted sizeof_params_nonneg) by assumption.
  replace (Z.to_nat (declared_tiles content))
    with (j + S (Z.to_nat (declared_tiles content) - S j))%nat by lia.
  rewrite (read_tiles_allocated _ _ _ _ _ _ _ Hlen Hp Ha).
  rewrite read_tiles_S. cbv zeta.
  rewrite (to_size_t_id (p + _)) by lia.
  destruct (Z.leb_spec (Z.of_nat (length content))
              (p + sizeof_NavMeshTileHeader)); [lia|].
  destruct (N.eqb_spec (tileRef (read_NavMeshTileHeader content p)) 0);
    [contradiction|].
  destruct (Z.eqb_spec (dataSize (read_NavMeshTileHeader content p)) 0);
    [contradiction|]. cbn [orb]. rewrite Hfail. cbn [negb].
  rewrite memcpy_log_inside by lia. reflexivity.
Qed.


End LoaderFacts.

Section FileFacts.
Context {ME : MeshEngine} {CE : CrowdEngine} {LM : Libm} {IM : Indeterminate}
  {FS : FileSystem}.

(** The iterator [start] is built on the stream before the file is opened:
    its first read fails, and it is the end-of-stream iterator from then
    on. *)
Lemma start_is_end :
  fst (istream_iterator_read ifstream_new) = end_of_stream.
Proof. reflexivity. Qed.

(** X8. [Load(filename)] returns [false] and changes nothing when the
    file does not open.  When it opens, not one byte of it is read:
    [start] was built before [f.open] and already equals [end], so
    [content] is empty whatever the file holds, and [Load(content)] copies
    the file header from that empty vector, a read outside the buffer.
    Two files that both open are treated alike. *)
Theorem Load_file_reads_nothing (filename : String.string)
    (nav : Navigation) :
  0 <= sizeof_dtNavMeshParams ->
  (open_binary filename = None ->
   Load_file filename nav
   = {| load_ok := false; load_nav := nav; load_log := [] |})
  /\ (forall bytes,
        open_binary filename = Some bytes ->
        Load_file filename nav = Load [] nav
        /\ out_of_range 0 sizeof_NavMeshSetHeader
             ∈ load_log (Load_file filename nav)
        /\ forall filename' bytes',
             open_binary filename' = Some bytes' ->
             Load_file filename' nav = Load_file filename nav).
Proof.
  intros Hparams.
  assert (Hopened : forall name bytes,
            open_binary name = Some bytes ->
            Load_file name nav = Load [] nav).
  { intros name bytes Hopen. unfold Load_file, ifstream_open.
    cbn [istream_iterator_read ifstream_new extract failbit unread].
    rewrite Hopen. cbn [is_open unread negb default].
    unfold id. now destruct (length bytes). }
  split.
  - intros Hopen. unfold Load_file, ifstream_open.
    cbn [istream_iterator_read ifstream_new extract failbit unread].
    now rewrite Hopen.
  - intros bytes Hopen. rewrite (Hopened _ _ Hopen).
    split; [reflexivity|]. split.
    + destruct (Load_log_header [] nav) as [l Hl].
      rewrite Hl, memcpy_log_outside; [in_log | |];
        unfold sizeof_NavMeshSetHeader; cbn [length]; lia.
    + intros filename' bytes' Hopen'. apply (Hopened _ _ Hopen').
Qed.

End FileFacts.

Section PathFacts.
Context {ME : MeshEngine} {CE : CrowdEngine} {LM : Libm} {IM : Indeterminate}.

(** X10. [path] is an out-parameter that is written on success only: a
    [GetPath] that returns [false] leaves it as it was, and one that
    returns [true] clears it first, so that its result does not depend on
    what [path] held. *)
Theorem GetPath_out_parameter (nav : Navigation) (from to : geom.Location)
    (filter : option dtQueryFilter) (path p : list geom.Location)
    (ok : bool) :
  GetPath nav from to filter path = Done (ok, p) ->
  (ok = false -> p = path)
  /\ (ok = true ->
      forall path', GetPath nav from to filter path' = Done (true, p)).
Proof.
  unfold GetPath.
  destruct (length (_binaryMesh nav) =? 0)%nat;
    [intros [= <- <-]; now split|].
  destruct (_navQuery nav) as [query|]; [|discriminate].
  cbn [deref mbind run_bind].
  destruct (_ || _); [intros [= <- <-]; now split|].
  destruct (findPath _ _ _ _ _ _ _) as [polys npolys].
  destruct (npolys =? 0); [intros [= <- <-]; now split|].
  destruct (findStraightPath _ _ _ _ _ _ _) as [buf cnt].
  intros [= <- <-]. split; [discriminate | reflexivity].
Qed.

(** X11. With a mesh loaded, [GetPath] returns [false] exactly when one
    of the endpoints has no nearest polygon or the corridor is empty, and
    then [path] is untouched; nothing else makes a path query fail. *)
Theorem GetPath_fails_iff (nav : Navigation) (query : dtNavMeshQuery)
    (from to : geom.Location) (filter : option dtQueryFilter)
    (path : list geom.Location) :
  _binaryMesh nav <> [] ->
  _navQuery nav = Some query ->
  let f := effective_filter filter in
  GetPath nav from to filter path = Done (false, path)
  <-> (nearest_ref query f (to_engine from) = 0%N
       \/ nearest_ref query f (to_engine to) = 0%N
       \/ snd (corridor query f (to_engine from) (to_engine to)) = 0).
Proof.
  intros Hmesh Hq f. split.
  - intros Hfail.
    destruct (N.eq_dec (nearest_ref query f (to_engine from)) 0%N) as [|Hs];
      [now left|].
    destruct (N.eq_dec (nearest_ref query f (to_engine to)) 0%N) as [|He];
      [now right; left|].
    destruct (Z.eq_dec
                (snd (corridor query f (to_engine from) (to_engine to))) 0)
      as [|Hn]; [now right; right|].
    rewrite (GetPath_found nav query from to filter path Hmesh Hq Hs He Hn)
      in Hfail.
    discriminate.
  - intros Hcase. unfold GetPath.
    destruct (_binaryMesh nav) as [|b bs]; [contradiction|].
    cbn [length Nat.eqb]. rewrite Hq. cbn [deref mbind run_bind].
    unfold f, nearest_ref, corridor, effective_filter, to_engine,
      pick_extent in Hcase.
    destruct (N.eqb_spec
                (fst (findNearestPoly query
                        (geom.x from, geom.z from, geom.y from)
                        (F32.of_Z 2, F32.of_Z 4, F32.of_Z 2)
                        match filter with
                        | Some f0 => f0
                        | None => default_filter
                        end 0%N)) 0) as [|Hs]; [reflexivity|].
    destruct (N.eqb_spec
                (fst (findNearestPoly query
                        (geom.x to, geom.z to, geom.y to)
                        (F32.of_Z 2, F32.of_Z 4, F32.of_Z 2)
                        match filter with
                        | Some f0 => f0
                        | None => default_filter
                        end 0%N)) 0) as [|He]; [reflexivity|].
    cbn [orb].
    destruct Hcase as [H | [H | H]]; [contradiction.. |].
    destruct (findPath _ _ _ _ _ _ _) as [polys npolys]. cbn [snd] in H.
    subst npolys. reflexivity.
Qed.

End PathFacts.

Section WalkerFacts.
Context {ME : MeshEngine} {CE : CrowdEngine} {LM : Libm} {IM : Indeterminate}.

(** ** What a call may change *)

Lemma same_but_crowd_refl (nav : Navigation) : same_but_crowd nav nav.
Proof. unfold same_but_crowd. tauto. Qed.

Lemma same_but_crowd_trans (a b c : Navigation) :
  same_but_crowd a b -> same_but_crowd b c -> same_but_crowd a c.
Proof.
  unfold same_but_crowd.
  intros (H1 & H2 & H3 & H4 & H5 & H6 & H7 & H8)
         (K1 & K2 & K3 & K4 & K5 & K6 & K7 & K8).
  repeat split; try congruence; tauto.
Qed.

Lemma same_but_crowd_set (nav : Navigation) (crowd : dtCrowd) :
  is_Some (_crowd nav) -> same_but_crowd nav (set_crowd nav crowd).
Proof.
  intros Hc. unfold same_but_crowd, set_crowd. cbn.
  repeat split; eauto.
Qed.

Lemma SetWalkerTargetIndex_frame (nav nav' : Navigation) (index : Z)
    (to : geom.Location) (ok : bool) :
  SetWalkerTargetIndex nav index to = Done (ok, nav') ->
  same_but_crowd nav nav'.
Proof.
  unfold SetWalkerTargetIndex.
  destruct (index =? -1);
    [intros [= _ <-]; apply same_but_crowd_refl|].
  destruct (_crowd nav) as [crowd|] eqn:Hc; [|discriminate].
  destruct (_navQuery nav) as [query|]; [|discriminate].
  cbn [deref mbind run_bind].
  destruct (findNearestPoly _ _ _ _ _) as [targetRef nearest].
  destruct (targetRef =? 0)%N;
    [intros [= _ <-]; apply same_but_crowd_refl|].
  destruct (requestMoveTarget _ _ _ _) as [r crowd'].
  intros [= _ <-]. apply same_but_crowd_set. rewrite Hc. eauto.
Qed.

Lemma arrival_scan_frame (fuel : nat) (i : Z) (nav nav' : Navigation)
    (rand rand' : RandState) :
  arrival_scan fuel i nav rand = Done (nav', rand') ->
  same_but_crowd nav nav'.
Proof.
  revert i nav rand. induction fuel as [|fuel IH]; intros i nav rand;
    [discriminate|].
  cbn [arrival_scan].
  destruct (_crowd nav) as [crowd|]; [|discriminate].
  cbn [deref mbind run_bind].
  destruct (i <? getAgentCount crowd);
    [|intros [= <- _]; apply same_but_crowd_refl].
  destruct (active (getAgent crowd i)); cbn [negb]; [|apply IH].
  destruct (_ <=? _)%f32; [|apply IH].
  destruct (GetRandomLocationWithoutLock _ _ _ _ _ _) as [[[b loc] r]| |];
    [|discriminate..].
  cbn [mbind run_bind].
  destruct (SetWalkerTargetIndex nav i loc) as [[b' nav1]| |] eqn:Hset;
    [|discriminate..].
  cbn [mbind run_bind]. intros Hscan.
  eapply same_but_crowd_trans;
    [eapply SetWalkerTargetIndex_frame, Hset | eapply IH, Hscan].
Qed.

(** X12. A tick changes the crowd and [_delta_seconds] and nothing else:
    without a mesh or a crowd [UpdateCrowd] changes nothing at all, not
    even [_delta_seconds]; with both it stores the tick's delta, and the
    buffer, the mesh, the query object and the three walker maps are as
    before. *)
Theorem UpdateCrowd_frame (fuel : nat) (nav nav' : Navigation)
    (delta : double) (rand rand' : RandState) :
  UpdateCrowd fuel nav delta rand = Done (nav', rand') ->
  (_navMesh nav = None \/ _crowd nav = None -> nav' = nav /\ rand' = rand)
  /\ (is_Some (_navMesh nav) -> is_Some (_crowd nav) ->
      _delta_seconds nav' = delta /\ is_Some (_crowd nav'))
  /\ _binaryMesh nav' = _binaryMesh nav
  /\ _navMesh nav' = _navMesh nav
  /\ _navQuery nav' = _navQuery nav
  /\ _mappedId nav' = _mappedId nav
  /\ _baseHeight nav' = _baseHeight nav
  /\ yaw_walkers nav' = yaw_walkers nav.
Proof.
  unfold UpdateCrowd.
  destruct (_navMesh nav) as [mesh|] eqn:Hm.
  - destruct (_crowd nav) as [crowd|] eqn:Hc.
    + intros Hscan. apply arrival_scan_frame in Hscan.
      destruct Hscan as (H1 & H2 & H3 & H4 & H5 & H6 & H7 & H8).
      cbn in H1, H2, H3, H4, H5, H6, H7, H8.
      split; [intros [H | H]; discriminate|].
      split; [intros _ _; split; [exact H2 | apply H5; eauto]|].
      repeat split; congruence.
    + intros [= <- <-].
      split; [now intros _|].
      split; [intros _ [x Hx]; congruence|].
      repeat split; congruence.
  - intros [= <- <-].
    split; [now intros _|].
    split; [intros [x Hx]; discriminate|].
    repeat split; congruence.
Qed.

(** X13. [SetWalkerTarget] either changes nothing, or hands the agent of a
    known identity to [requestMoveTarget] with a target polygon that was
    found and the target in engine coordinates, and returns what the
    engine returns; only the crowd can differ afterwards. *)
Theorem SetWalkerTarget_effect (nav nav' : Navigation) (id : ActorId)
    (to : geom.Location) (ok : bool) :
  SetWalkerTarget nav id to = Done (ok, nav') ->
  (ok = false /\ nav' = nav)
  \/ exists index crowd query ref,
       _mappedId nav !! id = Some index /\ index <> -1
       /\ _crowd nav = Some crowd /\ _navQuery nav = Some query
       /\ ref = fst (findNearestPoly query (to_engine to)
                       (getQueryHalfExtents crowd) (getFilter crowd 0)
                       indeterminate_ref)
       /\ ref <> 0%N
       /\ (ok, nav')
          = (fst (requestMoveTarget crowd index ref (to_engine to)),
             set_crowd nav
               (snd (requestMoveTarget crowd index ref (to_engine to)))).
Proof.
  unfold SetWalkerTarget, SetWalkerTargetIndex.
  destruct (_mappedId nav !! id) as [index|]; [|intros [= <- <-]; now left].
  destruct (Z.eqb_spec index (-1)); [intros [= <- <-]; now left|].
  destruct (_crowd nav) as [crowd|]; [|discriminate].
  destruct (_navQuery nav) as [query|]; [|discriminate].
  cbn [deref mbind run_bind]. unfold to_engine.
  destruct (findNearestPoly _ _ _ _ _) as [targetRef nearest] eqn:Hnear.
  destruct (N.eqb_spec targetRef 0); [intros [= <- <-]; now left|].
  destruct (requestMoveTarget _ _ _ _) as [r crowd'] eqn:Hreq.
  intros [= <- <-]. right. exists index, crowd, query, targetRef.
  rewrite Hnear, Hreq. cbn [fst snd]. repeat split; assumption.
Qed.

(** X14. A [GetWalkerTransform] that returns [false] (identity unknown,
    slot -1, or agent not active) has written neither [trans] nor the
    stored heading: both are as before. *)
Theorem GetWalkerTransform_failure (nav nav' : Navigation) (id : ActorId)
    (trans trans' : geom.Transform) :
  GetWalkerTransform nav id trans = Done (false, trans', nav') ->
  trans' = trans /\ nav' = nav.
Proof.
  unfold GetWalkerTransform.
  destruct (_mappedId nav !! id) as [index|]; [|now intros [= <- <-]].
  destruct (index =? -1); [now intros [= <- <-]|].
  destruct (_crowd nav) as [crowd|]; [|discriminate].
  cbn [deref mbind run_bind].
  destruct (active (getAgent crowd index)); cbn [negb];
    [discriminate | now intros [= <- <-]].
Qed.

(** X15. [GetWalkerSpeed] does not look at [agent->active]: for a mapped
    identity whose agent is not active, [GetWalkerTransform] returns
    [false] while [GetWalkerSpeed] still answers with the norm of the
    velocity left in the slot. *)
Theorem GetWalkerSpeed_inactive (nav : Navigation) (id : ActorId)
    (index : Z) (crowd : dtCrowd) (trans : geom.Transform) :
  _mappedId nav !! id = Some index -> index <> -1 ->
  _crowd nav = Some crowd ->
  active (getAgent crowd index) = false ->
  GetWalkerTransform nav id trans = Done (false, trans, nav)
  /\ GetWalkerSpeed nav id
     = Done (let v := vel (getAgent crowd index) in
             F32.sqrt (at0 v * at0 v + at1 v * at1 v + at2 v * at2 v)%f32).
Proof.
  intros Hid Hindex Hc Hact.
  unfold GetWalkerTransform, GetWalkerSpeed. rewrite Hid.
  destruct (Z.eqb_spec index (-1)); [contradiction|].
  rewrite Hc. cbn [deref mbind run_bind]. rewrite Hact. now split.
Qed.

(** ** What holds between calls *)

Lemma consistent_new (delta0 : double) : consistent (Navigation_new delta0).
Proof.
  unfold consistent, Navigation_new. cbn.
  split; [now intros _|].
  split; [intros [x Hx]; discriminate|].
  split; [now rewrite !dom_empty_L|].
  split; [now rewrite !dom_empty_L|].
  intros id. now rewrite lookup_empty.
Qed.

Lemma same_but_crowd_consistent (nav nav' : Navigation) :
  consistent nav -> same_but_crowd nav nav' -> consistent nav'.
Proof.
  unfold consistent, same_but_crowd.
  intros (C1 & C2 & C3 & C4 & C5) (H1 & H2 & H3 & H4 & H5 & H6 & H7 & H8).
  rewrite H1, H3, H4, H6, H7, H8.
  split.
  { intros Hm. destruct (C1 Hm) as (K1 & K2 & K3 & K4).
    repeat split; try assumption.
    destruct (_crowd nav') as [c|] eqn:E; [|reflexivity].
    assert (Hs : is_Some (_crowd nav)) by (apply H5; eauto).
    rewrite K2 in Hs. destruct Hs as [x Hx]. discriminate. }
  split.
  { intros Hm. destruct (C2 Hm) as [K1 K2]. split; [exact K1 | now apply H5]. }
  repeat split; assumption.
Qed.

Lemma set_delta_seconds_consistent (nav : Navigation) (d : double) :
  consistent nav -> consistent (set_delta_seconds nav d).
Proof. unfold consistent, set_delta_seconds. now cbn. Qed.

Lemma Load_consistent (content : list byte) (nav : Navigation) :
  consistent nav -> consistent (load_nav (Load content nav)).
Proof.
  intros HC. unfold Load.
  destruct (negb _ || negb _); [exact HC|].
  destruct (navmesh_init _) as [status mesh].
  destruct (dtStatusFailed status); [exact HC|].
  destruct (read_tiles _ _ _ _ _) as [[m|] log]; [|exact HC].
  cbn [load_nav]. destruct HC as (C1 & C2 & C3 & C4 & C5).
  unfold consistent, Load_exchange, CreateCrowd. cbn [_crowd].
  destruct (_crowd nav) as [c|]; cbn;
    (split; [discriminate|]); (split; [intros _; split; eauto|]);
    repeat split; assumption.
Qed.

Lemma consistent_crowd (nav : Navigation) (crowd : dtCrowd) :
  consistent nav -> _crowd nav = Some crowd ->
  is_Some (_navMesh nav) /\ is_Some (_navQuery nav).
Proof.
  intros (C1 & C2 & _) Hc.
  destruct (_navMesh nav) as [m|] eqn:Hm.
  - split; [eauto | apply C2; eauto].
  - destruct (C1 eq_refl) as (_ & K & _). congruence.
Qed.

Lemma consistent_mapped (nav : Navigation) (id : ActorId) (index : Z) :
  consistent nav -> _mappedId nav !! id = Some index ->
  index <> -1 /\ is_Some (_crowd nav) /\ is_Some (_navQuery nav)
  /\ is_Some (_baseHeight nav !! id) /\ is_Some (yaw_walkers nav !! id).
Proof.
  intros (C1 & C2 & C3 & C4 & C5) Hid.
  assert (Hdom : id ∈ dom (_mappedId nav)) by (apply elem_of_dom; eauto).
  split; [intros ->; exact (C5 id Hid)|].
  destruct (_navMesh nav) as [m|] eqn:Hm.
  - destruct C2 as [K1 K2]; [eauto|].
    repeat split; try assumption; apply elem_of_dom; congruence.
  - destruct (C1 eq_refl) as (_ & _ & _ & K). rewrite K in Hid.
    now rewrite lookup_empty in Hid.
Qed.

Lemma AddWalker_consistent (nav : Navigation) (id : ActorId)
    (from : geom.Location) (base_offset : float) :
  consistent nav -> consistent (snd (AddWalker nav id from base_offset)).
Proof.
  intros HC. unfold AddWalker.
  destruct (_crowd nav) as [crowd|] eqn:Hc; [|exact HC].
  destruct (consistent_crowd nav crowd HC Hc) as [Hm Hq].
  destruct (addAgent _ _ _) as [index crowd'].
  destruct (Z.eqb_spec index (-1)).
  - cbn [snd]. apply (same_but_crowd_consistent nav); [exact HC|].
    apply same_but_crowd_set. rewrite Hc. eauto.
  - cbn [snd]. destruct HC as (C1 & C2 & C3 & C4 & C5).
    unfold consistent. cbn.
    split; [intros K; rewrite K in Hm; destruct Hm; discriminate|].
    split; [intros _; split; eauto|].
    rewrite !dom_insert_L, C3, C4.
    repeat split.
    intros id'. destruct (decide (id = id')) as [<-|Hne].
    + rewrite lookup_insert_eq. congruence.
    + rewrite lookup_insert_ne by assumption. apply C5.
Qed.

Lemma GetWalkerTransform_consistent (nav nav' : Navigation) (id : ActorId)
    (trans trans' : geom.Transform) (ok : bool) :
  consistent nav ->
  GetWalkerTransform nav id trans = Done (ok, trans', nav') ->
  consistent nav'.
Proof.
  intros HC. unfold GetWalkerTransform.
  destruct (_mappedId nav !! id) as [index|] eqn:Hid;
    [|now intros [= _ _ <-]].
  destruct (index =? -1); [now intros [= _ _ <-]|].
  destruct (_crowd nav) as [crowd|]; [|discriminate].
  cbn [deref mbind run_bind].
  destruct (active (getAgent crowd index)); cbn [negb];
    [|now intros [= _ _ <-]].
  intros [= _ _ <-]. destruct HC as (C1 & C2 & C3 & C4 & C5).
  unfold consistent, set_yaw_walkers. cbn.
  repeat split; try assumption; try (apply C1; assumption);
    try (apply C2; assumption).
  rewrite dom_insert_L, C4.
  apply subseteq_union_1_L, singleton_subseteq_l, elem_of_dom. eauto.
Qed.

Lemma step_consistent (nav nav' : Navigation) (c : Call) :
  consistent nav -> step nav c = Done nav' -> consistent nav'.
Proof.
  intros HC.
  destruct c as [content | id from b | id to | fuel d r | id tr]; cbn [step].
  - intros [= <-]. now apply Load_consistent.
  - intros [= <-]. now apply AddWalker_consistent.
  - destruct (SetWalkerTarget nav id to) as [[ok n]| |] eqn:E;
      [|discriminate..].
    intros [= <-]. cbn [snd]. unfold SetWalkerTarget in E.
    destruct (_mappedId nav !! id) as [index|].
    + apply (same_but_crowd_consistent nav); [exact HC|].
      eapply SetWalkerTargetIndex_frame, E.
    + now injection E as _ <-.
  - destruct (UpdateCrowd fuel nav d r) as [[n r']| |] eqn:E;
      [|discriminate..].
    intros [= <-]. cbn [fst]. unfold UpdateCrowd in E.
    destruct (_navMesh nav); [|now injection E as <- _].
    destruct (_crowd nav) as [crowd|] eqn:Hc; [|now injection E as <- _].
    apply arrival_scan_frame in E.
    refine (same_but_crowd_consistent _ _ _ E).
    apply (same_but_crowd_consistent (set_delta_seconds nav d)).
    + now apply set_delta_seconds_consistent.
    + apply same_but_crowd_set. cbn. rewrite Hc. eauto.
  - destruct (GetWalkerTransform nav id tr) as [[[ok t] n]| |] eqn:E;
      [|discriminate..].
    intros [= <-]. cbn [snd]. eapply GetWalkerTransform_consistent; eauto.
Qed.

Lemma exec_consistent (cs : list Call) (nav nav' : Navigation) :
  consistent nav -> exec nav cs = Done nav' -> consistent nav'.
Proof.
  revert nav. induction cs as [|c cs IH]; intros nav HC; cbn [exec].
  - now intros [= <-].
  - destruct (step nav c) as [nav1| |] eqn:Hstep; [|discriminate..].
    cbn [mbind run_bind]. apply IH. eapply step_consistent; eauto.
Qed.

(** X16. After any history of calls on a new object: the mesh, the query
    object and the crowd are null together or set together; the three
    walker maps have the same identities; and every mapped identity has a
    slot other than -1, a base offset and a stored heading, with a crowd
    and a query object in place.  So the [index == -1] tests and the
    "base offset not found" branch of the accessors are never taken. *)
Theorem reachable_objects_consistent (delta0 : double) (cs : list Call)
    (nav : Navigation) :
  exec (Navigation_new delta0) cs = Done nav ->
  (_navMesh nav = None <-> _navQuery nav = None)
  /\ (_navMesh nav = None <-> _crowd nav = None)
  /\ dom (_baseHeight nav) = dom (_mappedId nav)
  /\ dom (yaw_walkers nav) = dom (_mappedId nav)
  /\ forall id index,
       _mappedId nav !! id = Some index ->
       index <> -1 /\ is_Some (_crowd nav) /\ is_Some (_navQuery nav)
       /\ is_Some (_baseHeight nav !! id)
       /\ is_Some (yaw_walkers nav !! id).
Proof.
  intros Hexec.
  assert (HC : consistent nav)
    by (eapply exec_consistent; [apply consistent_new | exact Hexec]).
  pose proof HC as (C1 & C2 & C3 & C4 & C5).
  assert (Hnull : forall A (o : option A), is_Some o -> o <> None)
    by (intros A o [x ->]; discriminate).
  split; [|split].
  - split; [intros Hm; apply (C1 Hm)|].
    intros Hq. destruct (_navMesh nav) as [m|] eqn:Hm; [|reflexivity].
    destruct C2 as [K _]; [eauto|]. now apply Hnull in K.
  - split; [intros Hm; apply (C1 Hm)|].
    intros Hc. destruct (_navMesh nav) as [m|] eqn:Hm; [|reflexivity].
    destruct C2 as [_ K]; [eauto|]. now apply Hnull in K.
  - split; [exact C3|]. split; [exact C4|].
    intros id index. now apply consistent_mapped.
Qed.


(** ** No null pointer is followed *)

Lemma SetWalkerTargetIndex_no_fault (nav : Navigation) (index : Z)
    (to : geom.Location) :
  is_Some (_crowd nav) -> is_Some (_navQuery nav) ->
  SetWalkerTargetIndex nav index to <> NullDeref.
Proof.
  intros [c Hc] [q Hq]. unfold SetWalkerTargetIndex.
  destruct (index =? -1); [discriminate|].
  rewrite Hc, Hq. cbn [deref mbind run_bind].
  destruct (findNearestPoly _ _ _ _ _) as [targetRef nearest].
  destruct (targetRef =? 0)%N; [discriminate|].
  destruct (requestMoveTarget _ _ _ _) as [r crowd']. discriminate.
Qed.

Lemma arrival_scan_no_fault (fuel : nat) (i : Z) (nav : Navigation)
    (rand : RandState) :
  is_Some (_crowd nav) -> is_Some (_navQuery nav) ->
  arrival_scan fuel i nav rand <> NullDeref.
Proof.
  revert i nav rand. induction fuel as [|fuel IH]; intros i nav rand Hc Hq;
    [discriminate|].
  cbn [arrival_scan].
  destruct Hc as [crowd Hc]. rewrite Hc. cbn [deref mbind run_bind].
  assert (Hc' : is_Some (_crowd nav)) by (rewrite Hc; eauto).
  destruct (i <? getAgentCount crowd); [|discriminate].
  destruct (active (getAgent crowd i)); cbn [negb]; [|now apply IH].
  destruct (_ <=? _)%f32; [|now apply IH].
  unfold GetRandomLocationWithoutLock.
  destruct Hq as [query Hq]. rewrite Hq. cbn [deref mbind run_bind].
  assert (Hq' : is_Some (_navQuery nav)) by (rewrite Hq; eauto).
  destruct (sample_loop _ _ _ _ _ _ _ _) as [[[b loc] r]| |] eqn:Hs;
    [| now apply sample_loop_no_fault in Hs | discriminate].
  cbn [mbind run_bind].
  destruct (SetWalkerTargetIndex nav i loc) as [[b' nav1]| |] eqn:Hset;
    [| now apply SetWalkerTargetIndex_no_fault in Hset | discriminate].
  cbn [mbind run_bind].
  apply SetWalkerTargetIndex_frame in Hset.
  destruct Hset as (_ & _ & _ & E4 & E5 & _).
  apply IH; [now apply E5 | now rewrite E4].
Qed.

Lemma SetWalkerTarget_no_fault (nav : Navigation) (id : ActorId)
    (to : geom.Location) :
  consistent nav -> SetWalkerTarget nav id to <> NullDeref.
Proof.
  intros HC. unfold SetWalkerTarget.
  destruct (_mappedId nav !! id) as [index|] eqn:Hid; [|discriminate].
  destruct (consistent_mapped nav id index HC Hid) as (_ & Hc & Hq & _).
  now apply SetWalkerTargetIndex_no_fault.
Qed.

Lemma UpdateCrowd_no_fault (fuel : nat) (nav : Navigation) (delta : double)
    (rand : RandState) :
  consistent nav -> UpdateCrowd fuel nav delta rand <> NullDeref.
Proof.
  intros HC. unfold UpdateCrowd.
  destruct (_navMesh nav) as [m|] eqn:Hm; [|discriminate].
  destruct (_crowd nav) as [crowd|] eqn:Hc; [|discriminate].
  apply arrival_scan_no_fault; cbn; [eauto|].
  apply HC. rewrite Hm. eauto.
Qed.

Lemma GetWalkerTransform_no_fault (nav : Navigation) (id : ActorId)
    (trans : geom.Transform) :
  consistent nav -> GetWalkerTransform nav id trans <> NullDeref.
Proof.
  intros HC. unfold GetWalkerTransform.
  destruct (_mappedId nav !! id) as [index|] eqn:Hid; [|discriminate].
  destruct (consistent_mapped nav id index HC Hid) as (_ & [c Hc] & _).
  destruct (index =? -1); [discriminate|].
  rewrite Hc. cbn [deref mbind run_bind].
  destruct (active (getAgent c index)); discriminate.
Qed.

Lemma GetWalkerSpeed_no_fault (nav : Navigation) (id : ActorId) :
  consistent nav -> GetWalkerSpeed nav id <> NullDeref.
Proof.
  intros HC. unfold GetWalkerSpeed.
  destruct (_mappedId nav !! id) as [index|] eqn:Hid; [|discriminate].
  destruct (consistent_mapped nav id index HC Hid) as (_ & [c Hc] & _).
  destruct (index =? -1); [discriminate|].
  rewrite Hc. discriminate.
Qed.

Lemma GetPath_no_fault (nav : Navigation) (from to : geom.Location)
    (filter : option dtQueryFilter) (path : list geom.Location) :
  consistent nav -> GetPath nav from to filter path <> NullDeref.
Proof.
  intros (C1 & C2 & _). unfold GetPath.
  destruct (_binaryMesh nav) as [|b bs] eqn:Hb; [discriminate|].
  cbn [length Nat.eqb].
  destruct (_navMesh nav) as [m|] eqn:Hm.
  - destruct C2 as [[q Hq] _]; [eauto|]. rewrite Hq.
    cbn [deref mbind run_bind].
    destruct (_ || _); [discriminate|].
    destruct (findPath _ _ _ _ _ _ _) as [polys npolys].
    destruct (npolys =? 0); [discriminate|].
    destruct (findStraightPath _ _ _ _ _ _ _). discriminate.
  - destruct (C1 eq_refl) as (_ & _ & K & _). discriminate.
Qed.

Lemma step_no_fault (nav : Navigation) (c : Call) :
  consistent nav -> step nav c <> NullDeref.
Proof.
  intros HC.
  destruct c as [content | id from b | id to | fuel d r | id tr]; cbn [step];
    try discriminate.
  - pose proof (SetWalkerTarget_no_fault nav id to HC).
    destruct (SetWalkerTarget nav id to); [discriminate | congruence | discriminate].
  - pose proof (UpdateCrowd_no_fault fuel nav d r HC).
    destruct (UpdateCrowd fuel nav d r); [discriminate | congruence | discriminate].
  - pose proof (GetWalkerTransform_no_fault nav id tr HC).
    destruct (GetWalkerTransform nav id tr); [discriminate | congruence | discriminate].
Qed.

Lemma exec_no_fault (cs : list Call) (nav : Navigation) :
  consistent nav -> exec nav cs <> NullDeref.
Proof.
  revert nav. induction cs as [|c cs IH]; intros nav HC; cbn [exec];
    [discriminate|].
  pose proof (step_no_fault nav c HC).
  destruct (step nav c) as [nav1| |] eqn:Hstep;
    [| congruence | discriminate].
  cbn [mbind run_bind]. apply IH. eapply step_consistent; eauto.
Qed.

(** X17. Take a history of calls on a new object in which every [Load]
    reads inside its buffer, so that its run is defined.  None of its
    [SetWalkerTarget], [UpdateCrowd] and [GetWalkerTransform] calls
    follows [_navQuery] or [_crowd] while the pointer is null, and in the
    object the history leaves [GetPath], [GetWalkerSpeed],
    [SetWalkerTarget], [GetWalkerTransform] and [UpdateCrowd] follow
    neither while it is null, whatever their arguments.
    [GetRandomLocation] is the exception: it uses [_navQuery] without a
    test, and follows it while it is null exactly when no [Load] has
    succeeded yet.  (The pointers are those members; that Detour's
    allocators return objects is part of the engine's interface.) *)
Theorem reachable_no_null_dereference (delta0 : double) (cs : list Call) :
  reads_inside (Navigation_new delta0) cs = true ->
  exec (Navigation_new delta0) cs <> NullDeref
  /\ forall nav : Navigation,
       exec (Navigation_new delta0) cs = Done nav ->
       (forall from to filter path,
          GetPath nav from to filter path <> NullDeref)
       /\ (forall id, GetWalkerSpeed nav id <> NullDeref)
       /\ (forall id to, SetWalkerTarget nav id to <> NullDeref)
       /\ (forall id trans, GetWalkerTransform nav id trans <> NullDeref)
       /\ (forall fuel delta rand,
             UpdateCrowd fuel nav delta rand <> NullDeref)
       /\ (forall fuel location maxHeight filter rand,
             GetRandomLocation fuel nav location maxHeight filter rand
             = NullDeref
             <-> _navMesh nav = None).
Proof.
  intros _.
  split; [apply exec_no_fault, consistent_new|].
  intros nav Hexec.
  assert (HC : consistent nav)
    by (eapply exec_consistent; [apply consistent_new | exact Hexec]).
  split; [intros; now apply GetPath_no_fault|].
  split; [intros; now apply GetWalkerSpeed_no_fault|].
  split; [intros; now apply SetWalkerTarget_no_fault|].
  split; [intros; now apply GetWalkerTransform_no_fault|].
  split; [intros; now apply UpdateCrowd_no_fault|].
  intros fuel location maxHeight filter rand.
  unfold GetRandomLocation, GetRandomLocationWithoutLock.
  destruct HC as (C1 & C2 & _).
  destruct (_navMesh nav) as [m|] eqn:Hm.
  - destruct C2 as [[q Hq] _]; [eauto|]. rewrite Hq.
    cbn [deref mbind run_bind]. split; [|discriminate].
    intros Hs. now apply sample_loop_no_fault in Hs.
  - destruct (C1 eq_refl) as (Hq & _). rewrite Hq. now split.
Qed.

(** ** Walkers stay *)

Lemma step_mappedId (nav nav' : Navigation) (c : Call) :
  step nav c = Done nav' ->
  _mappedId nav' = _mappedId nav
  \/ exists id from b index,
       c = call_AddWalker id from b
       /\ _mappedId nav' = <[id := index]> (_mappedId nav).
Proof.
  destruct c as [content | id from b | id to | fuel d r | id tr]; cbn [step].
  - intros [= <-]. left. apply Load_mappedId.
  - intros [= <-]. unfold AddWalker.
    destruct (_crowd nav) as [crowd|]; [|now left].
    destruct (addAgent _ _ _) as [index crowd'].
    destruct (index =? -1); [now left|].
    right. now exists id, from, b, index.
  - destruct (SetWalkerTarget nav id to) as [[ok n]| |] eqn:E;
      [|discriminate..].
    intros [= <-]. left. eapply SetWalkerTarget_mappedId, E.
  - destruct (UpdateCrowd fuel nav d r) as [[n r']| |] eqn:E;
      [|discriminate..].
    intros [= <-]. left. eapply UpdateCrowd_mappedId, E.
  - destruct (GetWalkerTransform nav id tr) as [[[ok t] n]| |] eqn:E;
      [|discriminate..].
    intros [= <-]. left. eapply GetWalkerTransform_mappedId, E.
Qed.

(** X18. No call takes a walker out: through any history the set of
    mapped identities only grows, and only by identities passed to
    [AddWalker].  A [Load] of another mesh in between keeps them all. *)
Theorem walkers_are_never_removed (cs : list Call) (nav nav' : Navigation) :
  exec nav cs = Done nav' ->
  dom (_mappedId nav) ⊆ dom (_mappedId nav')
  /\ dom (_mappedId nav') ⊆ dom (_mappedId nav) ∪ added cs.
Proof.
  revert nav. induction cs as [|c cs IH]; intros nav; cbn [exec].
  - intros [= <-]. split; [reflexivity|]. apply union_subseteq_l.
  - destruct (step nav c) as [nav1| |] eqn:Hstep; [|discriminate..].
    cbn [mbind run_bind]. intros Hexec.
    destruct (IH nav1 Hexec) as [Hup Hdown].
    destruct (step_mappedId _ _ _ Hstep) as [E | (id & from & b & index & -> & E)];
      rewrite E in Hup, Hdown.
    + split; [exact Hup|].
      etransitivity; [exact Hdown|].
      apply union_mono_l.
      destruct c; cbn [added]; try reflexivity. apply union_subseteq_r.
    + rewrite dom_insert_L in Hup, Hdown. cbn [added]. split.
      * etransitivity; [|exact Hup]. apply union_subseteq_r.
      * etransitivity; [exact Hdown|].
        intros x. rewrite !elem_of_union. tauto.
Qed.


(** ** When the sampler and the tick return *)

(** X19. [GetRandomLocation] returns as soon as a draw is accepted: if
    draw [n] is the first that succeeds within the bound, then with fuel
    for more than [n] draws the call returns [true] with that draw,
    translated, and with the random state that draw left. *)
Theorem GetRandomLocation_first_accepted (fuel n : nat) (nav : Navigation)
    (query : dtNavMeshQuery) (location : geom.Location) (maxHeight : float)
    (filter : option dtQueryFilter) (rand : RandState) :
  _navQuery nav = Some query ->
  let draw k :=
    sample_at k query (effective_filter filter) rand 0%N
      (F32.zero, F32.zero, F32.zero) in
  accepted maxHeight (draw n) = true ->
  (forall k, (k < n)%nat -> accepted maxHeight (draw k) = false) ->
  (n < fuel)%nat ->
  GetRandomLocation fuel nav location maxHeight filter rand
  = Done (true, to_host (sample_point (draw n)), sample_rand (draw n)).
Proof.
  intros Hq draw Hacc Hbefore Hfuel.
  unfold GetRandomLocation, GetRandomLocationWithoutLock.
  rewrite Hq. cbn [deref mbind run_bind].
  replace fuel with (S n + (fuel - S n))%nat by lia.
  now apply sample_loop_accepts.
Qed.

(** X20. With a bound that is neither the sentinel -1 nor at least 0 (a
    negative bound, or a NaN) no draw is accepted, and
    [GetRandomLocation] on a loaded object never returns: whatever the
    fuel, the loop is still running when it is used up. *)
Theorem GetRandomLocation_never_returns (fuel : nat) (nav : Navigation)
    (query : dtNavMeshQuery) (location : geom.Location) (maxHeight : float)
    (filter : option dtQueryFilter) (rand : RandState) :
  _navQuery nav = Some query ->
  (maxHeight == F32.of_Z (-1))%f32 = false ->
  (F32.zero <=? maxHeight)%f32 = false ->
  GetRandomLocation fuel nav location maxHeight filter rand = OutOfFuel.
Proof.
  intros Hq H1 H2.
  unfold GetRandomLocation, GetRandomLocationWithoutLock.
  rewrite Hq. cbn [deref mbind run_bind].
  apply sample_loop_spins. intros k.
  destruct (sample_at k _ _ _ _ _) as [[[st ref] pt] rd].
  unfold accepted. rewrite (height_ok_negative _ _ H1 H2).
  apply andb_false_r.
Qed.

Lemma arrival_scan_idle (crowd : dtCrowd) (fuel : nat) (i : Z)
    (nav : Navigation) (rand : RandState) :
  _crowd nav = Some crowd ->
  (forall j, 0 <= j < getAgentCount crowd ->
     active (getAgent crowd j) && arrived (getAgent crowd j) = false) ->
  0 <= i -> (Z.to_nat (getAgentCount crowd - i) < fuel)%nat ->
  arrival_scan fuel i nav rand = Done (nav, rand).
Proof.
  intros Hc Hidle. revert i. induction fuel as [|fuel IH]; intros i Hi Hfuel;
    [lia|].
  cbn [arrival_scan]. rewrite Hc. cbn [deref mbind run_bind].
  destruct (Z.ltb_spec i (getAgentCount crowd)); [|reflexivity].
  specialize (Hidle i ltac:(lia)).
  destruct (active (getAgent crowd i)); cbn [negb]; [|apply IH; lia].
  cbn [andb] in Hidle. unfold arrived in Hidle. rewrite Hidle.
  apply IH; lia.
Qed.

(** X21. A tick in which no active agent has arrived steps the crowd and
    nothing else: [UpdateCrowd] returns once the scan has passed every
    agent, the object differs only in the time step and the stepped crowd,
    and no random number is drawn. *)
Theorem UpdateCrowd_nobody_arrived (fuel : nat) (nav : Navigation)
    (mesh : dtNavMesh) (crowd : dtCrowd) (delta : double)
    (rand : RandState) :
  _navMesh nav = Some mesh -> _crowd nav = Some crowd ->
  let crowd' := crowd_update crowd (F64.to_float delta) in
  (forall j, 0 <= j < getAgentCount crowd' ->
     active (getAgent crowd' j) && arrived (getAgent crowd' j) = false) ->
  (Z.to_nat (getAgentCount crowd') < fuel)%nat ->
  UpdateCrowd fuel nav delta rand
  = Done (set_crowd (set_delta_seconds nav delta) crowd', rand).
Proof.
  intros Hm Hc crowd' Hidle Hfuel. unfold UpdateCrowd. rewrite Hm, Hc.
  apply (arrival_scan_idle crowd'); [reflexivity | exact Hidle | lia |].
  now rewrite Z.sub_0_r.
Qed.

Lemma arrival_scan_hangs (crowd : dtCrowd) (query : dtNavMeshQuery) (i : Z)
    (rand : RandState) (fuel : nat) (j : Z) (nav : Navigation) :
  _crowd nav = Some crowd -> _navQuery nav = Some query ->
  i < getAgentCount crowd ->
  active (getAgent crowd i) && arrived (getAgent crowd i) = true ->
  (forall k,
     accepted (F32.of_Z 1)
       (sample_at k query default_filter rand 0%N
          (F32.zero, F32.zero, F32.zero)) = false) ->
  j <= i ->
  arrival_scan fuel j nav rand = OutOfFuel.
Proof.
  intros Hc Hq Hi Harr Hnone. revert j.
  induction fuel as [|fuel IH]; intros j Hj; [reflexivity|].
  cbn [arrival_scan]. rewrite Hc. cbn [deref mbind run_bind].
  destruct (Z.ltb_spec j (getAgentCount crowd)); [|lia].
  apply andb_prop in Harr. destruct Harr as [Hact Harr].
  destruct (active (getAgent crowd j)) eqn:Haj; cbn [negb].
  - fold (arrived (getAgent crowd j)).
    destruct (arrived (getAgent crowd j)) eqn:Hrj.
    + unfold GetRandomLocationWithoutLock. rewrite Hq.
      cbn [deref mbind run_bind].
      now rewrite (sample_loop_spins _ _ _ _ _ _ _ _ Hnone).
    + apply IH. destruct (Z.eq_dec j i) as [->|]; [congruence | lia].
  - apply IH. destruct (Z.eq_dec j i) as [->|]; [congruence | lia].
Qed.

(** X22. A tick never ends when an active agent has arrived and no random
    point lies within the height 1 that the scan asks for (a mesh without
    tiles, or one whose polygons all lie higher): whatever the fuel,
    [UpdateCrowd] is still inside the sampler's loop when it is used
    up. *)
Theorem UpdateCrowd_never_returns (fuel : nat) (nav : Navigation)
    (mesh : dtNavMesh) (query : dtNavMeshQuery) (crowd : dtCrowd)
    (delta : double) (rand : RandState) (i : Z) :
  _navMesh nav = Some mesh -> _navQuery nav = Some query ->
  _crowd nav = Some crowd ->
  let crowd' := crowd_update crowd (F64.to_float delta) in
  0 <= i < getAgentCount crowd' ->
  active (getAgent crowd' i) && arrived (getAgent crowd' i) = true ->
  (forall k,
     accepted (F32.of_Z 1)
       (sample_at k query default_filter rand 0%N
          (F32.zero, F32.zero, F32.zero)) = false) ->
  UpdateCrowd fuel nav delta rand = OutOfFuel.
Proof.
  intros Hm Hq Hc crowd' Hi Harr Hnone. unfold UpdateCrowd. rewrite Hm, Hc.
  apply (arrival_scan_hangs crowd' query i); try assumption;
    try reflexivity; lia.
Qed.

(** ** The same identity twice *)

(** X23. [AddWalker] does not look the identity up first.  Adding an
    identity a second time takes another agent of the crowd, and the maps
    then hold the second slot, the second base offset and the heading 0
    for it; if the two slots differ, no identity is mapped to the first
    one any more (unless another was before), while its agent stays in the
    crowd: no call of the class removes an agent. *)
Theorem AddWalker_same_identity_twice (nav : Navigation) (id : ActorId)
    (from from' : geom.Location) (b b' : float)
    (c c1 c2 : dtCrowd) (i1 i2 : Z) :
  _crowd nav = Some c ->
  addAgent c (to_engine from) (walker_params b) = (i1, c1) ->
  addAgent c1 (to_engine from') (walker_params b') = (i2, c2) ->
  i1 <> -1 -> i2 <> -1 ->
  let nav2 := snd (AddWalker (snd (AddWalker nav id from b)) id from' b') in
  fst (AddWalker (snd (AddWalker nav id from b)) id from' b') = true
  /\ _crowd nav2 = Some c2
  /\ _mappedId nav2 = <[id := i2]> (_mappedId nav)
  /\ _baseHeight nav2 = <[id := b']> (_baseHeight nav)
  /\ yaw_walkers nav2 = <[id := F32.zero]> (yaw_walkers nav)
  /\ (i1 <> i2 ->
      forall id', _mappedId nav !! id' <> Some i1 ->
                  _mappedId nav2 !! id' <> Some i1).
Proof.
  intros Hc Ha1 Ha2 Hi1 Hi2 nav2. subst nav2.
  unfold AddWalker at 2 4 6 8 10 12. rewrite Hc.
  change (geom.x from, geom.z from, geom.y from) with (to_engine from).
  rewrite Ha1. destruct (Z.eqb_spec i1 (-1)); [contradiction|].
  cbn [snd]. unfold AddWalker. cbn [_crowd].
  change (geom.x from', geom.z from', geom.y from') with (to_engine from').
  rewrite Ha2. destruct (Z.eqb_spec i2 (-1)); [contradiction|].
  cbn [fst snd _crowd _mappedId _baseHeight yaw_walkers].
  rewrite !insert_insert_eq.
  repeat split.
  intros Hne id' Hold.
  destruct (decide (id = id')) as [<-|Hid].
  - rewrite lookup_insert_eq. congruence.
  - now rewrite lookup_insert_ne.
Qed.


End WalkerFacts.

(** ** frand *)

(** X24. [frand] is not confined to [0, 1): with [RAND_MAX] = 2^31 - 1
    both casts to [float] round to 2^31 for the 64 largest values of
    [rand()], and the quotient is exactly 1. *)
Theorem frand_reaches_one (r : Z) :
  2 ^ 31 - 64 <= r <= 2 ^ 31 - 1 ->
  frand (2 ^ 31 - 1) r = F32.of_Z 1.
Proof.
  intros H.
  assert (Hk : exists k, (k < 64)%nat /\ r = 2147483584 + Z.of_nat k)
    by (exists (Z.to_nat (r - 2147483584)); lia).
  destruct Hk as (k & Hk & ->).
  do 64 (destruct k as [|k]; [vm_compute; reflexivity|]).
  lia.
Qed.

Lemma frand_reaches_one_witness :
  frand (2 ^ 31 - 1) (2 ^ 31 - 2) = F32.of_Z 1.
Proof. apply frand_reaches_one. lia. Defined.


(** ** The further properties on the example engine *)

Section FurtherExamples.
Import Example.

(** A buffer cut inside the tile data, on an object that holds a mesh. *)
Lemma Load_failure_keeps_object_witness :
  load_nav (Load (take 53 one_tile) loaded) = loaded.
Proof. apply Load_failure_keeps_object. evaluate. Defined.

(** A second mesh loaded over the first: the two tiles of the buffer, in
    file order, whatever was loaded before. *)
Lemma Load_success_installs_witness :
  _navMesh (load_nav (Load two_tiles loaded))
  = Some (add_tiles two_tiles 2 sizeof_NavMeshSetHeader
            (fresh_mesh two_tiles))
  /\ _navMesh (load_nav (Load two_tiles loaded))
     = Some [(1%N, [Byte.x01; Byte.x02]); (2%N, [Byte.x03])]
  /\ _binaryMesh (load_nav (Load two_tiles loaded)) = two_tiles
  /\ releases (load_log (Load two_tiles loaded))
     = [dtFreeNavMesh (_navMesh loaded);
        dtFreeNavMeshQuery (_navQuery loaded)].
Proof.
  assert (Hok : load_ok (Load two_tiles loaded) = true) by evaluate.
  destruct (Load_success_installs (proj1 example_sizes)
              (proj2 example_sizes) two_tiles loaded Hok)
    as ((mesh & Hm & _ & _ & Htiles) & Hb & _ & _ & _ & _ & _ & Hr).
  destruct Htiles as (j & p & _ & _ & Hmesh); [evaluate | evaluate |].
  assert (Hj : _navMesh (load_nav (Load two_tiles loaded))
               = Some [(1%N, [Byte.x01; Byte.x02]); (2%N, [Byte.x03])])
    by evaluate.
  split; [|split; [exact Hj | split; [exact Hb | exact Hr]]].
  rewrite Hj. evaluate.
Defined.

(** The crowd of walker 7 outlives the mesh it was created for. *)
Lemma Load_keeps_crowd_witness :
  _crowd (load_nav (Load two_tiles with_walker)) = _crowd with_walker
  /\ _mappedId (load_nav (Load two_tiles with_walker))
     = _mappedId with_walker.
Proof.
  destruct (_crowd with_walker) as [c|] eqn:Hc; [|discriminate].
  destruct (Load_keeps_crowd two_tiles with_walker c Hc)
    as (H1 & H2 & _).
  split; [exact H1 | exact H2].
Defined.

Lemma Load_rejects_header_witness :
  Load wrong_magic loaded
  = {| load_ok := false; load_nav := loaded; load_log := [] |}.
Proof.
  apply Load_rejects_header; [evaluate|]. left. evaluate.
Defined.

(** Both tiles are added in file order; the byte behind them is
    ignored. *)
Lemma Load_whole_tiles_witness :
  load_ok (Load two_tiles fresh) = true
  /\ _navMesh (load_nav (Load two_tiles fresh))
     = Some [(1%N, [Byte.x01; Byte.x02]); (2%N, [Byte.x03])].
Proof.
  rewrite (Load_whole_tiles (proj1 example_sizes) (proj2 example_sizes)
             two_tiles fresh 67); evaluate.
Defined.

(** The request for 2^64 - 1 bytes is refused, and the load succeeds with
    no tile. *)
Lemma Load_allocation_failure_witness :
  load_ok (Load huge_tile fresh) = true
  /\ _navMesh (load_nav (Load huge_tile fresh)) = Some [].
Proof.
  rewrite (Load_allocation_failure (proj1 example_sizes)
             (proj2 example_sizes) huge_tile fresh 0 40); evaluate.
Defined.

(** A file that does not open, and two files that open: neither is read,
    and both are parsed as the empty buffer. *)
Lemma Load_file_reads_nothing_witness :
  Load_file missing_bin loaded
  = {| load_ok := false; load_nav := loaded; load_log := [] |}
  /\ Load_file one_tile_bin loaded = Load [] loaded
  /\ Load_file two_tiles_bin loaded = Load_file one_tile_bin loaded
  /\ out_of_range 0 sizeof_NavMeshSetHeader
       ∈ load_log (Load_file one_tile_bin loaded).
Proof.
  destruct (Load_file_reads_nothing missing_bin loaded (proj1 example_sizes))
    as [Hmissing _].
  destruct (Load_file_reads_nothing one_tile_bin loaded
              (proj1 example_sizes)) as [_ Hopened].
  destruct (Hopened one_tile) as (Hempty & Hread & Hsame); [evaluate|].
  split; [apply Hmissing; evaluate|]. split; [exact Hempty|].
  split; [apply (Hsame two_tiles_bin two_tiles); evaluate | exact Hread].
Defined.

(** The result does not depend on what [path] held. *)
Lemma GetPath_out_parameter_witness :
  GetPath loaded (point 1 2 3) (point 4 5 6) None [origin]
  = Done (true, [point 1 2 3; point 4 5 6]).
Proof.
  destruct (GetPath_out_parameter loaded (point 1 2 3) (point 4 5 6) None
              [] [point 1 2 3; point 4 5 6] true) as [_ H]; [evaluate|].
  now apply H.
Defined.

(** On a mesh without tiles no endpoint has a nearest polygon. *)
Lemma GetPath_fails_iff_witness :
  GetPath loaded_empty (point 1 2 3) (point 4 5 6) None [origin]
  = Done (false, [origin]).
Proof.
  apply (GetPath_fails_iff loaded_empty []); [evaluate | evaluate |].
  left. evaluate.
Defined.

Lemma UpdateCrowd_frame_witness :
  exists nav' rand',
    UpdateCrowd 1000 with_walker tick O = Done (nav', rand')
    /\ _delta_seconds nav' = tick
    /\ _mappedId nav' = _mappedId with_walker
    /\ _navMesh nav' = _navMesh with_walker.
Proof.
  assert (H : is_done (UpdateCrowd 1000 with_walker tick O) = true)
    by evaluate.
  destruct (UpdateCrowd 1000 with_walker tick O) as [[nav' rand']| |] eqn:E;
    [|discriminate..].
  exists nav', rand'. split; [reflexivity|].
  destruct (UpdateCrowd_frame _ _ _ _ _ _ E)
    as (_ & Hd & _ & Hm & _ & Hid & _).
  destruct Hd as [Hd _]; [vm_compute; eexists; reflexivity..|].
  split; [exact Hd|]. split; [exact Hid | exact Hm].
Defined.

Lemma SetWalkerTarget_effect_witness :
  exists ok nav',
    SetWalkerTarget with_walker 7 (point 1 0 0) = Done (ok, nav')
    /\ _mappedId nav' = _mappedId with_walker.
Proof.
  assert (H : is_done (SetWalkerTarget with_walker 7 (point 1 0 0)) = true)
    by evaluate.
  destruct (SetWalkerTarget with_walker 7 (point 1 0 0))
    as [[ok nav']| |] eqn:E; [|discriminate..].
  exists ok, nav'. split; [reflexivity|].
  destruct (SetWalkerTarget_effect _ _ _ _ _ E)
    as [[_ ->] | (index & c & q & ref & _ & _ & _ & _ & _ & _ & Hres)];
    [reflexivity|].
  now injection Hres as _ ->.
Defined.

(** The agent of walker 7 is not active. *)
Lemma GetWalkerTransform_failure_witness :
  exists t n,
    GetWalkerTransform retired 7 transform0 = Done (false, t, n)
    /\ t = transform0 /\ n = retired.
Proof.
  assert (H : match GetWalkerTransform retired 7 transform0 with
              | Done (false, _, _) => true
              | _ => false
              end = true) by evaluate.
  destruct (GetWalkerTransform retired 7 transform0)
    as [[[[|] t] n]| |] eqn:E; try discriminate.
  exists t, n. split; [reflexivity|].
  exact (GetWalkerTransform_failure _ _ _ _ _ E).
Defined.

(** The retired agent of walker 7 still reports the speed 2. *)
Lemma GetWalkerSpeed_inactive_witness :
  GetWalkerTransform retired 7 transform0 = Done (false, transform0, retired)
  /\ GetWalkerSpeed retired 7 = Done (F32.of_Z 2).
Proof.
  destruct (_crowd retired) as [c|] eqn:Hc; [|discriminate].
  destruct (GetWalkerSpeed_inactive retired 7 0 c transform0)
    as [Ht Hs].
  - evaluate.
  - discriminate.
  - exact Hc.
  - injection Hc as <-. evaluate.
  - split; [exact Ht|]. rewrite Hs. injection Hc as <-. evaluate.
Defined.

Lemma reachable_objects_consistent_witness :
  dom (_baseHeight after_history) = dom (_mappedId after_history)
  /\ dom (yaw_walkers after_history) = dom (_mappedId after_history).
Proof.
  destruct (reachable_objects_consistent F64.zero history after_history
              history_runs) as (_ & _ & H1 & H2 & _).
  split; [exact H1 | exact H2].
Defined.

Lemma walkers_are_never_removed_witness :
  dom (_mappedId fresh) ⊆ dom (_mappedId after_history)
  /\ dom (_mappedId after_history) ⊆ dom (_mappedId fresh) ∪ added history.
Proof. exact (walkers_are_never_removed history fresh after_history history_runs). Defined.

(** Bound 0: the fourth draw is the first on the ground. *)
Lemma GetRandomLocation_first_accepted_witness :
  GetRandomLocation 4 loaded origin F32.zero None O
  = Done (true, origin, 4%nat).
Proof.
  rewrite (GetRandomLocation_first_accepted 4 3 loaded
             [(1%N, [Byte.x01; Byte.x02])]).
  - evaluate.
  - evaluate.
  - evaluate.
  - intros [|[|[|k]]] Hk; [evaluate.. | lia].
  - lia.
Defined.

(** The bound -2, and a bound that is not a number. *)
Lemma GetRandomLocation_never_returns_witness :
  GetRandomLocation 1000 loaded origin (F32.of_Z (-2)) None O = OutOfFuel
  /\ GetRandomLocation 1000 loaded origin F32.nan None O = OutOfFuel.
Proof.
  split;
    apply (GetRandomLocation_never_returns 1000 loaded
             [(1%N, [Byte.x01; Byte.x02])]); evaluate.
Defined.

Lemma loaded_pool :
  exists c, _crowd loaded = Some c /\ slots c = replicate 500 free_slot.
Proof.
  destruct (_crowd loaded) as [c|] eqn:Hc; [|discriminate].
  exists c. split; [reflexivity|]. injection Hc as <-. evaluate.
Qed.

(** A crowd without a walker. *)
Lemma UpdateCrowd_nobody_arrived_witness :
  exists nav',
    UpdateCrowd 1000 loaded tick 5%nat = Done (nav', 5%nat)
    /\ _delta_seconds nav' = tick.
Proof.
  destruct loaded_pool as (c & Hc & Hslots).
  eexists. split.
  - apply (UpdateCrowd_nobody_arrived 1000 loaded [(1%N, [Byte.x01; Byte.x02])] c).
    + evaluate.
    + exact Hc.
    + intros j Hj. cbn [crowd_update getAgent crowd pool_engine].
      unfold pool_getAgent, set_slots, stand_still. cbn [slots].
      destruct (j <? 0); [reflexivity|]. rewrite Hslots.
      destruct (replicate 500 free_slot !! Z.to_nat j) as [a|] eqn:Ha;
        [|reflexivity].
      apply lookup_replicate in Ha. destruct Ha as [-> _]. reflexivity.
    + cbn [crowd_update getAgentCount crowd pool_engine].
      unfold set_slots, stand_still. cbn [slots].
      rewrite Hslots, length_replicate. lia.
  - reflexivity.
Defined.

(** The second [AddWalker] for walker 7 takes slot 1, and slot 0 is
    mapped to no identity any more. *)
Lemma AddWalker_same_identity_twice_witness :
  _mappedId twice !! 7%N = Some 1
  /\ _baseHeight twice !! 7%N = Some (F32.of_Z 2).
Proof.
  destruct (_crowd loaded) as [c|] eqn:Hc; [|discriminate].
  destruct (addAgent c (to_engine origin) (walker_params (F32.of_Z 1)))
    as [i1 c1] eqn:H1.
  destruct (addAgent c1 (to_engine (point 1 0 0))
              (walker_params (F32.of_Z 2))) as [i2 c2] eqn:H2.
  assert (Hi1 : i1 = 0).
  { change i1 with (fst (i1, c1)). rewrite <- H1.
    injection Hc as <-. evaluate. }
  assert (Hi2 : i2 = 1).
  { change i2 with (fst (i2, c2)). rewrite <- H2.
    change c1 with (snd (i1, c1)). rewrite <- H1.
    injection Hc as <-. evaluate. }
  destruct (AddWalker_same_identity_twice loaded 7 origin (point 1 0 0)
              (F32.of_Z 1) (F32.of_Z 2) c c1 c2 i1 i2 Hc H1 H2)
    as (_ & _ & Hm & Hb & _); [lia | lia |].
  unfold twice, with_walker. rewrite Hm, Hb, !lookup_insert_eq, Hi2.
  split; reflexivity.
Defined.

(** Every [Load] of [history] reads inside its buffer. *)
Lemma reachable_no_null_dereference_witness :
  exec fresh history <> NullDeref
  /\ GetWalkerSpeed after_history 7 <> NullDeref
  /\ GetRandomLocation 10 fresh origin F32.zero None O = NullDeref.
Proof.
  assert (Hin : reads_inside fresh history = true) by evaluate.
  destruct (reachable_no_null_dereference F64.zero history Hin)
    as [Hrun Hafter].
  split; [exact Hrun|].
  destruct (Hafter after_history history_runs)
    as (_ & Hspeed & _ & _ & _ & _).
  split; [apply Hspeed|].
  destruct (reachable_no_null_dereference F64.zero [] eq_refl)
    as [_ Hnew].
  destruct (Hnew fresh eq_refl) as (_ & _ & _ & _ & _ & Hrandom).
  apply Hrandom. reflexivity.
Defined.

End FurtherExamples.


(** ** The properties on the second engine *)

Section HighlandExamples.
Import Highland.

Lemma highland_draws (k : nat) (query : dtNavMeshQuery) (f : dtQueryFilter)
    (rand : RandState) (ref : N) (pt : float3) :
  accepted (F32.of_Z 1) (sample_at k query f rand ref pt) = false.
Proof.
  revert rand ref pt. induction k as [|k IH]; intros rand ref pt.
  - reflexivity.
  - cbn [sample_at findRandomPoint mesh]. apply IH.
Qed.

Lemma Load_init_failure_witness :
  Load refused fresh
  = {| load_ok := false; load_nav := fresh; load_log := [] |}.
Proof. apply Load_init_failure; evaluate. Defined.

(** Walker 7 stands where its path ends, and no random point lies within
    height 1. *)
Lemma UpdateCrowd_never_returns_witness :
  UpdateCrowd 1000 with_walker Example.tick O = OutOfFuel
  /\ UpdateCrowd 2000 with_walker Example.tick O = OutOfFuel.
Proof.
  destruct (_crowd with_walker) as [c|] eqn:Hc; [|discriminate].
  assert (Hm : _navMesh with_walker = Some [(1%N, [Byte.x01; Byte.x02])])
    by evaluate.
  assert (Hq : _navQuery with_walker = Some [(1%N, [Byte.x01; Byte.x02])])
    by evaluate.
  assert (Hcount : 0 <= 0 < getAgentCount
                             (crowd_update c (F64.to_float Example.tick)))
    by (injection Hc as <-; evaluate).
  assert (Harr : active (getAgent
                           (crowd_update c (F64.to_float Example.tick)) 0)
                 && arrived (getAgent
                               (crowd_update c (F64.to_float Example.tick)) 0)
                 = true)
    by (injection Hc as <-; evaluate).
  split.
  - exact (UpdateCrowd_never_returns 1000 with_walker _ _ c Example.tick O 0
             Hm Hq Hc Hcount Harr (fun k => highland_draws k _ _ _ _ _)).
  - exact (UpdateCrowd_never_returns 2000 with_walker _ _ c Example.tick O 0
             Hm Hq Hc Hcount Harr (fun k => highland_draws k _ _ _ _ _)).
Defined.

End HighlandExamples.
